(** * Name validation between a rasterised PDF and a spreadsheet

    A shallow embedding of [name_validator.py] (the normaliser, the PDF name
    extractor, the spreadsheet matcher and the command line driver) and of the
    earlier script [tesseractAnalysis.py], with the properties the
    specification states about them.

    Conventions.
    - A Python [str] is a list of Unicode code points ([N]).
    - A Python [set] of strings is a [gset] of such lists.
    - A pandas [DataFrame] is the ordered list of its columns, each a label
      with its cells.
    - The third-party packages are not part of the repository.  What the
      program needs from them is taken as a field of the class [Unicode]
      (the transliteration table of [unidecode] and the alphabetic and
      printable properties, beyond ASCII) or of the record [Env] (file
      system, rasteriser, OCR engine, spreadsheet reader and writer). *)

From stdpp Require Import base numbers option list sets gmap strings pretty.

Local Open Scope N_scope.

(** ** Strings *)

Module Text.

Abbreviation str := (list N).

(** An ASCII literal as a list of code points. *)
Fixpoint lit (s : string) : str :=
  match s with
  | EmptyString => []
  | String a s' => Ascii.N_of_ascii a :: lit s'
  end.

Definition SPACE : N := 32.

Definition is_ascii_upper (c : N) : bool := (65 <=? c) && (c <=? 90).
Definition is_ascii_lower (c : N) : bool := (97 <=? c) && (c <=? 122).

(** The character class [A-Za-z]. *)
Definition is_ascii_letter (c : N) : bool := is_ascii_upper c || is_ascii_lower c.

(** [str.isspace] on one character, which is also what [\s] matches in a
    [str] pattern and what [str.strip] and [str.split] remove: the code
    points CPython lists as white space. *)
Definition isspace (c : N) : bool :=
  ((9 <=? c) && (c <=? 13)) || ((28 <=? c) && (c <=? 32))
  || (c =? 133) || (c =? 160) || (c =? 5760)
  || ((8192 <=? c) && (c <=? 8202))
  || (c =? 8232) || (c =? 8233) || (c =? 8239) || (c =? 8287) || (c =? 12288).

(** The line boundaries of [str.splitlines]. *)
Definition is_linebreak (c : N) : bool :=
  ((10 <=? c) && (c <=? 13)) || ((28 <=? c) && (c <=? 30))
  || (c =? 133) || (c =? 8232) || (c =? 8233).

(** [re.sub(r"[^A-Za-z\s]", " ", t)]: every character outside the class is
    replaced, one for one, by a space. *)
Definition sub_non_letters (t : str) : str :=
  (fun c => if is_ascii_letter c || isspace c then c else SPACE) <$> t.

(** [re.sub(r"\s+", " ", t)], scanning left to right; [in_run] tells that the
    previous character belonged to the run of white space being replaced. *)
Fixpoint sub_ws_runs_from (in_run : bool) (t : str) : str :=
  match t with
  | [] => []
  | c :: t' =>
      if isspace c
      then (if in_run then sub_ws_runs_from true t'
            else SPACE :: sub_ws_runs_from true t')
      else c :: sub_ws_runs_from false t'
  end.

Definition sub_ws_runs (t : str) : str := sub_ws_runs_from false t.

Fixpoint lstrip (t : str) : str :=
  match t with
  | [] => []
  | c :: t' => if isspace c then lstrip t' else t
  end.

Fixpoint rstrip (t : str) : str :=
  match t with
  | [] => []
  | c :: t' =>
      match rstrip t' with
      | [] => if isspace c then [] else [c]
      | r => c :: r
      end
  end.

(** [str.strip()] without argument. *)
Definition strip (t : str) : str := rstrip (lstrip t).

Definition upper_char (c : N) : N := if is_ascii_lower c then c - 32 else c.
Definition lower_char (c : N) : N := if is_ascii_upper c then c + 32 else c.

(** [str.upper] and [str.lower] on ASCII text.  The program applies [upper]
    to text made of ASCII letters and spaces only (lemma [clean_words]
    below) and reads of [lower] a suffix test against
    an ASCII extension, which no case mapping of a character beyond ASCII
    can produce. *)
Definition upper (t : str) : str := upper_char <$> t.
Definition lower (t : str) : str := lower_char <$> t.

(** [str.split()] without argument: the maximal runs of characters that are
    not white space. *)
Fixpoint split_ws (t : str) : list str :=
  match t with
  | [] => []
  | c :: t' =>
      if isspace c then split_ws t'
      else match t' with
           | [] => [[c]]
           | d :: _ =>
               if isspace d then [c] :: split_ws t'
               else match split_ws t' with
                    | w :: ws => (c :: w) :: ws
                    | [] => [[c]]
                    end
           end
  end.

(** [" ".join(words)]. *)
Fixpoint join_sp (words : list str) : str :=
  match words with
  | [] => []
  | [w] => w
  | w :: ws => w ++ SPACE :: join_sp ws
  end.

(** [t.split(sep)] for a one-character separator: always at least one
    field. *)
Fixpoint split_on (sep : N) (t : str) : list str :=
  match t with
  | [] => [[]]
  | c :: t' =>
      if c =? sep then [] :: split_on sep t'
      else match split_on sep t' with
           | w :: ws => (c :: w) :: ws
           | [] => [[c]]
           end
  end.

(** [str.splitlines()]: [cur] is the line being read, reversed.  A carriage
    return followed by a line feed is one boundary, and a final boundary
    opens no empty last line. *)
Fixpoint splitlines_from (cur : str) (t : str) : list str :=
  match t with
  | [] => match cur with [] => [] | _ => [rev cur] end
  | c :: t' =>
      if is_linebreak c then
        rev cur ::
          match t' with
          | d :: t'' =>
              if (c =? 13) && (d =? 10) then splitlines_from [] t''
              else splitlines_from [] t'
          | [] => splitlines_from [] t'
          end
      else splitlines_from (c :: cur) t'
  end.

Definition splitlines (t : str) : list str := splitlines_from [] t.

(** [needle in hay] for strings. *)
Fixpoint starts_with (p t : str) : bool :=
  match p, t with
  | [], _ => true
  | _ :: _, [] => false
  | a :: p', b :: t' => (a =? b) && starts_with p' t'
  end.

Fixpoint contains (needle hay : str) : bool :=
  starts_with needle hay ||
  match hay with
  | [] => false
  | _ :: hay' => contains needle hay'
  end.

(** [t.endswith(suffix)]. *)
Definition endswith (t suffix : str) : bool :=
  starts_with (rev suffix) (rev t).

End Text.

Export Text.

(** ** What the program takes from Unicode data and from [unidecode] *)

(** Beyond ASCII the program depends on three tables that are not its own:
    the replacement strings of [unidecode], the alphabetic property behind
    [str.isalpha], and the printable property behind [repr].  Below 128 all
    three are fixed by the code that consults them. *)
Class Unicode := {
  unidecode_table : N → str;
  uni_isalpha : N → bool;
  uni_isprintable : N → bool
}.

Section with_unicode.
Context {U : Unicode}.

(** [unidecode(s)]: a code point below 128 stands for itself, any other is
    replaced by its table entry (the empty string when it has none). *)
Definition unidecode (s : str) : str :=
  mjoin ((fun c => if c <? 128 then [c] else unidecode_table c) <$> s).

(** [c.isalpha()]. *)
Definition isalpha (c : N) : bool :=
  if c <? 128 then is_ascii_letter c else uni_isalpha c.

(** [normalize_name]. *)
Definition normalize_name (name : str) : str :=
  let ascii_txt := unidecode name in
  let clean_txt := sub_non_letters ascii_txt in
  let collapsed := strip (sub_ws_runs clean_txt) in
  upper collapsed.

Definition hex_digit (d : N) : N := if d <? 10 then 48 + d else 87 + d.

(** [width] hexadecimal digits of [c], most significant first. *)
Fixpoint hex (width : nat) (c : N) : str :=
  match width with
  | O => []
  | S w => hex w (c / 16) ++ [hex_digit (c mod 16)]
  end.

(** One character of [repr(s)] inside the quote [q]. *)
Definition repr_char (q : N) (c : N) : str :=
  if (c =? q) || (c =? 92) then [92; c]
  else if c =? 9 then [92; 116]
  else if c =? 10 then [92; 110]
  else if c =? 13 then [92; 114]
  else if (c <? 32) || (c =? 127) then [92; 120] ++ hex 2 c
  else if c <? 127 then [c]
  else if uni_isprintable c then [c]
  else if c <? 256 then [92; 120] ++ hex 2 c
  else if c <? 65536 then [92; 117] ++ hex 4 c
  else [92; 85] ++ hex 8 c.

(** [repr(s)] of a string: double quotes only when the string has a single
    quote and no double quote. *)
Definition repr_str (s : str) : str :=
  let q := if bool_decide (39 ∈ s) && negb (bool_decide (34 ∈ s)) then 34 else 39 in
  q :: mjoin (repr_char q <$> s) ++ [q].

Fixpoint join_comma (items : list str) : str :=
  match items with
  | [] => []
  | [x] => x
  | x :: xs => x ++ lit ", " ++ join_comma xs
  end.

(** [repr(l)] of a list of strings. *)
Definition repr_list (l : list str) : str :=
  lit "[" ++ join_comma (repr_str <$> l) ++ lit "]".

End with_unicode.

(** ** The tables up to U+00FF *)

(** Block [x000] of Unidecode (release 1.3), entries U+0080 to U+00FF in
    order. *)
Definition x000 : list str :=
  replicate 32 [] ++
  [ lit " "; lit "!"; lit "C/"; lit "PS"; lit "$?"; lit "Y="; lit "|"; lit "SS";
    [34]; lit "(c)"; lit "a"; lit "<<"; lit "!"; []; lit "(r)"; lit "-";
    lit "deg"; lit "+-"; lit "2"; lit "3"; [39]; lit "u"; lit "P"; lit "*";
    lit ","; lit "1"; lit "o"; lit ">>"; lit " 1/4"; lit " 1/2"; lit " 3/4"; lit "?";
    lit "A"; lit "A"; lit "A"; lit "A"; lit "A"; lit "A"; lit "AE"; lit "C";
    lit "E"; lit "E"; lit "E"; lit "E"; lit "I"; lit "I"; lit "I"; lit "I";
    lit "D"; lit "N"; lit "O"; lit "O"; lit "O"; lit "O"; lit "O"; lit "x";
    lit "O"; lit "U"; lit "U"; lit "U"; lit "U"; lit "Y"; lit "Th"; lit "ss";
    lit "a"; lit "a"; lit "a"; lit "a"; lit "a"; lit "a"; lit "ae"; lit "c";
    lit "e"; lit "e"; lit "e"; lit "e"; lit "i"; lit "i"; lit "i"; lit "i";
    lit "d"; lit "n"; lit "o"; lit "o"; lit "o"; lit "o"; lit "o"; lit "/";
    lit "o"; lit "u"; lit "u"; lit "u"; lit "u"; lit "y"; lit "th"; lit "y" ].

(** The three tables restricted to the Latin-1 Supplement.  Code points from
    U+0100 on are outside this fragment: they get no replacement and neither
    property.  It serves the concrete runs below, whose inputs stay under
    U+0100. *)
Definition latin1 : Unicode := {|
  unidecode_table c := default [] (x000 !! N.to_nat (c - 128));
  uni_isalpha c :=
    (c =? 170) || (c =? 181) || (c =? 186)
    || ((192 <=? c) && (c <=? 214)) || ((216 <=? c) && (c <=? 246))
    || ((248 <=? c) && (c <=? 255));
  uni_isprintable c :=
    ((161 <=? c) && (c <=? 172)) || ((174 <=? c) && (c <=? 255))
|}.

(** ** Exceptions, files, tables and the outside world *)

Module Runtime.

Inductive dir := PDF_DIR | EXCEL_DIR | OUTPUT_DIR.

(** [InDir d name] is the path [d / name]; [Rel p] is a path given as it is
    to the library, relative to the working directory. *)
Inductive path :=
| InDir (d : dir) (name : str)
| Rel (p : str).

(** The three messages [extract_names] gives its own exception. *)
Inductive pdf_failure :=
| PdfNotFound (p : path)
| PopplerNotInstalled
| ConversionFailed.

(** The exception classes the program raises, catches or lets through.
    [TesseractNotFoundError] is an [OSError] in pytesseract, not a
    [TesseractError]; [OtherException] is any further subclass of
    [Exception]. *)
Inductive exn :=
| PdfExtractionError (why : pdf_failure)
| FileNotFoundError (p : path)
| KeyError (msg : str)
| ValueError (msg : str)
| TesseractError (status : Z) (msg : str)
| TesseractNotFoundError
| PDFInfoNotInstalledError
| OtherException (cls : string).

Inductive result (A : Type) :=
| Ok (a : A)
| Raise (e : exn).
Arguments Ok {A} a.
Arguments Raise {A} e.

(** A spreadsheet cell as pandas holds it in an object column. *)
Inductive cell :=
| CStr (s : str)
| CNaN
| CInt (z : Z)
| CBool (b : bool)
| COther (shown : str).

(** [str(v)] of a cell value, which is what [astype(str)] stores: a missing
    cell reads [nan]; a value of another type (a float, a timestamp) is
    carried by its [str] form. *)
Definition str_of_cell (v : cell) : str :=
  match v with
  | CStr s => s
  | CNaN => lit "nan"
  | CInt z => lit (pretty z)
  | CBool true => lit "True"
  | CBool false => lit "False"
  | COther shown => shown
  end.

(** A frame is the list of its columns in order, each a label and the cells
    of that column, one per row.  Labels are the header texts of the
    sheet. *)
Abbreviation DataFrame := (list (str * list cell)).

(** [list(df.columns)]. *)
Definition df_columns (df : DataFrame) : list str := df.*1.

(** [df[k]]. *)
Fixpoint df_get (k : str) (df : DataFrame) : option (list cell) :=
  match df with
  | [] => None
  | (k', v) :: df' => if decide (k' = k) then Some v else df_get k df'
  end.

(** [df[k] = v]: an existing column of that label is overwritten where it
    stands, a new label is appended as the last column. *)
Fixpoint df_set (k : str) (v : list cell) (df : DataFrame) : DataFrame :=
  match df with
  | [] => [(k, v)]
  | (k', v') :: df' =>
      if decide (k' = k) then (k, v) :: df' else (k', v') :: df_set k v df'
  end.

(** [df.drop(columns=k, inplace=True)] for a label that is present. *)
Definition df_drop (k : str) (df : DataFrame) : DataFrame :=
  filter (fun kv => kv.1 ≠ k) df.

(** The cell of column [k] in row [i]. *)
Definition df_cell (k : str) (i : nat) (df : DataFrame) : option cell :=
  df_get k df ≫= (fun v => v !! i).

(** A page image, known by what OCR reads from it under a given [tesseract]
    command and language. *)
Definition Image := str → option str → result str.

(** The collaborators of the program: the file system, pdf2image, and the
    spreadsheet reader and writer of pandas.  [mkdir_parents] and [to_excel]
    answer [None] on success. *)
Record Env := {
  is_file : path → bool;
  convert_from_path : path → Z → result (list Image);
  read_excel : path → result DataFrame;
  mkdir_parents : path → option exn;
  to_excel : path → DataFrame → option exn
}.

Inductive level := DEBUG | INFO | WARNING | ERROR.

Definition level_rank (l : level) : nat :=
  match l with DEBUG => 0 | INFO => 1 | WARNING => 2 | ERROR => 3 end.

(** One constructor per logging call of the program, with its arguments. *)
Inductive log_record :=
| LogConverting (p : path) (dpi : Z)
| LogOcrFailed (page : nat) (e : exn)
| LogPageNames (page : nat) (count : nat)
| LogTotalNames (count : nat)
| LogReadError (e : exn)
| LogWriteError (p : path) (e : exn)
| LogSaved (p : path)
| LogBadPdfExtension
| LogBadExcelExtension
| LogError (e : exn)
| LogUnexpected (e : exn)
| LogFinished.

Definition record_level (r : log_record) : level :=
  match r with
  | LogPageNames _ _ => DEBUG
  | LogConverting _ _ | LogTotalNames _ | LogSaved _ | LogFinished => INFO
  | LogOcrFailed _ _ => WARNING
  | _ => ERROR
  end.

(** What a run leaves behind: the level of the root logger, the records
    emitted (oldest first) and the spreadsheets written. *)
Record World := {
  root_level : level;
  emitted : list log_record;
  written : list (path * DataFrame)
}.

(** Computations that log, write and may raise. *)
Definition M (A : Type) : Type := World → World * result A.

#[global] Instance M_ret : MRet M := fun A a w => (w, Ok a).

#[global] Instance M_bind : MBind M := fun A B f m w =>
  match m w with
  | (w', Ok a) => f a w'
  | (w', Raise e) => (w', Raise e)
  end.

Definition raise {A} (e : exn) : M A := fun w => (w, Raise e).

(** [try: body except Exception as exc: handler(exc)]. *)
Definition try_except {A} (body : M A) (handler : exn → M A) : M A := fun w =>
  match body w with
  | (w', Ok a) => (w', Ok a)
  | (w', Raise e) => handler e w'
  end.

(** A logging call: the record is emitted when its level reaches the level
    of the root logger. *)
Definition log (r : log_record) : M unit := fun w =>
  if decide (level_rank (root_level w) ≤ level_rank (record_level r))%nat
  then ({| root_level := root_level w;
           emitted := emitted w ++ [r];
           written := written w |}, Ok ())
  else (w, Ok ()).

Definition set_root_level (l : level) : M unit := fun w =>
  ({| root_level := l; emitted := emitted w; written := written w |}, Ok ()).

Definition lift {A} (r : result A) : M A := fun w => (w, r).

(** [df.to_excel(p, index=False)]. *)
Definition write_excel (env : Env) (p : path) (df : DataFrame) : M unit := fun w =>
  match to_excel env p df with
  | Some e => (w, Raise e)
  | None => ({| root_level := root_level w;
                emitted := emitted w;
                written := written w ++ [(p, df)] |}, Ok ())
  end.

Definition make_parents (env : Env) (p : path) : M unit :=
  match mkdir_parents env p with
  | Some e => raise e
  | None => mret ()
  end.

End Runtime.

Export Runtime.

(** ** [name_validator.py] *)

Module NameValidator.
Section with_unicode.
Context {U : Unicode}.

Definition NAME_COLUMN : str := lit "Nombre Completo".
Definition NORMALIZED_COLUMN : str := lit "_NombreNormalizado".
Definition FLAG_COLUMN : str := lit "Existe en SUA".

(** The condition of the comprehension over the lines of a page:
    [line.strip() and any(c.isalpha() for c in line)]. *)
Definition line_kept (line : str) : bool :=
  bool_decide (strip line ≠ []) && existsb isalpha line.

(** [page_names] of [extract_names]: the normal forms of the lines kept. *)
Definition page_names (text : str) : gset str :=
  list_to_set (normalize_name <$> filter line_kept (splitlines text)).

(** [len(n.split()) >= 2]. *)
Definition two_tokens (n : str) : Prop := (2 ≤ length (split_ws n))%nat.

(** The command OCR runs with: the override when it is given and not empty,
    the default of pytesseract otherwise. *)
Definition effective_cmd (tesseract_cmd : option str) : str :=
  match tesseract_cmd with
  | Some (c :: s) => c :: s
  | _ => lit "tesseract"
  end.

(** The loop of [extract_names] over the page images, [i] being the number
    of the first one. *)
Fixpoint ocr_pages (cmd : str) (i : nat) (images : list Image) (names : gset str)
  : M (gset str) :=
  match images with
  | [] => mret names
  | img :: rest =>
      match img cmd (Some (lit "spa")) with
      | Raise (TesseractError status msg) =>
          log (LogOcrFailed i (TesseractError status msg));;
          ocr_pages cmd (S i) rest names
      | Raise e => raise e
      | Ok text =>
          let found := page_names text in
          let names' := names ∪ filter two_tokens found in
          log (LogPageNames i (size found));;
          ocr_pages cmd (S i) rest names'
      end
  end.

(** [PdfNameExtractor(pdf_path, tesseract_cmd, dpi).extract_names()]. *)
Definition extract_names (env : Env) (pdf_path : path) (tesseract_cmd : option str)
    (dpi : Z) : M (gset str) :=
  if negb (is_file env pdf_path) then raise (PdfExtractionError (PdfNotFound pdf_path))
  else
    images ← try_except
      (log (LogConverting pdf_path dpi);; lift (convert_from_path env pdf_path dpi))
      (fun exc =>
         match exc with
         | PDFInfoNotInstalledError => raise (PdfExtractionError PopplerNotInstalled)
         | _ => raise (PdfExtractionError ConversionFailed)
         end);
    names ← ocr_pages (effective_cmd tesseract_cmd) 1 images ∅;
    log (LogTotalNames (size names));;
    mret names.

(** The text of the [KeyError] for a sheet without the name column. *)
Definition missing_column_message (df : DataFrame) : str :=
  lit "La columna '" ++ NAME_COLUMN ++
  lit "' no existe en el Excel. Columnas disponibles: " ++
  repr_list (df_columns df).

(** [n in pdf_names] for the value of a cell. *)
Definition in_names (pdf_names : gset str) (v : cell) : bool :=
  match v with
  | CStr n => bool_decide (n ∈ pdf_names)
  | _ => false
  end.

(** The three statements of [validate] that build the output frame. *)
Definition annotate (pdf_names : gset str) (df : DataFrame) : DataFrame :=
  let normalized :=
    (fun v => CStr (normalize_name (str_of_cell v))) <$> default [] (df_get NAME_COLUMN df) in
  let df1 := df_set NORMALIZED_COLUMN normalized df in
  let flags :=
    (fun v => CBool (in_names pdf_names v)) <$> default [] (df_get NORMALIZED_COLUMN df1) in
  let df2 := df_set FLAG_COLUMN flags df1 in
  df_drop NORMALIZED_COLUMN df2.

(** [ExcelNameValidator(excel_path, output_path).validate(pdf_names)]. *)
Definition validate (env : Env) (excel_path output_path : path) (pdf_names : gset str)
  : M unit :=
  if negb (is_file env excel_path) then raise (FileNotFoundError excel_path)
  else
    df ← try_except (lift (read_excel env excel_path))
           (fun exc => log (LogReadError exc);; raise exc);
    if negb (bool_decide (NAME_COLUMN ∈ df_columns df))
    then raise (KeyError (missing_column_message df))
    else
      let out := annotate pdf_names df in
      make_parents env output_path;;
      try_except (write_excel env output_path out)
        (fun exc => log (LogWriteError output_path exc);; raise exc);;
      log (LogSaved output_path).

(** The namespace [parse_args] returns. *)
Record Args := {
  pdf : str;
  excel : str;
  debug : bool;
  tesseract_cmd : option str;
  dpi : Z;
  pages : option str
}.

(** The same namespace with another value for [--pages]. *)
Definition with_pages (p : option str) (a : Args) : Args :=
  {| pdf := pdf a; excel := excel a; debug := debug a;
     tesseract_cmd := tesseract_cmd a; dpi := dpi a; pages := p |}.

(** Index of the last occurrence of [c] in [t], counting from [i]. *)
Fixpoint rfind_from (i : nat) (c : N) (t : str) : option nat :=
  match t with
  | [] => None
  | d :: t' =>
      match rfind_from (S i) c t' with
      | Some j => Some j
      | None => if d =? c then Some i else None
      end
  end.

(** [Path(s).stem]: the last component without its last suffix. *)
Definition stem (s : str) : str :=
  let name := default [] (last (split_on 47 s)) in
  match rfind_from 0 46 name with
  | Some i =>
      if bool_decide (0 < i)%nat && bool_decide (i < length name - 1)%nat
      then take i name else name
  | None => name
  end.

(** The classes of the first [except] clause of [main]. *)
Definition expected (e : exn) : bool :=
  match e with
  | PdfExtractionError _ | FileNotFoundError _ | KeyError _ => true
  | _ => false
  end.

(** [main] after [parse_args]; the number returned is the exit status of
    the process. *)
Definition main (env : Env) (args : Args) (w : World) : World * Z :=
  let (w0, _) :=
    (if debug args then set_root_level DEBUG else mret ()) w in
  if negb (endswith (lower (pdf args)) (lit ".pdf"))
  then ((log LogBadPdfExtension w0).1, 1%Z)
  else if negb (endswith (lower (excel args)) (lit ".xlsx"))
  then ((log LogBadExcelExtension w0).1, 1%Z)
  else
    let pdf_path := InDir PDF_DIR (pdf args) in
    let excel_path := InDir EXCEL_DIR (excel args) in
    let output_path := InDir OUTPUT_DIR (stem (excel args) ++ lit "_REVISADO.xlsx") in
    match
      (pdf_names ← extract_names env pdf_path (tesseract_cmd args) (dpi args);
       validate env excel_path output_path pdf_names) w0
    with
    | (w1, Ok _) => ((log LogFinished w1).1, 0%Z)
    | (w1, Raise exc) =>
        if expected exc then ((log (LogError exc) w1).1, 1%Z)
        else ((log (LogUnexpected exc) w1).1, 2%Z)
    end.

End with_unicode.
End NameValidator.

(** ** [tesseractAnalysis.py] *)

Module TesseractAnalysis.

Definition TESSERACT_CMD : str := lit "/usr/bin/tesseract".
Definition NAME : str := lit "Name".
Definition FLAG : str := lit "Exists in PDF".

(** The loop that appends the text of each page to [extracted_text]. *)
Fixpoint ocr_all (images : list Image) (extracted_text : str) : M str :=
  match images with
  | [] => mret extracted_text
  | image :: rest =>
      text ← lift (image TESSERACT_CMD None);
      ocr_all rest (extracted_text ++ text)
  end.

(** [extract_names_from_pdf(pdf_path)]; pdf2image rasterises at 200 dpi when
    it is given no resolution. *)
Definition extract_names_from_pdf (env : Env) (pdf_path : path) : M (list str) :=
  images ← lift (convert_from_path env pdf_path 200);
  extracted_text ← ocr_all images [];
  mret (strip <$> filter (fun line => strip line ≠ []) (split_on 10 extracted_text)).

(** [name in pdf_names] for the value of a cell and a list of strings. *)
Definition in_names (pdf_names : list str) (v : cell) : bool :=
  match v with
  | CStr name => bool_decide (name ∈ pdf_names)
  | _ => false
  end.

Definition missing_column_message : str :=
  lit "The Excel file must contain a 'Name' column.".

(** [validate_names(pdf_names, excel_path, output_path)]. *)
Definition validate_names (env : Env) (pdf_names : list str)
    (excel_path output_path : path) : M unit :=
  df ← lift (read_excel env excel_path);
  if negb (bool_decide (NAME ∈ df_columns df))
  then raise (ValueError missing_column_message)
  else
    let flags := (fun v => CBool (in_names pdf_names v)) <$> default [] (df_get NAME df) in
    write_excel env output_path (df_set FLAG flags df).

Definition main (env : Env) : M unit :=
  let pdf_path := Rel (lit "SUA/input.pdf") in
  let excel_path := Rel (lit "EXCEL/input.xlsx") in
  let output_path := Rel (lit "OUTPUT/output.xlsx") in
  pdf_names ← extract_names_from_pdf env pdf_path;
  validate_names env pdf_names excel_path output_path.

End TesseractAnalysis.

Import NameValidator.

(** ** Definitions used to state the properties *)

(** A word: a non-empty text without white space. *)
Definition word (w : str) : Prop := w ≠ [] ∧ Forall (fun c => isspace c = false) w.

(** The space that [rstrip] keeps in front of the words of a text whose runs
    of white space have been replaced, when the text begins with such a
    run. *)
Definition lead (in_run : bool) (t : str) : str :=
  match t with
  | c :: _ =>
      if isspace c && negb in_run && negb (bool_decide (split_ws t = [])) then [SPACE] else []
  | [] => []
  end.

(** The root logger lets warnings through. *)
Definition warn_enabled (w : World) : Prop := (level_rank (root_level w) ≤ 2)%nat.

(** Whether OCR of a page gave text. *)
Definition was_read (r : result str) : bool :=
  match r with Ok _ => true | Raise _ => false end.

(** The pages whose OCR either yields text or fails with [TesseractError]. *)
Definition readable_or_skipped (r : result str) : Prop :=
  match r with
  | Ok _ | Raise (TesseractError _ _) => True
  | Raise _ => False
  end.

(** OCR of one page as [extract_names] asks for it. *)
Definition ocr (cmd : str) (img : Image) : result str := img cmd (Some (lit "spa")).

Section statements.
Context {U : Unicode}.

(** The normaliser as the specification words it: (a) transliterate;
    (b) put a space for every character that is neither an ASCII letter nor
    white space; (c) collapse the runs of white space to one space and trim
    the edges, which leaves the words of the text separated by single
    spaces; (d) upper-case. *)
Definition normalize_spec (s : str) : str :=
  let a := unidecode s in
  let b := sub_non_letters a in
  let c := join_sp (split_ws b) in
  upper c.

(** What one page adds to the set of names. *)
Definition page_contribution (r : result str) : gset str :=
  match r with
  | Ok text => filter two_tokens (page_names text)
  | Raise _ => ∅
  end.

(** The flag of a row, from its name cell. *)
Definition flag_of (pdf_names : gset str) (v : cell) : cell :=
  CBool (bool_decide (normalize_name (str_of_cell v) ∈ pdf_names)).

(** The body of the [try] statement of [main]. *)
Definition pipeline (env : Env) (args : Args) : M unit :=
  pdf_names ← extract_names env (InDir PDF_DIR (pdf args)) (tesseract_cmd args) (dpi args);
  validate env (InDir EXCEL_DIR (excel args))
    (InDir OUTPUT_DIR (stem (excel args) ++ lit "_REVISADO.xlsx")) pdf_names.

End statements.

(** The two suffix tests of [main]. *)
Definition good_extensions (args : Args) : bool :=
  endswith (lower (pdf args)) (lit ".pdf") && endswith (lower (excel args)) (lit ".xlsx").

(** The world once [--debug] has been taken into account. *)
Definition configured (args : Args) (w : World) : World :=
  ((if debug args then set_root_level DEBUG else mret ()) w).1.

(** The exit status [main] gives the outcome of its [try] statement. *)
Definition exit_of (r : result unit) : Z :=
  match r with
  | Ok _ => 0
  | Raise e => if expected e then 1 else 2
  end%Z.

(** ** Sample documents and environments *)

(** A page that OCR reads as [text]. *)
Definition page (text : str) : Image := fun _ _ => Ok text.

(** A page on which tesseract exits with an error. *)
Definition unreadable_page : Image :=
  fun _ _ => Raise (TesseractError 1 (lit "Error opening data file")).

(** A page handed to pytesseract when the [tesseract] executable is not
    installed. *)
Definition no_tesseract_page : Image := fun _ _ => Raise TesseractNotFoundError.

(** An environment in which every file exists, the PDF has the pages
    [images], the spreadsheet holds [sheet] and writing succeeds. *)
Definition sample_env (images : list Image) (sheet : DataFrame) : Env := {|
  is_file := fun _ => true;
  convert_from_path := fun _ _ => Ok images;
  read_excel := fun _ => Ok sheet;
  mkdir_parents := fun _ => None;
  to_excel := fun _ _ => None
|}.

(** The world at start-up: [basicConfig(level=INFO)], nothing logged or
    written. *)
Definition fresh_world : World := {| root_level := INFO; emitted := []; written := [] |}.

Definition sample_args : Args := {|
  pdf := lit "sua.pdf"; excel := lit "lista.xlsx"; debug := false;
  tesseract_cmd := None; dpi := 300; pages := None
|}.

Definition roster : DataFrame :=
  [ (NAME_COLUMN, [CStr (lit "ana maria lopez"); CNaN; CInt 7]);
    (lit "Puesto", [CStr (lit "Guardia"); CStr (lit "Taquilla"); CNaN]) ].

(** A sheet that already has a column [Existe en SUA]. *)
Definition reviewed_roster : DataFrame :=
  [ (NAME_COLUMN, [CStr (lit "ana maria lopez")]); (FLAG_COLUMN, [CStr (lit "si")]) ].

(** A sheet that has a column [_NombreNormalizado] of its own. *)
Definition clashing_roster : DataFrame :=
  [ (NAME_COLUMN, [CStr (lit "ana maria lopez")]); (NORMALIZED_COLUMN, [CInt 7]) ].

(** A sheet without the name column of either program. *)
Definition unnamed_roster : DataFrame :=
  [ (lit "Nombre", [CStr (lit "ana maria lopez")]); (lit "Puesto", [CStr (lit "Guardia")]) ].

Definition legacy_roster : DataFrame :=
  [ (TesseractAnalysis.NAME, [CStr (lit "ana maria lopez"); CStr (lit "ANA MARIA LOPEZ")]) ].

(** Three pages, the second of which OCR cannot read. *)
Definition scan : list Image :=
  [ page (lit "ANA MARIA LOPEZ" ++ [10] ++ lit "MARIA"); unreadable_page;
    page (lit "Luis  Ruiz-Soto 123") ].

Definition legacy_scan : list Image :=
  [ page (lit "ANA MARIA LOPEZ" ++ [10] ++ lit "MARIA" ++ [10]) ].

(** The rasteriser is not installed. *)
Definition env_without_poppler : Env := {|
  is_file := fun _ => true;
  convert_from_path := fun _ _ => Raise PDFInfoNotInstalledError;
  read_excel := fun _ => Ok roster;
  mkdir_parents := fun _ => None;
  to_excel := fun _ _ => None
|}.

(** The PDF is not in its directory. *)
Definition env_without_pdf : Env := {|
  is_file := fun p => match p with InDir PDF_DIR _ => false | _ => true end;
  convert_from_path := fun _ _ => Ok scan;
  read_excel := fun _ => Ok roster;
  mkdir_parents := fun _ => None;
  to_excel := fun _ _ => None
|}.

(** Reading the spreadsheet raises an exception of another class. *)
Definition env_out_of_memory : Env := {|
  is_file := fun _ => true;
  convert_from_path := fun _ _ => Ok scan;
  read_excel := fun _ => Raise (OtherException "MemoryError");
  mkdir_parents := fun _ => None;
  to_excel := fun _ _ => None
|}.

(** ** Definitions used to state further properties *)

(** The same namespace with another value for [--debug]. *)
Definition with_debug (b : bool) (a : Args) : Args :=
  {| pdf := pdf a; excel := excel a; debug := b;
     tesseract_cmd := tesseract_cmd a; dpi := dpi a; pages := pages a |}.

(** A computation whose result and whose files do not depend on the world it
    starts from: it returns [r] and writes [files], whatever was logged or
    written before and whatever the level of the root logger. *)
Definition oblivious {A} (m : M A) (r : result A) (files : list (path * DataFrame)) : Prop :=
  ∀ w, (m w).2 = r ∧ written (m w).1 = written w ++ files.

(** The columns of a frame that [validate] neither sets nor drops. *)
Definition other_columns (df : DataFrame) : DataFrame :=
  filter (fun kv => kv.1 ≠ FLAG_COLUMN ∧ kv.1 ≠ NORMALIZED_COLUMN) df.

(** OCR of one page as [extract_names_from_pdf] asks for it. *)
Definition legacy_ocr (img : Image) : result str :=
  img TesseractAnalysis.TESSERACT_CMD None.

(** A sheet of the earlier script with a missing and a numeric name. *)
Definition mixed_legacy_roster : DataFrame :=
  [ (lit "Id", [CInt 1; CInt 2; CInt 3]);
    (TesseractAnalysis.NAME, [CStr (lit "MARIA"); CNaN; CInt 7]) ].

(** The PDF cannot be rasterised for a reason of its own. *)
Definition env_broken_pdf : Env := {|
  is_file := fun _ => true;
  convert_from_path := fun _ _ => Raise (OtherException "PDFPageCountError");
  read_excel := fun _ => Ok roster;
  mkdir_parents := fun _ => None;
  to_excel := fun _ _ => None
|}.

(** The output directory cannot be written. *)
Definition env_read_only : Env := {|
  is_file := fun _ => true;
  convert_from_path := fun _ _ => Ok scan;
  read_excel := fun _ => Ok roster;
  mkdir_parents := fun _ => None;
  to_excel := fun _ _ => Some (OtherException "PermissionError")
|}.

(** The level of the root logger during a run of [main]. *)
Definition level_in_force (args : Args) (w : World) : level :=
  if debug args then DEBUG else root_level w.

(** A computation that leaves the level of the root logger as it is and only
    appends to the log, each record at or above that level. *)
Definition orderly {A} (m : M A) : Prop :=
  ∀ w, root_level (m w).1 = root_level w ∧
       ∃ recs, emitted (m w).1 = emitted w ++ recs ∧
               Forall (fun r => (level_rank (root_level w) ≤ level_rank (record_level r))%nat)
                 recs.

(** A sheet of the earlier script whose second name has a space in front. *)
Definition padded_legacy_roster : DataFrame :=
  [ (TesseractAnalysis.NAME, [CStr (lit "MARIA"); CStr (lit " MARIA"); CStr []]) ].

(** A printable ASCII character that [repr] shows as it is inside single
    quotes: neither the quote nor the backslash. *)
Definition plain_char (c : N) : Prop := 32 ≤ c ∧ c < 127 ∧ c ≠ 39 ∧ c ≠ 92.

(** ** Facts about the string functions *)

Ltac chars :=
  unfold is_ascii_letter, is_ascii_upper, is_ascii_lower, isspace, is_linebreak,
    upper_char, lower_char, SPACE in *;
  repeat match goal with
         | |- context [if ?b then _ else _] => destruct b eqn:?
         | H : context [if ?b then _ else _] |- _ => destruct b eqn:?
         end;
  repeat (progress
    (rewrite ?andb_true_iff, ?orb_true_iff, ?orb_false_iff, ?andb_false_iff,
       ?N.leb_le, ?N.leb_gt, ?N.eqb_eq, ?N.eqb_neq, ?N.ltb_lt, ?N.ltb_ge in *));
  try lia.

Lemma letter_not_space c : is_ascii_letter c = true → isspace c = false.
Proof. intros H. chars. Qed.

Lemma upper_char_space c : isspace (upper_char c) = isspace c.
Proof.
  unfold upper_char. destruct (is_ascii_lower c) eqn:E; [|done].
  assert (isspace c = false) as -> by chars.
  assert (65 ≤ c - 32 ≤ 90) by chars. chars.
Qed.

Lemma upper_char_idemp c : upper_char (upper_char c) = upper_char c.
Proof.
  unfold upper_char. destruct (is_ascii_lower c) eqn:E.
  - assert (is_ascii_lower (c - 32) = false) as -> by chars. done.
  - by rewrite E.
Qed.

(** ** Words and white space *)

Lemma split_ws_cons_nonspace c t :
  isspace c = false → ∃ w ws, split_ws (c :: t) = (c :: w) :: ws.
Proof.
  intros Hc. simpl. rewrite Hc. destruct t as [|d t]; [by eexists _, _|].
  destruct (isspace d); [by eexists _, _|].
  destruct (split_ws (d :: t)); by eexists _, _.
Qed.

Lemma split_ws_words t : Forall word (split_ws t).
Proof.
  induction t as [|c t IH]; simpl; [constructor|].
  destruct (isspace c) eqn:Hc; [done|].
  destruct t as [|d t].
  { repeat constructor; [done|]. by repeat constructor. }
  destruct (isspace d) eqn:Hd.
  { constructor; [|done]. split; [done|]. by repeat constructor. }
  destruct (split_ws (d :: t)) as [|w ws] eqn:E.
  { repeat constructor; [done|]. by repeat constructor. }
  inversion IH as [|? ? [Hw1 Hw2] Hws]; subst.
  constructor; [|done]. split; [done|]. by constructor.
Qed.

Lemma split_ws_nil t : split_ws t = [] ↔ Forall (fun c => isspace c = true) t.
Proof.
  induction t as [|c t IH]; [by split; [constructor|]|].
  split.
  - intros H. destruct (isspace c) eqn:Hc.
    + simpl in H. rewrite Hc in H. constructor; [done|]. by apply IH.
    + destruct (split_ws_cons_nonspace c t Hc) as (w & ws & E). congruence.
  - intros H. inversion H as [|? ? Hc Ht]; subst. simpl. rewrite Hc. by apply IH.
Qed.

Lemma join_sp_cons c w ws : join_sp ((c :: w) :: ws) = c :: join_sp (w :: ws).
Proof. by destruct ws. Qed.

Lemma join_sp_nil W : Forall word W → join_sp W = [] → W = [].
Proof.
  intros HW. destruct HW as [|w ws [Hne _] _]; [done|].
  destruct w as [|c w]; [done|]. by rewrite join_sp_cons.
Qed.

Lemma rstrip_cons_nonspace c t : isspace c = false → rstrip (c :: t) = c :: rstrip t.
Proof. intros Hc. simpl. rewrite Hc. by destruct (rstrip t). Qed.

Lemma split_ws_cons2 c d t :
  split_ws (c :: d :: t) =
  if isspace c then split_ws (d :: t)
  else if isspace d then [c] :: split_ws (d :: t)
  else match split_ws (d :: t) with
       | w :: ws => (c :: w) :: ws
       | [] => [[c]]
       end.
Proof. reflexivity. Qed.

Lemma lead_true t : lead true t = [].
Proof. destruct t; [done|]. simpl. by rewrite andb_false_r. Qed.

Lemma rstrip_squash b t :
  rstrip (sub_ws_runs_from b t) = lead b t ++ join_sp (split_ws t).
Proof.
  revert b. induction t as [|c t IH]; intros b; [done|].
  destruct (isspace c) eqn:Hc.
  - cbn [sub_ws_runs_from lead]. rewrite Hc.
    assert (split_ws (c :: t) = split_ws t) as -> by (simpl; by rewrite Hc).
    destruct b; simpl.
    + by rewrite IH, lead_true.
    + rewrite IH, lead_true.
      simpl. case_bool_decide as E.
      * by rewrite E.
      * simpl. destruct (join_sp (split_ws t)) eqn:EJ; [|done].
        apply join_sp_nil in EJ; [done|apply split_ws_words].
  - cbn [sub_ws_runs_from lead]. rewrite Hc. simpl andb. cbn iota.
    rewrite rstrip_cons_nonspace, IH by done.
    destruct t as [|d t]; [simpl; by rewrite Hc|].
    rewrite split_ws_cons2, Hc. unfold lead.
    destruct (isspace d) eqn:Hd.
    + remember (split_ws (d :: t)) as W eqn:EW. simpl andb.
      case_bool_decide as E; [by rewrite E|]. by destruct W.
    + destruct (split_ws_cons_nonspace d t Hd) as (w & ws & E). rewrite E.
      simpl. by destruct ws.
Qed.

Lemma lstrip_squash b t :
  lstrip (sub_ws_runs_from b t) = sub_ws_runs_from false (lstrip t).
Proof.
  revert b. induction t as [|c t IH]; intros b; [done|].
  simpl. destruct (isspace c) eqn:Hc.
  - destruct b; simpl; by rewrite IH.
  - simpl. by rewrite Hc.
Qed.

Lemma split_ws_lstrip t : split_ws (lstrip t) = split_ws t.
Proof.
  induction t as [|c t IH]; [done|]. simpl lstrip.
  destruct (isspace c) eqn:Hc; [|done]. rewrite IH. simpl. by rewrite Hc.
Qed.

Lemma lead_lstrip t : lead false (lstrip t) = [].
Proof.
  induction t as [|c t IH]; [done|]. simpl lstrip.
  destruct (isspace c) eqn:Hc; [done|]. simpl. by rewrite Hc.
Qed.

Lemma squash_words t : strip (sub_ws_runs t) = join_sp (split_ws t).
Proof.
  unfold strip, sub_ws_runs.
  by rewrite lstrip_squash, rstrip_squash, lead_lstrip, split_ws_lstrip.
Qed.

Lemma split_ws_word_sep w rest : word w → split_ws (w ++ SPACE :: rest) = w :: split_ws rest.
Proof.
  intros [Hne Hw]. induction Hw as [|c w Hc Hw IH]; [done|].
  destruct w as [|d w].
  - simpl. by rewrite Hc.
  - specialize (IH ltac:(done)). inversion Hw as [|? ? Hd _]; subst.
    change (split_ws ((c :: d :: w) ++ SPACE :: rest))
      with (if isspace c then split_ws ((d :: w) ++ SPACE :: rest)
            else if isspace d then [c] :: split_ws ((d :: w) ++ SPACE :: rest)
            else match split_ws ((d :: w) ++ SPACE :: rest) with
                 | w' :: ws => (c :: w') :: ws
                 | [] => [[c]]
                 end).
    by rewrite Hc, Hd, IH.
Qed.

Lemma split_ws_word w : word w → split_ws w = [w].
Proof.
  intros [Hne Hw]. induction Hw as [|c w Hc Hw IH]; [done|].
  destruct w as [|d w].
  - simpl. by rewrite Hc.
  - specialize (IH ltac:(done)). inversion Hw as [|? ? Hd _]; subst.
    change (split_ws (c :: d :: w))
      with (if isspace c then split_ws (d :: w)
            else if isspace d then [c] :: split_ws (d :: w)
            else match split_ws (d :: w) with
                 | w' :: ws => (c :: w') :: ws
                 | [] => [[c]]
                 end).
    by rewrite Hc, Hd, IH.
Qed.

Lemma split_ws_join W : Forall word W → split_ws (join_sp W) = W.
Proof.
  induction 1 as [|w W Hw HW IH]; [done|].
  destruct W as [|w2 W]; [by apply split_ws_word|].
  change (join_sp (w :: w2 :: W)) with (w ++ SPACE :: join_sp (w2 :: W)).
  by rewrite split_ws_word_sep, IH.
Qed.

(** ** The normaliser *)

Lemma split_ws_Forall (P : N → Prop) t : Forall P t → Forall (Forall P) (split_ws t).
Proof.
  induction 1 as [|c t Hc Ht IH]; [constructor|].
  destruct t as [|d t].
  { simpl. destruct (isspace c); repeat constructor; done. }
  rewrite split_ws_cons2.
  destruct (isspace c); [done|].
  destruct (isspace d); [by repeat constructor|].
  destruct (split_ws (d :: t)) as [|w ws]; [by repeat constructor|].
  inversion IH; subst. by repeat constructor.
Qed.

Lemma join_sp_Forall (P : N → Prop) W :
  P SPACE → Forall (Forall P) W → Forall P (join_sp W).
Proof.
  intros HP. induction 1 as [|w W Hw HW IH]; [constructor|].
  destruct W as [|w2 W]; [done|].
  change (join_sp (w :: w2 :: W)) with (w ++ SPACE :: join_sp (w2 :: W)).
  apply Forall_app. split; [done|]. by constructor.
Qed.

Lemma upper_join_sp W : upper (join_sp W) = join_sp (upper <$> W).
Proof.
  induction W as [|w W IH]; [done|].
  destruct W as [|w2 W]; [done|].
  change (join_sp (w :: w2 :: W)) with (w ++ SPACE :: join_sp (w2 :: W)).
  unfold upper in *. rewrite fmap_app, fmap_cons, IH. done.
Qed.

Lemma upper_word w : word w → word (upper w).
Proof.
  intros [Hne Hw]. split.
  - destruct w; [done|]. done.
  - unfold upper. apply Forall_fmap. eapply Forall_impl; [exact Hw|].
    intros c Hc. simpl. by rewrite upper_char_space.
Qed.

Lemma sub_non_letters_fixed t :
  Forall (fun c => is_ascii_letter c = true ∨ c = SPACE) t → sub_non_letters t = t.
Proof.
  induction 1 as [|c t Hc Ht IH]; [done|].
  unfold sub_non_letters in *. rewrite fmap_cons, IH. f_equal.
  destruct Hc as [Hc| ->]; [by rewrite Hc|done].
Qed.

Lemma sub_non_letters_chars t :
  Forall (fun c => is_ascii_letter c = true ∨ isspace c = true) (sub_non_letters t).
Proof.
  unfold sub_non_letters. apply Forall_fmap, Forall_true. intros c. simpl.
  destruct (is_ascii_letter c) eqn:Hl; [by left|].
  destruct (isspace c) eqn:Hs; simpl; by right.
Qed.

Lemma sub_non_letters_all_space t :
  Forall (fun c => isspace c = true) (sub_non_letters t) ↔
  Forall (fun c => is_ascii_letter c = false) t.
Proof.
  unfold sub_non_letters. rewrite Forall_fmap. apply Forall_proper; [|done].
  intros c. simpl. destruct (is_ascii_letter c) eqn:Hl; simpl.
  - rewrite (letter_not_space c Hl). done.
  - destruct (isspace c) eqn:Hs; simpl; [by rewrite Hs|done].
Qed.

(** The words of a cleaned text are letters only. *)
Lemma clean_words t :
  Forall (fun w => word w ∧ Forall (fun c => is_ascii_letter c = true) w)
    (split_ws (sub_non_letters t)).
Proof.
  pose proof (split_ws_words (sub_non_letters t)) as H1.
  pose proof (split_ws_Forall _ _ (sub_non_letters_chars t)) as H2.
  rewrite Forall_forall in *. intros w Hw. split; [by apply H1|].
  destruct (H1 w Hw) as [_ Hns]. specialize (H2 w Hw).
  rewrite Forall_forall in *. intros c Hc.
  destruct (H2 c Hc) as [?|Hs]; [done|]. rewrite (Hns c Hc) in Hs. done.
Qed.

Section normaliser.
Context {U : Unicode}.

Lemma unidecode_ascii s : Forall (fun c => c < 128) s → unidecode s = s.
Proof.
  induction 1 as [|c s Hc Hs IH]; [done|].
  unfold unidecode in *. rewrite fmap_cons. simpl. rewrite IH.
  apply N.ltb_lt in Hc. by rewrite Hc.
Qed.

Lemma normalize_name_words s :
  normalize_name s = join_sp (upper <$> split_ws (sub_non_letters (unidecode s))).
Proof. unfold normalize_name. by rewrite squash_words, upper_join_sp. Qed.

Lemma normalize_name_refines s : normalize_name s = normalize_spec s.
Proof. unfold normalize_name, normalize_spec. by rewrite squash_words. Qed.

(** The normal form is made of words of capital letters. *)
Lemma normal_form_words s :
  Forall (fun w => word w ∧ Forall (fun c => is_ascii_upper c = true) w)
    (upper <$> split_ws (sub_non_letters (unidecode s))).
Proof.
  apply Forall_fmap. eapply Forall_impl; [apply clean_words|].
  intros w [Hw Hl]. simpl. split; [by apply upper_word|].
  unfold upper. apply Forall_fmap. eapply Forall_impl; [exact Hl|].
  intros c Hc. simpl. unfold upper_char. destruct (is_ascii_lower c) eqn:E; chars.
Qed.

Lemma normalize_words_fixed W :
  Forall (fun w => word w ∧ Forall (fun c => is_ascii_upper c = true) w) W →
  normalize_name (join_sp W) = join_sp W.
Proof.
  intros HW.
  assert (Forall (Forall (fun c => is_ascii_upper c = true)) W) as Hup
    by (eapply Forall_impl; [exact HW|]; by intros ? [_ ?]).
  assert (Forall word W) as Hwd
    by (eapply Forall_impl; [exact HW|]; by intros ? [? _]).
  rewrite normalize_name_words.
  rewrite unidecode_ascii.
  2:{ apply join_sp_Forall; [done|]. eapply Forall_impl; [exact Hup|].
      intros w Hw. eapply Forall_impl; [exact Hw|]. intros c Hc. chars. }
  rewrite sub_non_letters_fixed.
  2:{ apply (join_sp_Forall (fun c => is_ascii_letter c = true ∨ c = SPACE)); [by right|].
      eapply Forall_impl; [exact Hup|].
      intros w Hw. eapply Forall_impl; [exact Hw|]. intros c Hc. left.
      unfold is_ascii_letter. by rewrite Hc. }
  rewrite split_ws_join by done.
  f_equal. rewrite <- (list_fmap_id W) at 2. apply Forall_fmap_ext.
  eapply Forall_impl; [exact Hup|]. intros w Hw. simpl.
  unfold upper. rewrite <- (list_fmap_id w) at 2. apply Forall_fmap_ext.
  eapply Forall_impl; [exact Hw|]. intros c Hc. simpl.
  unfold upper_char. assert (is_ascii_lower c = false) as -> by chars. done.
Qed.

Lemma normalize_name_empty s :
  normalize_name s = [] ↔ Forall (fun c => is_ascii_letter c = false) (unidecode s).
Proof.
  rewrite normalize_name_refines. unfold normalize_spec, upper.
  rewrite <- sub_non_letters_all_space, <- split_ws_nil. split.
  - intros H. apply fmap_nil_inv in H. apply join_sp_nil in H; [done|apply split_ws_words].
  - by intros ->.
Qed.

End normaliser.

(** ** The loop over the pages *)

Lemma bind_run {A B} (m : M A) (f : A → M B) w :
  (m ≫= f) w = match m w with
               | (w', Ok a) => f a w'
               | (w', Raise e) => (w', Raise e)
               end.
Proof. reflexivity. Qed.

(** A logging call returns, keeps the level and the files, and only appends
    to the records. *)
Lemma log_run r w :
  ∃ w', log r w = (w', Ok ()) ∧ root_level w' = root_level w ∧
        written w' = written w ∧
        emitted w' = emitted w ++
          (if decide (level_rank (root_level w) ≤ level_rank (record_level r))%nat
           then [r] else []).
Proof.
  unfold log. case_decide; eexists; (split; [done|]); simpl; [done|].
  by rewrite app_nil_r.
Qed.

Section ocr_loop.
Context {U : Unicode}.

Lemma page_contribution_two_tokens r n : n ∈ page_contribution r → two_tokens n.
Proof.
  destruct r as [text|e]; simpl; [|by intros ?%not_elem_of_empty].
  intros H. by apply elem_of_filter in H as [? _].
Qed.

(** The loop over the pages, when every page is read or skipped. *)
Lemma ocr_pages_run cmd images : ∀ i names w,
  Forall (fun img => readable_or_skipped (ocr cmd img)) images →
  ∃ w' extra,
    ocr_pages cmd i images names w =
      (w', Ok (names ∪ ⋃ (page_contribution ∘ ocr cmd <$> images))) ∧
    root_level w' = root_level w ∧ written w' = written w ∧
    emitted w' = emitted w ++ extra ∧
    (warn_enabled w → ∀ k img status msg,
       images !! k = Some img → ocr cmd img = Raise (TesseractError status msg) →
       LogOcrFailed (i + k) (TesseractError status msg) ∈ extra).
Proof.
  induction images as [|img images IH]; intros i names w Hall.
  { exists w, []. simpl. rewrite (right_id_L ∅ (∪)). split; [done|].
    rewrite app_nil_r. repeat split; done. }
  inversion Hall as [|? ? Himg Hrest]; subst.
  cbn [ocr_pages]. unfold ocr in Himg. fold (ocr cmd img) in *.
  change (img cmd (Some (lit "spa"))) with (ocr cmd img).
  destruct (ocr cmd img) as [text|e] eqn:E.
  - rewrite bind_run.
    destruct (log_run (LogPageNames i (size (page_names text))) w)
      as (w1 & -> & Hl1 & Hw1 & He1).
    destruct (IH (S i) (names ∪ filter two_tokens (page_names text)) w1 Hrest)
      as (w' & extra & -> & Hl & Hw & He & Hwarn).
    eexists w', _. split.
    { rewrite fmap_cons. simpl. rewrite E. simpl. by rewrite (assoc_L (∪)). }
    rewrite Hl, Hw, He, He1, <- app_assoc. repeat split; try done.
    intros Hen [|k] img' st msg Hk Hocr; simpl in Hk.
    { injection Hk as <-. rewrite E in Hocr. discriminate. }
    apply elem_of_app. right. replace (i + S k)%nat with (S i + k)%nat by lia.
    eapply Hwarn; [|done..]. unfold warn_enabled in *. by rewrite Hl1.
  - destruct e; try done.
    rewrite bind_run.
    destruct (log_run (LogOcrFailed i (TesseractError status msg)) w)
      as (w1 & -> & Hl1 & Hw1 & He1).
    destruct (IH (S i) names w1 Hrest) as (w' & extra & -> & Hl & Hw & He & Hwarn).
    eexists w', _. split.
    { rewrite fmap_cons. simpl. rewrite E. simpl. by rewrite (left_id_L ∅ (∪)). }
    rewrite Hl, Hw, He, He1, <- app_assoc. repeat split; try done.
    intros Hen [|k] img' st msg' Hk Hocr; simpl in Hk.
    + injection Hk as <-. rewrite E in Hocr. injection Hocr as <- <-.
      rewrite Nat.add_0_r. apply elem_of_app. left.
      unfold warn_enabled in Hen. rewrite decide_True by done. apply list_elem_of_here.
    + apply elem_of_app. right. replace (i + S k)%nat with (S i + k)%nat by lia.
      eapply Hwarn; [|done..]. unfold warn_enabled in *. by rewrite Hl1.
Qed.

(** Whenever the loop returns, it returns the union of the contributions. *)
Lemma ocr_pages_inv cmd images : ∀ i names w w' r,
  ocr_pages cmd i images names w = (w', Ok r) →
  r = names ∪ ⋃ (page_contribution ∘ ocr cmd <$> images).
Proof.
  induction images as [|img images IH]; intros i names w w' r Hrun.
  { simpl in Hrun. injection Hrun as _ <-. simpl. by rewrite (right_id_L ∅ (∪)). }
  cbn [ocr_pages] in Hrun.
  change (img cmd (Some (lit "spa"))) with (ocr cmd img) in Hrun.
  rewrite fmap_cons. simpl. 
  destruct (ocr cmd img) as [text|e] eqn:E.
  - rewrite bind_run in Hrun.
    destruct (log_run (LogPageNames i (size (page_names text))) w) as (w1 & Hlog & _).
    rewrite Hlog in Hrun. apply IH in Hrun. rewrite Hrun. simpl.
    by rewrite (assoc_L (∪)).
  - destruct e; try done.
    rewrite bind_run in Hrun.
    destruct (log_run (LogOcrFailed i (TesseractError status msg)) w) as (w1 & Hlog & _).
    rewrite Hlog in Hrun. apply IH in Hrun. rewrite Hrun. simpl.
    by rewrite (left_id_L ∅ (∪)).
Qed.

End ocr_loop.

(** ** Frames *)

Lemma df_get_set_eq k v df : df_get k (df_set k v df) = Some v.
Proof.
  induction df as [|[k' v'] df IH]; simpl.
  - by rewrite decide_True.
  - case_decide; simpl; [by rewrite decide_True|]. by rewrite decide_False.
Qed.

Lemma df_get_set_ne k k' v df : k ≠ k' → df_get k' (df_set k v df) = df_get k' df.
Proof.
  intros Hne. induction df as [|[k2 v2] df IH]; simpl.
  - by rewrite decide_False.
  - case_decide; simpl; subst.
    + by rewrite !decide_False.
    + case_decide; [done|]. exact IH.
Qed.

Lemma df_get_drop_ne k k' df : k ≠ k' → df_get k' (df_drop k df) = df_get k' df.
Proof.
  intros Hne. unfold df_drop. induction df as [|[k2 v2] df IH]; [done|].
  rewrite filter_cons. simpl. case_decide; simpl.
  - case_decide; [done|]. exact IH.
  - rewrite IH. case_decide; [|done]. subst. tauto.
Qed.

Lemma df_set_fresh k v df : k ∉ df_columns df → df_set k v df = df ++ [(k, v)].
Proof.
  unfold df_columns. induction df as [|[k' v'] df IH]; simpl; [done|].
  intros Hk. apply not_elem_of_cons in Hk as [Hne Hk].
  rewrite decide_False by done. by rewrite IH.
Qed.

Lemma df_drop_fresh k df : k ∉ df_columns df → df_drop k df = df.
Proof.
  unfold df_columns, df_drop. induction df as [|[k' v'] df IH]; simpl; [done|].
  intros Hk. apply not_elem_of_cons in Hk as [Hne Hk].
  rewrite filter_cons. simpl. rewrite decide_True by done. by rewrite IH.
Qed.

Lemma df_columns_set k v df :
  k ∈ df_columns df → df_columns (df_set k v df) = df_columns df.
Proof.
  unfold df_columns. induction df as [|[k' v'] df IH]; simpl.
  - by intros ?%elem_of_nil.
  - intros Hk. case_decide; simpl; [by subst|].
    apply elem_of_cons in Hk as [->|Hk]; [done|]. f_equal. by apply IH.
Qed.

Lemma df_set_app k v a b :
  df_set k v (a ++ b) =
  if bool_decide (k ∈ df_columns a) then df_set k v a ++ b else a ++ df_set k v b.
Proof.
  unfold df_columns. induction a as [|[k' v'] a IH].
  - rewrite bool_decide_false; [done|apply not_elem_of_nil].
  - rewrite fmap_cons. cbn [app df_set fst]. destruct (decide (k' = k)); subst.
    + rewrite bool_decide_true; [done|apply list_elem_of_here].
    + rewrite IH. case_bool_decide as E.
      * rewrite bool_decide_true; [done|by apply list_elem_of_further].
      * rewrite bool_decide_false; [done|].
        intros [?|?]%elem_of_cons; [congruence|done].
Qed.

(** Other columns keep their place and their cells under [df_set]. *)
Lemma df_set_other k v df i k' v' :
  k' ≠ k → df !! i = Some (k', v') → df_set k v df !! i = Some (k', v').
Proof.
  intros Hne. revert i. induction df as [|[k2 v2] df IH]; intros i; [done|].
  simpl. destruct i as [|i]; simpl.
  - intros [= -> ->]. by rewrite decide_False.
  - intros H. case_decide; simpl; [done|]. by apply IH.
Qed.

Lemma names_distinct :
  NAME_COLUMN ≠ NORMALIZED_COLUMN ∧ NAME_COLUMN ≠ FLAG_COLUMN ∧
  NORMALIZED_COLUMN ≠ FLAG_COLUMN.
Proof. by vm_compute. Qed.

Section frames.
Context {U : Unicode}.

Lemma annotate_flags pdf_names df :
  df_get FLAG_COLUMN (annotate pdf_names df) =
  Some (flag_of pdf_names <$> default [] (df_get NAME_COLUMN df)).
Proof.
  destruct names_distinct as (H1 & H2 & H3).
  unfold annotate. rewrite df_get_drop_ne by done.
  rewrite df_get_set_eq. f_equal.
  rewrite df_get_set_eq. simpl. rewrite <- list_fmap_compose. done.
Qed.

(** Without a column of the scratch label in the input, the output is the
    input with the flag column set. *)
Lemma annotate_set pdf_names df :
  NORMALIZED_COLUMN ∉ df_columns df →
  annotate pdf_names df =
  df_set FLAG_COLUMN (flag_of pdf_names <$> default [] (df_get NAME_COLUMN df)) df.
Proof.
  destruct names_distinct as (H1 & H2 & H3). intros Hn.
  unfold annotate. rewrite df_get_set_eq. simpl. rewrite <- list_fmap_compose.
  change (_ ∘ _) with (flag_of pdf_names).
  set (flags := flag_of pdf_names <$> _).
  rewrite (df_set_fresh NORMALIZED_COLUMN) by done.
  rewrite df_set_app. case_bool_decide as E.
  - unfold df_drop. rewrite filter_app. 
    fold (df_drop NORMALIZED_COLUMN (df_set FLAG_COLUMN flags df)).
    rewrite df_drop_fresh by (by rewrite df_columns_set).
    rewrite filter_cons. simpl. by rewrite filter_nil, app_nil_r.
  - rewrite (df_set_fresh FLAG_COLUMN _ df) by done.
    unfold df_drop. rewrite filter_app.
    fold (df_drop NORMALIZED_COLUMN df). rewrite df_drop_fresh by done.
    f_equal.
Qed.

End frames.

(** ** Extractor, matcher and driver, case by case *)

Section runs.
Context {U : Unicode}.

(** *** The extractor *)

Lemma extract_names_missing env p tc d w :
  is_file env p = false →
  extract_names env p tc d w = (w, Raise (PdfExtractionError (PdfNotFound p))).
Proof. intros H. unfold extract_names. by rewrite H. Qed.

Lemma extract_names_convert_error env p tc d w e :
  is_file env p = true → convert_from_path env p d = Raise e →
  ∃ w', extract_names env p tc d w =
          (w', Raise (PdfExtractionError
                        match e with
                        | PDFInfoNotInstalledError => PopplerNotInstalled
                        | _ => ConversionFailed
                        end)) ∧
        written w' = written w.
Proof.
  intros Hf Hc. unfold extract_names. rewrite Hf. cbn [negb].
  rewrite bind_run. unfold try_except. rewrite bind_run.
  destruct (log_run (LogConverting p d) w) as (w1 & -> & _ & Hw & _).
  unfold lift. rewrite Hc. exists w1. split; [by destruct e|done].
Qed.

Lemma extract_names_run env p tc d w images :
  is_file env p = true → convert_from_path env p d = Ok images →
  Forall (fun img => readable_or_skipped (ocr (effective_cmd tc) img)) images →
  ∃ w', extract_names env p tc d w =
          (w', Ok (⋃ (page_contribution ∘ ocr (effective_cmd tc) <$> images))) ∧
        written w' = written w ∧ root_level w' = root_level w ∧
        (warn_enabled w → ∀ k img status msg,
           images !! k = Some img →
           ocr (effective_cmd tc) img = Raise (TesseractError status msg) →
           LogOcrFailed (S k) (TesseractError status msg) ∈ emitted w').
Proof.
  intros Hf Hc Hall. unfold extract_names. rewrite Hf. cbn [negb].
  rewrite bind_run. unfold try_except. rewrite bind_run.
  destruct (log_run (LogConverting p d) w) as (w1 & -> & Hl1 & Hw1 & He1).
  unfold lift. rewrite Hc. rewrite bind_run.
  destruct (ocr_pages_run (effective_cmd tc) images 1 ∅ w1 Hall)
    as (w2 & extra & -> & Hl2 & Hw2 & He2 & Hwarn).
  rewrite bind_run. rewrite (left_id_L ∅ (∪)).
  destruct (log_run (LogTotalNames (size (⋃ (page_contribution ∘ ocr (effective_cmd tc) <$> images)))) w2)
    as (w3 & -> & Hl3 & Hw3 & He3).
  exists w3. split; [done|]. split; [congruence|]. split; [congruence|].
  intros Hen k img st msg Hk Hocr. rewrite He3, He2.
  apply elem_of_app. left. apply elem_of_app. right.
  assert (warn_enabled w1) as Hen1 by (unfold warn_enabled in *; by rewrite Hl1).
  exact (Hwarn Hen1 k img st msg Hk Hocr).
Qed.

Lemma extract_names_inv env p tc d w w' names :
  extract_names env p tc d w = (w', Ok names) →
  ∃ images, is_file env p = true ∧ convert_from_path env p d = Ok images ∧
            names = ⋃ (page_contribution ∘ ocr (effective_cmd tc) <$> images).
Proof.
  unfold extract_names. destruct (is_file env p); cbn [negb]; [|done].
  rewrite bind_run. unfold try_except. rewrite bind_run.
  destruct (log_run (LogConverting p d) w) as (w1 & -> & _).
  unfold lift. destruct (convert_from_path env p d) as [images|e]; [|by destruct e].
  rewrite bind_run.
  destruct (ocr_pages (effective_cmd tc) 1 images ∅ w1) as [w2 [r|e]] eqn:E; [|done].
  apply ocr_pages_inv in E. rewrite bind_run.
  destruct (log_run (LogTotalNames (size r)) w2) as (w3 & -> & _).
  intros [= <- <-]. exists images. rewrite (left_id_L ∅ (∪)) in E. done.
Qed.

(** A page whose OCR raises anything but [TesseractError] ends the loop. *)
Lemma ocr_pages_raise cmd pre img post e : ∀ i names w,
  Forall (fun img => readable_or_skipped (ocr cmd img)) pre →
  ocr cmd img = Raise e → ¬ readable_or_skipped (Raise e) →
  ∃ w', ocr_pages cmd i (pre ++ img :: post) names w = (w', Raise e) ∧
        written w' = written w.
Proof.
  induction pre as [|img0 pre IH]; intros i names w Hall Hocr He.
  { exists w. cbn [app ocr_pages].
    change (img cmd (Some (lit "spa"))) with (ocr cmd img). rewrite Hocr.
    split; [|done]. by destruct e. }
  inversion Hall as [|? ? H0 Hrest]; subst. cbn [app ocr_pages].
  change (img0 cmd (Some (lit "spa"))) with (ocr cmd img0).
  destruct (ocr cmd img0) as [text|e0] eqn:E0.
  - rewrite bind_run.
    destruct (log_run (LogPageNames i (size (page_names text))) w) as (w1 & -> & _ & Hw1 & _).
    destruct (IH (S i) (names ∪ filter two_tokens (page_names text)) w1 Hrest Hocr He)
      as (w' & -> & Hw). exists w'. split; [done|congruence].
  - destruct e0; try done. rewrite bind_run.
    destruct (log_run (LogOcrFailed i (TesseractError status msg)) w) as (w1 & -> & _ & Hw1 & _).
    destruct (IH (S i) names w1 Hrest Hocr He) as (w' & -> & Hw).
    exists w'. split; [done|congruence].
Qed.

Lemma extract_names_ocr_raise env p tc d w pre img post e :
  is_file env p = true → convert_from_path env p d = Ok (pre ++ img :: post) →
  Forall (fun img => readable_or_skipped (ocr (effective_cmd tc) img)) pre →
  ocr (effective_cmd tc) img = Raise e → ¬ readable_or_skipped (Raise e) →
  ∃ w', extract_names env p tc d w = (w', Raise e) ∧ written w' = written w.
Proof.
  intros Hf Hc Hall Hocr He. unfold extract_names. rewrite Hf. cbn [negb].
  rewrite bind_run. unfold try_except. rewrite bind_run.
  destruct (log_run (LogConverting p d) w) as (w1 & -> & _ & Hw1 & _).
  unfold lift. rewrite Hc. rewrite bind_run.
  destruct (ocr_pages_raise _ pre img post e 1 ∅ w1 Hall Hocr He) as (w2 & -> & Hw2).
  exists w2. split; [done|congruence].
Qed.

(** *** The matcher *)

Lemma make_parents_run env p w :
  make_parents env p w =
  match mkdir_parents env p with
  | Some e => (w, Raise e)
  | None => (w, Ok ())
  end.
Proof. unfold make_parents. by destruct (mkdir_parents env p). Qed.

Lemma validate_excel_missing env ep op names w :
  is_file env ep = false →
  validate env ep op names w = (w, Raise (FileNotFoundError ep)).
Proof. intros H. unfold validate. by rewrite H. Qed.

Lemma validate_read_error env ep op names w e :
  is_file env ep = true → read_excel env ep = Raise e →
  ∃ w', validate env ep op names w = (w', Raise e) ∧ written w' = written w.
Proof.
  intros Hf Hr. unfold validate. rewrite Hf. cbn [negb].
  rewrite bind_run. unfold try_except, lift. rewrite Hr. rewrite bind_run.
  destruct (log_run (LogReadError e) w) as (w1 & -> & _ & Hw & _).
  by exists w1.
Qed.

Lemma validate_missing_column env ep op names w df :
  is_file env ep = true → read_excel env ep = Ok df →
  NAME_COLUMN ∉ df_columns df →
  validate env ep op names w = (w, Raise (KeyError (missing_column_message df))).
Proof.
  intros Hf Hr Hc. unfold validate. rewrite Hf. cbn [negb].
  rewrite bind_run. unfold try_except, lift. rewrite Hr.
  by rewrite bool_decide_false.
Qed.

Lemma validate_mkdir_error env ep op names w df e :
  is_file env ep = true → read_excel env ep = Ok df →
  NAME_COLUMN ∈ df_columns df → mkdir_parents env op = Some e →
  validate env ep op names w = (w, Raise e).
Proof.
  intros Hf Hr Hc Hm. unfold validate. rewrite Hf. cbn [negb].
  rewrite bind_run. unfold try_except, lift. rewrite Hr.
  rewrite bool_decide_true by done. cbn [negb].
  by rewrite bind_run, make_parents_run, Hm.
Qed.

Lemma validate_write_error env ep op names w df e :
  is_file env ep = true → read_excel env ep = Ok df →
  NAME_COLUMN ∈ df_columns df → mkdir_parents env op = None →
  to_excel env op (annotate names df) = Some e →
  ∃ w', validate env ep op names w = (w', Raise e) ∧ written w' = written w.
Proof.
  intros Hf Hr Hc Hm Ht. unfold validate. rewrite Hf. cbn [negb].
  rewrite bind_run. unfold try_except, lift. rewrite Hr.
  rewrite bool_decide_true by done. cbn [negb].
  rewrite bind_run, make_parents_run, Hm, bind_run.
  unfold write_excel. rewrite Ht. rewrite bind_run.
  destruct (log_run (LogWriteError op e) w) as (w1 & -> & _ & Hw & _).
  by exists w1.
Qed.

Lemma validate_run env ep op names w df :
  is_file env ep = true → read_excel env ep = Ok df →
  NAME_COLUMN ∈ df_columns df → mkdir_parents env op = None →
  to_excel env op (annotate names df) = None →
  ∃ w', validate env ep op names w = (w', Ok ()) ∧
        written w' = written w ++ [(op, annotate names df)].
Proof.
  intros Hf Hr Hc Hm Ht. unfold validate. rewrite Hf. cbn [negb].
  rewrite bind_run. unfold try_except, lift. rewrite Hr.
  rewrite bool_decide_true by done. cbn [negb].
  rewrite bind_run, make_parents_run, Hm, bind_run.
  unfold write_excel. rewrite Ht.
  match goal with |- context [log ?r ?w0] =>
    destruct (log_run r w0) as (w1 & -> & _ & Hw & _) end.
  by exists w1.
Qed.

Lemma validate_inv env ep op names w w' :
  validate env ep op names w = (w', Ok ()) →
  ∃ df, read_excel env ep = Ok df ∧ NAME_COLUMN ∈ df_columns df ∧
        written w' = written w ++ [(op, annotate names df)].
Proof.
  unfold validate. destruct (is_file env ep); cbn [negb]; [|done].
  rewrite bind_run. unfold try_except, lift.
  destruct (read_excel env ep) as [df|e].
  2:{ rewrite bind_run. by destruct (log_run (LogReadError e) w) as (w1 & -> & _). }
  case_bool_decide as Hc; cbn [negb]; [|done].
  rewrite bind_run, make_parents_run.
  destruct (mkdir_parents env op); [done|]. rewrite bind_run.
  unfold write_excel. destruct (to_excel env op (annotate names df)) as [e|].
  { rewrite bind_run. by destruct (log_run (LogWriteError op e) w) as (w1 & -> & _). }
  match goal with |- context [log ?r ?w0] =>
    destruct (log_run r w0) as (w1 & -> & _ & Hw & _) end.
  intros [= <-]. by exists df.
Qed.

(** *** The driver *)

Lemma main_bad_extension env args w :
  good_extensions args = false → (main env args w).2 = 1%Z.
Proof.
  unfold good_extensions, main. intros H.
  destruct ((if debug args then set_root_level DEBUG else mret ()) w) as [w0 ?].
  destruct (endswith (lower (pdf args)) (lit ".pdf")); cbn [negb]; [|done].
  cbn [andb] in H. by rewrite H.
Qed.

Lemma main_exit env args w w1 r :
  good_extensions args = true →
  pipeline env args (configured args w) = (w1, r) →
  (main env args w).2 = exit_of r.
Proof.
  unfold good_extensions, main, configured, pipeline. intros H Hp.
  destruct ((if debug args then set_root_level DEBUG else mret ()) w) as [w0 ?].
  apply andb_true_iff in H as [-> ->]. cbn [negb]. cbn [fst] in Hp. rewrite Hp.
  destruct r as [[]|e]; [done|]. simpl. by destruct (expected e).
Qed.

Lemma pipeline_extract_raise env args w w1 e :
  extract_names env (InDir PDF_DIR (pdf args)) (tesseract_cmd args) (dpi args) w
    = (w1, Raise e) →
  pipeline env args w = (w1, Raise e).
Proof. intros H. unfold pipeline. by rewrite bind_run, H. Qed.

Lemma pipeline_extract_ok env args w w1 names :
  extract_names env (InDir PDF_DIR (pdf args)) (tesseract_cmd args) (dpi args) w
    = (w1, Ok names) →
  pipeline env args w =
  validate env (InDir EXCEL_DIR (excel args))
    (InDir OUTPUT_DIR (stem (excel args) ++ lit "_REVISADO.xlsx")) names w1.
Proof. intros H. unfold pipeline. by rewrite bind_run, H. Qed.

End runs.

(** ** The earlier script; occurrences in a message *)

(** The legacy script *)

Lemma ocr_all_run images texts : ∀ acc w,
  Forall2 (fun (img : Image) t => img TesseractAnalysis.TESSERACT_CMD None = Ok t) images texts →
  TesseractAnalysis.ocr_all images acc w = (w, Ok (acc ++ mjoin texts)).
Proof.
  intros acc w H. revert acc. induction H as [|img t images texts Himg _ IH]; intros acc.
  { simpl. by rewrite app_nil_r. }
  cbn [TesseractAnalysis.ocr_all]. rewrite bind_run. unfold lift. rewrite Himg.
  rewrite IH. simpl. by rewrite app_assoc.
Qed.

Lemma extract_names_from_pdf_run env p w images texts :
  convert_from_path env p 200 = Ok images →
  Forall2 (fun (img : Image) t => img TesseractAnalysis.TESSERACT_CMD None = Ok t) images texts →
  TesseractAnalysis.extract_names_from_pdf env p w =
    (w, Ok (strip <$> filter (fun line => strip line ≠ []) (split_on 10 (mjoin texts)))).
Proof.
  intros Hc Hall. unfold TesseractAnalysis.extract_names_from_pdf.
  rewrite bind_run. unfold lift. rewrite Hc. rewrite bind_run.
  by rewrite (ocr_all_run images texts).
Qed.

Lemma validate_names_missing_column env names ep op w df :
  read_excel env ep = Ok df → TesseractAnalysis.NAME ∉ df_columns df →
  TesseractAnalysis.validate_names env names ep op w =
    (w, Raise (ValueError TesseractAnalysis.missing_column_message)).
Proof.
  intros Hr Hc. unfold TesseractAnalysis.validate_names.
  rewrite bind_run. unfold lift. rewrite Hr. by rewrite bool_decide_false.
Qed.

Lemma validate_names_run env names ep op w df :
  read_excel env ep = Ok df → TesseractAnalysis.NAME ∈ df_columns df →
  let out := df_set TesseractAnalysis.FLAG
               ((fun v => CBool (TesseractAnalysis.in_names names v)) <$>
                  default [] (df_get TesseractAnalysis.NAME df)) df in
  to_excel env op out = None →
  TesseractAnalysis.validate_names env names ep op w =
    ({| root_level := root_level w; emitted := emitted w;
        written := written w ++ [(op, out)] |}, Ok ()).
Proof.
  intros Hr Hc out Ht. unfold TesseractAnalysis.validate_names.
  rewrite bind_run. unfold lift. rewrite Hr. rewrite bool_decide_true by done.
  cbn [negb]. unfold write_excel. fold out. by rewrite Ht.
Qed.

(** Occurrence of one text inside another *)

Lemma starts_with_app p t : starts_with p (p ++ t) = true.
Proof. induction p as [|a p IH]; [done|]. simpl. by rewrite N.eqb_refl. Qed.

Lemma contains_eq needle hay :
  contains needle hay =
  starts_with needle hay || match hay with [] => false | _ :: hay' => contains needle hay' end.
Proof. by destruct hay. Qed.

Lemma contains_app needle a b : contains needle (a ++ needle ++ b) = true.
Proof.
  induction a as [|c a IH].
  - change ([] ++ needle ++ b) with (needle ++ b).
    by rewrite contains_eq, starts_with_app.
  - rewrite contains_eq. cbn [app]. by rewrite IH, orb_true_r.
Qed.

Section messages.
Context {U : Unicode}.

Lemma join_comma_elem (f : str → str) c l :
  c ∈ l → ∃ a b, join_comma (f <$> l) = a ++ f c ++ b.
Proof.
  induction l as [|x l IH]; [by intros ?%elem_of_nil|].
  intros [->|H]%elem_of_cons.
  - destruct l as [|y l]; [exists [], []; by rewrite app_nil_r|].
    exists [], (lit ", " ++ join_comma (f <$> y :: l)). done.
  - destruct (IH H) as (a & b & E). destruct l as [|y l]; [by apply elem_of_nil in H|].
    exists (f x ++ lit ", " ++ a), b.
    change (join_comma (f <$> x :: y :: l))
      with (f x ++ lit ", " ++ join_comma (f <$> y :: l)).
    rewrite E. by rewrite <- !app_assoc.
Qed.

Lemma message_lists_columns df c :
  c ∈ df_columns df → contains (repr_str c) (missing_column_message df) = true.
Proof.
  intros H. unfold missing_column_message, repr_list.
  destruct (join_comma_elem repr_str c _ H) as (a & b & ->).
  rewrite !app_assoc. rewrite <- (app_assoc _ (repr_str c)).
  rewrite <- (app_assoc _ (repr_str c ++ b)). rewrite <- (app_assoc (repr_str c)).
  apply contains_app.
Qed.

End messages.

(** ** What the extractor returns *)

Section extraction.
Context {U : Unicode}.

Lemma ocr_pages_written cmd images : ∀ i names w w' r,
  ocr_pages cmd i images names w = (w', r) → written w' = written w.
Proof.
  induction images as [|img images IH]; intros i names w w' r Hrun.
  { by injection Hrun as <- _. }
  cbn [ocr_pages] in Hrun. destruct (img cmd (Some (lit "spa"))) as [text|e].
  - rewrite bind_run in Hrun.
    destruct (log_run (LogPageNames i (size (page_names text))) w) as (w1 & Hlog & _ & Hw & _).
    rewrite Hlog in Hrun. apply IH in Hrun. congruence.
  - destruct e; try by injection Hrun as <- _.
    rewrite bind_run in Hrun.
    destruct (log_run (LogOcrFailed i (TesseractError status msg)) w) as (w1 & Hlog & _ & Hw & _).
    rewrite Hlog in Hrun. apply IH in Hrun. congruence.
Qed.

Lemma extract_names_written env p tc d w w' r :
  extract_names env p tc d w = (w', r) → written w' = written w.
Proof.
  unfold extract_names. destruct (is_file env p); cbn [negb]; [|by intros [= <- _]].
  rewrite bind_run. unfold try_except. rewrite bind_run.
  destruct (log_run (LogConverting p d) w) as (w1 & -> & _ & Hw1 & _).
  unfold lift. destruct (convert_from_path env p d) as [images|e].
  2:{ destruct e; intros [= <- _]; done. }
  rewrite bind_run.
  destruct (ocr_pages (effective_cmd tc) 1 images ∅ w1) as [w2 [names|e]] eqn:E;
    apply ocr_pages_written in E.
  - rewrite bind_run.
    destruct (log_run (LogTotalNames (size names)) w2) as (w3 & -> & _ & Hw3 & _).
    intros [= <- _]. congruence.
  - intros [= <- _]. congruence.
Qed.

Lemma extract_names_two_tokens env p tc d w w' names n :
  extract_names env p tc d w = (w', Ok names) → n ∈ names → two_tokens n.
Proof.
  intros (images & _ & _ & ->)%extract_names_inv Hn.
  apply elem_of_union_list in Hn as (X & HX & Hn).
  apply list_elem_of_fmap in HX as (img & -> & _).
  by eapply page_contribution_two_tokens.
Qed.

Lemma page_contribution_elem text line :
  line ∈ splitlines text → line_kept line = true → two_tokens (normalize_name line) →
  normalize_name line ∈ page_contribution (Ok text).
Proof.
  intros Hl Hk Ht. simpl. apply elem_of_filter. split; [done|].
  unfold page_names. apply elem_of_list_to_set, list_elem_of_fmap.
  exists line. split; [done|]. apply list_elem_of_filter. split; [|done].
  by rewrite Hk.
Qed.

Example contribution_single_token : page_contribution (Ok (lit "MARIA")) = ∅.
Proof. vm_compute. reflexivity. Qed.

Example contribution_two_tokens :
  page_contribution (Ok (lit "MARIA LOPEZ")) = {[ lit "MARIA LOPEZ" ]}.
Proof. vm_compute. reflexivity. Qed.

End extraction.

(** ** The properties of the specification *)

(** C1.  In [name_validator.py], whenever the sheet can be read, has the
    name column and can be written, [validate] writes a frame in which the
    flag of every row is true exactly when the normal form of the string
    form of its name cell belongs to the set of names; a page line read as
    [ANA MARIA LOPEZ] puts that name in the set, and the roster entry
    [ana maria lopez] is then flagged true.  In [tesseractAnalysis.py] the
    flag of a row is true exactly when its cell is a string that occurs, as
    it is, among the names: there the test is sensitive to case and
    format. *)
Theorem validate_flag_is_membership `{U : Unicode} :
  (∀ env ep op names w df,
     is_file env ep = true → read_excel env ep = Ok df →
     NAME_COLUMN ∈ df_columns df → mkdir_parents env op = None →
     to_excel env op (annotate names df) = None →
     ∃ w', validate env ep op names w = (w', Ok ()) ∧
           written w' = written w ++ [(op, annotate names df)] ∧
           ∀ i v, df_cell NAME_COLUMN i df = Some v →
                  df_cell FLAG_COLUMN i (annotate names df) =
                  Some (CBool (bool_decide (normalize_name (str_of_cell v) ∈ names)))) ∧
  (page_contribution (Ok (lit "ANA MARIA LOPEZ")) = {[ lit "ANA MARIA LOPEZ" ]} ∧
   ∀ names : gset str, lit "ANA MARIA LOPEZ" ∈ names →
     bool_decide (normalize_name (str_of_cell (CStr (lit "ana maria lopez"))) ∈ names) = true) ∧
  (∀ env (names : list str) ep op w df,
     read_excel env ep = Ok df → TesseractAnalysis.NAME ∈ df_columns df →
     (∀ out, to_excel env op out = None) →
     ∃ w' out, TesseractAnalysis.validate_names env names ep op w = (w', Ok ()) ∧
               written w' = written w ++ [(op, out)] ∧
               ∀ i v, df_cell TesseractAnalysis.NAME i df = Some v →
                      df_cell TesseractAnalysis.FLAG i out =
                      Some (CBool match v with
                                  | CStr s => bool_decide (s ∈ names)
                                  | _ => false
                                  end)).
Proof.
  split; [|split].
  - intros env ep op names w df Hf Hr Hc Hm Ht.
    destruct (validate_run env ep op names w df Hf Hr Hc Hm Ht) as (w' & Hv & Hw).
    exists w'. split; [done|]. split; [done|].
    intros i v Hv'. unfold df_cell in *. rewrite annotate_flags.
    destruct (df_get NAME_COLUMN df) as [col|]; [|done]. simpl in *.
    rewrite list_lookup_fmap, Hv'. done.
  - split; [vm_compute; reflexivity|].
    intros names H. apply bool_decide_eq_true. exact H.
  - intros env names ep op w df Hr Hc Ht.
    eexists _, _. split; [by apply validate_names_run|]. split; [done|].
    intros i v Hv. unfold df_cell in *. rewrite df_get_set_eq.
    destruct (df_get TesseractAnalysis.NAME df) as [col|]; [|done]. simpl in *.
    rewrite list_lookup_fmap, Hv. by destruct v.
Qed.

(** The first part of C1 on the sample roster. *)
Lemma validate_flag_witness :
  ∃ w', validate (U:=latin1) (sample_env scan roster) (InDir EXCEL_DIR (lit "lista.xlsx"))
          (InDir OUTPUT_DIR (lit "lista_REVISADO.xlsx")) {[ lit "ANA MARIA LOPEZ" ]}
          fresh_world = (w', Ok ()) ∧
        written w' = written fresh_world ++
          [(InDir OUTPUT_DIR (lit "lista_REVISADO.xlsx"),
            annotate (U:=latin1) {[ lit "ANA MARIA LOPEZ" ]} roster)] ∧
        ∀ i v, df_cell NAME_COLUMN i roster = Some v →
          df_cell FLAG_COLUMN i (annotate (U:=latin1) {[ lit "ANA MARIA LOPEZ" ]} roster) =
          Some (CBool (bool_decide
                         (normalize_name (U:=latin1) (str_of_cell v) ∈
                            ({[ lit "ANA MARIA LOPEZ" ]} : gset str)))).
Proof.
  apply (proj1 (validate_flag_is_membership (U:=latin1))
           (sample_env scan roster) _ _ _ fresh_world roster);
    [reflexivity|reflexivity|apply list_elem_of_here|reflexivity|reflexivity].
Defined.

(** C1 does not hold of [tesseractAnalysis.py]: the script reads the line
    [ANA MARIA LOPEZ], and the row [ana maria lopez], whose normal form is
    that very name, is flagged false. *)
Lemma legacy_flag_without_normal_form :
  (TesseractAnalysis.extract_names_from_pdf (sample_env legacy_scan legacy_roster)
     (Rel (lit "SUA/input.pdf")) fresh_world).2 = Ok [lit "ANA MARIA LOPEZ"; lit "MARIA"] ∧
  written (TesseractAnalysis.main (sample_env legacy_scan legacy_roster) fresh_world).1 =
    [(Rel (lit "OUTPUT/output.xlsx"),
      [ (TesseractAnalysis.NAME, [CStr (lit "ana maria lopez"); CStr (lit "ANA MARIA LOPEZ")]);
        (TesseractAnalysis.FLAG, [CBool false; CBool true]) ])] ∧
  normalize_name (U:=latin1) (lit "ana maria lopez") ∈ [lit "ANA MARIA LOPEZ"; lit "MARIA"].
Proof.
  split; [vm_compute; reflexivity|]. split; [vm_compute; reflexivity|].
  vm_compute. apply list_elem_of_here.
Qed.

(** C2.  For every input, [normalize_name] returns what the four steps of
    the specification give: transliteration, a space for every character
    that is neither an ASCII letter nor white space, the runs of white space
    collapsed and the edges trimmed, upper case.  It is a total function.
    Its result is empty exactly when the transliterated text has no ASCII
    letter, which is the case of every ASCII input without a letter.  With
    a table that sends [é] to [e] and [Á] to [A], [José Á.] gives [JOSE A];
    and [  ana-maria!!  ] gives [ANA MARIA]. *)
Theorem normalize_name_algorithm `{U : Unicode}
    (He : unidecode_table 233 = [101]) (HA : unidecode_table 193 = [65]) :
  (∀ s, normalize_name s = normalize_spec s) ∧
  (∀ s, normalize_name s = [] ↔
        Forall (fun c => is_ascii_letter c = false) (unidecode s)) ∧
  (∀ s, Forall (fun c => c < 128 ∧ is_ascii_letter c = false) s → normalize_name s = []) ∧
  normalize_name [74; 111; 115; 233; 32; 193; 46] = lit "JOSE A" ∧
  normalize_name (lit "  ana-maria!!  ") = lit "ANA MARIA".
Proof.
  split; [exact normalize_name_refines|]. split; [exact normalize_name_empty|].
  split; [|split].
  - intros s Hs. apply normalize_name_empty. rewrite unidecode_ascii.
    + eapply Forall_impl; [exact Hs|]. by intros c [_ ?].
    + eapply Forall_impl; [exact Hs|]. by intros c [? _].
  - unfold normalize_name, unidecode. cbn [fmap list_fmap mjoin list_join].
    change (233 <? 128) with false. change (193 <? 128) with false. cbn iota.
    rewrite He, HA. vm_compute. reflexivity.
  - vm_compute. reflexivity.
Qed.

(** C2 with the Latin-1 tables. *)
Lemma normalize_name_latin1 :
  (unidecode_table (Unicode:=latin1) 233 = [101] ∧ unidecode_table (Unicode:=latin1) 193 = [65]) ∧
  normalize_name (U:=latin1) [74; 111; 115; 233; 32; 193; 46] = lit "JOSE A" ∧
  normalize_name (U:=latin1) (lit "  ana-maria!!  ") = lit "ANA MARIA".
Proof.
  split; [split; reflexivity|].
  apply (normalize_name_algorithm (U:=latin1) eq_refl eq_refl).
Defined.

(** C2 does not hold of every input without an alphabetic character: the
    copyright sign U+00A9 is not alphabetic, Unidecode writes it [(c)], and
    its normal form is [C]. *)
Lemma copyright_sign_yields_a_letter :
  existsb (isalpha (U:=latin1)) [169] = false ∧
  unidecode (U:=latin1) [169] = lit "(c)" ∧
  normalize_name (U:=latin1) [169] = lit "C".
Proof. repeat split; vm_compute; reflexivity. Qed.

(** C3.  Normalisation is idempotent: for every string [s],
    [normalize_name (normalize_name s) = normalize_name s]. *)
Theorem normalize_name_idempotent `{U : Unicode} (s : str) :
  normalize_name (normalize_name s) = normalize_name s.
Proof.
  rewrite (normalize_name_words s). apply normalize_words_fixed, normal_form_words.
Qed.

(** C4.  Every element of the set [extract_names] returns has at least two
    tokens; a page reading [MARIA] adds nothing and a page reading
    [MARIA LOPEZ] adds that name; and every line of a page that was read,
    that is kept and whose normal form has two tokens, has its normal form
    in the set.  The list [extract_names_from_pdf] of [tesseractAnalysis.py]
    returns holds instead every line that is not blank, stripped, whatever
    its number of tokens. *)
Theorem name_set_two_tokens `{U : Unicode} :
  (∀ env p tc d w w' names,
     extract_names env p tc d w = (w', Ok names) → ∀ n, n ∈ names → two_tokens n) ∧
  page_contribution (Ok (lit "MARIA")) = ∅ ∧
  page_contribution (Ok (lit "MARIA LOPEZ")) = {[ lit "MARIA LOPEZ" ]} ∧
  (∀ env p tc d w images k img text line,
     is_file env p = true → convert_from_path env p d = Ok images →
     Forall (fun img => readable_or_skipped (ocr (effective_cmd tc) img)) images →
     images !! k = Some img → ocr (effective_cmd tc) img = Ok text →
     line ∈ splitlines text → line_kept line = true → two_tokens (normalize_name line) →
     ∃ w' names, extract_names env p tc d w = (w', Ok names) ∧ normalize_name line ∈ names) ∧
  (∀ env p w images texts,
     convert_from_path env p 200 = Ok images →
     Forall2 (fun (img : Image) t => img TesseractAnalysis.TESSERACT_CMD None = Ok t)
       images texts →
     ∃ names, TesseractAnalysis.extract_names_from_pdf env p w = (w, Ok names) ∧
              ∀ line, line ∈ split_on 10 (mjoin texts) → strip line ≠ [] →
                      strip line ∈ names).
Proof.
  split; [|split; [|split; [|split]]].
  - intros env p tc d w w' names H n Hn. by eapply extract_names_two_tokens.
  - apply contribution_single_token.
  - apply contribution_two_tokens.
  - intros env p tc d w images k img text line Hf Hc Hall Hk Hocr Hl Hkept Ht.
    destruct (extract_names_run env p tc d w images Hf Hc Hall) as (w' & Hrun & _).
    eexists _, _. split; [exact Hrun|].
    apply elem_of_union_list. exists (page_contribution (Ok text)). split.
    + apply list_elem_of_fmap. exists img. split; [simpl; by rewrite Hocr|].
      by eapply list_elem_of_lookup_2.
    + by apply page_contribution_elem.
  - intros env p w images texts Hc Hall. eexists. split.
    + by eapply extract_names_from_pdf_run.
    + intros line Hl Hne. apply list_elem_of_fmap. exists line. split; [done|].
      by apply list_elem_of_filter.
Qed.

(** C4 on the sample scan: the third page contributes [LUIS RUIZ SOTO]. *)
Lemma name_set_two_tokens_witness :
  ∃ w' names,
    extract_names (U:=latin1) (sample_env scan roster) (InDir PDF_DIR (lit "sua.pdf"))
      None 300%Z fresh_world = (w', Ok names) ∧
    normalize_name (U:=latin1) (lit "Luis  Ruiz-Soto 123") ∈ names.
Proof.
  apply (proj1 (proj2 (proj2 (proj2 (name_set_two_tokens (U:=latin1)))))
           (sample_env scan roster) _ None 300%Z fresh_world scan 2%nat
           (page (lit "Luis  Ruiz-Soto 123")) (lit "Luis  Ruiz-Soto 123")).
  - reflexivity.
  - reflexivity.
  - repeat constructor.
  - reflexivity.
  - reflexivity.
  - apply list_elem_of_here.
  - reflexivity.
  - vm_compute. lia.
Defined.

(** C4 does not hold of [tesseractAnalysis.py]: the line [MARIA], one
    token after normalisation, is an element of the names it extracts. *)
Lemma legacy_keeps_single_token :
  (TesseractAnalysis.extract_names_from_pdf (sample_env legacy_scan legacy_roster)
     (Rel (lit "SUA/input.pdf")) fresh_world).2 = Ok [lit "ANA MARIA LOPEZ"; lit "MARIA"] ∧
  length (split_ws (normalize_name (U:=latin1) (lit "MARIA"))) = 1%nat.
Proof. split; vm_compute; reflexivity. Qed.

(** C5.  For every sheet that has the name column and no column labelled
    [_NombreNormalizado], and every set of names, the frame [validate]
    writes is the input with the column [Existe en SUA] set to the flags:
    one new last column when the input has no column of that label.  Every
    other column keeps its place and its cells in every row, every flag is a
    boolean, and a row whose normal form is not in the set is flagged
    false. *)
Theorem output_frame `{U : Unicode} env ep op names w df :
  is_file env ep = true → read_excel env ep = Ok df →
  NAME_COLUMN ∈ df_columns df → NORMALIZED_COLUMN ∉ df_columns df →
  mkdir_parents env op = None → (∀ out, to_excel env op out = None) →
  let flags := flag_of names <$> default [] (df_get NAME_COLUMN df) in
  ∃ w' out,
    validate env ep op names w = (w', Ok ()) ∧
    written w' = written w ++ [(op, out)] ∧
    out = df_set FLAG_COLUMN flags df ∧
    (FLAG_COLUMN ∉ df_columns df → out = df ++ [(FLAG_COLUMN, flags)]) ∧
    (∀ i k v, k ≠ FLAG_COLUMN → df !! i = Some (k, v) → out !! i = Some (k, v)) ∧
    (∀ i v, df_cell NAME_COLUMN i df = Some v →
            ∃ b, df_cell FLAG_COLUMN i out = Some (CBool b) ∧
                 (normalize_name (str_of_cell v) ∉ names → b = false)).
Proof.
  intros Hf Hr Hc Hn Hm Ht flags.
  destruct (validate_run env ep op names w df Hf Hr Hc Hm (Ht _)) as (w' & Hv & Hw).
  exists w', (annotate names df). split; [done|]. split; [done|].
  rewrite (annotate_set names df Hn). fold flags.
  split; [done|]. split; [by apply df_set_fresh|]. split.
  - intros i k v Hk Hi. by apply df_set_other.
  - intros i v Hv'. unfold df_cell in *. rewrite df_get_set_eq. subst flags.
    destruct (df_get NAME_COLUMN df) as [col|]; [|done]. simpl in *.
    rewrite list_lookup_fmap, Hv'. simpl. eexists. split; [done|].
    intros Hnot. by apply bool_decide_eq_false.
Qed.

(** C5 on the sample roster. *)
Lemma output_frame_witness :
  ∃ w' out,
    validate (U:=latin1) (sample_env scan roster) (InDir EXCEL_DIR (lit "lista.xlsx"))
      (InDir OUTPUT_DIR (lit "lista_REVISADO.xlsx")) {[ lit "ANA MARIA LOPEZ" ]}
      fresh_world = (w', Ok ()) ∧
    written w' = [(InDir OUTPUT_DIR (lit "lista_REVISADO.xlsx"), out)] ∧
    out = roster ++ [(FLAG_COLUMN, [CBool true; CBool false; CBool false])].
Proof.
  destruct (output_frame (U:=latin1) (sample_env scan roster)
              (InDir EXCEL_DIR (lit "lista.xlsx"))
              (InDir OUTPUT_DIR (lit "lista_REVISADO.xlsx"))
              {[ lit "ANA MARIA LOPEZ" ]} fresh_world roster)
    as (w' & out & Hv & Hw & Hout & _).
  - reflexivity.
  - reflexivity.
  - apply list_elem_of_here.
  - vm_compute. intros H. repeat (apply elem_of_cons in H as [H|H]; [discriminate H|]).
    by apply elem_of_nil in H.
  - reflexivity.
  - reflexivity.
  - exists w', out. split; [exact Hv|]. split; [exact Hw|]. rewrite Hout.
    vm_compute. reflexivity.
Defined.

(** C5 does not hold of every sheet: a sheet that already has a column
    [Existe en SUA] gets no new column and has that column overwritten, and
    a sheet with a column [_NombreNormalizado] loses it. *)
Lemma output_frame_label_clash :
  annotate (U:=latin1) ∅ reviewed_roster =
    [ (NAME_COLUMN, [CStr (lit "ana maria lopez")]); (FLAG_COLUMN, [CBool false]) ] ∧
  annotate (U:=latin1) ∅ clashing_roster =
    [ (NAME_COLUMN, [CStr (lit "ana maria lopez")]); (FLAG_COLUMN, [CBool false]) ] ∧
  written (validate (U:=latin1) (sample_env scan clashing_roster)
             (InDir EXCEL_DIR (lit "lista.xlsx"))
             (InDir OUTPUT_DIR (lit "lista_REVISADO.xlsx")) ∅ fresh_world).1 =
    [(InDir OUTPUT_DIR (lit "lista_REVISADO.xlsx"),
      [ (NAME_COLUMN, [CStr (lit "ana maria lopez")]); (FLAG_COLUMN, [CBool false]) ])].
Proof. repeat split; vm_compute; reflexivity. Qed.

(** C6.  When the sheet read lacks the name column, [validate] of
    [name_validator.py] raises [KeyError] with a message in which the
    [repr] of every column present occurs, and leaves the world as it was:
    nothing is written.  [validate_names] of [tesseractAnalysis.py] raises
    [ValueError] with one fixed message, and writes nothing either. *)
Theorem missing_column_error `{U : Unicode} :
  (∀ env ep op names w df,
     is_file env ep = true → read_excel env ep = Ok df →
     NAME_COLUMN ∉ df_columns df →
     validate env ep op names w = (w, Raise (KeyError (missing_column_message df))) ∧
     ∀ c, c ∈ df_columns df → contains (repr_str c) (missing_column_message df) = true) ∧
  (∀ env names ep op w df,
     read_excel env ep = Ok df → TesseractAnalysis.NAME ∉ df_columns df →
     TesseractAnalysis.validate_names env names ep op w =
       (w, Raise (ValueError (lit "The Excel file must contain a 'Name' column.")))).
Proof.
  split.
  - intros env ep op names w df Hf Hr Hc. split.
    + exact (validate_missing_column env ep op names w df Hf Hr Hc).
    + intros c. apply message_lists_columns.
  - intros env names ep op w df Hr Hc.
    exact (validate_names_missing_column env names ep op w df Hr Hc).
Qed.

(** C6 on a sheet with the columns [Nombre] and [Puesto]. *)
Lemma missing_column_error_witness :
  validate (U:=latin1) (sample_env scan unnamed_roster) (InDir EXCEL_DIR (lit "lista.xlsx"))
    (InDir OUTPUT_DIR (lit "lista_REVISADO.xlsx")) ∅ fresh_world =
    (fresh_world,
     Raise (KeyError (lit "La columna 'Nombre Completo' no existe en el Excel. Columnas disponibles: ['Nombre', 'Puesto']"))) ∧
  contains (lit "'Puesto'") (missing_column_message (U:=latin1) unnamed_roster) = true.
Proof.
  destruct (proj1 (missing_column_error (U:=latin1)) (sample_env scan unnamed_roster)
              (InDir EXCEL_DIR (lit "lista.xlsx"))
              (InDir OUTPUT_DIR (lit "lista_REVISADO.xlsx")) ∅ fresh_world unnamed_roster)
    as [Hv Hc].
  - reflexivity.
  - reflexivity.
  - vm_compute. intros H. repeat (apply elem_of_cons in H as [H|H]; [discriminate H|]).
    by apply elem_of_nil in H.
  - split; [exact Hv|]. apply (Hc (lit "Puesto")). apply list_elem_of_further, list_elem_of_here.
Defined.

(** C6 does not hold of [tesseractAnalysis.py]: for a sheet with the
    columns [Nombre] and [Puesto] the message names neither. *)
Lemma legacy_message_is_fixed :
  (TesseractAnalysis.validate_names (sample_env legacy_scan unnamed_roster) []
     (Rel (lit "EXCEL/input.xlsx")) (Rel (lit "OUTPUT/output.xlsx")) fresh_world).2 =
    Raise (ValueError (lit "The Excel file must contain a 'Name' column.")) ∧
  contains (lit "Nombre") (lit "The Excel file must contain a 'Name' column.") = false ∧
  contains (lit "Puesto") (lit "The Excel file must contain a 'Name' column.") = false.
Proof. repeat split; vm_compute; reflexivity. Qed.

Section skipped_pages.
Context {U : Unicode}.

Lemma contributions_of_read_pages cmd images :
  ⋃ (page_contribution ∘ ocr cmd <$> images) =
  ⋃ (page_contribution ∘ ocr cmd <$> filter (fun img => was_read (ocr cmd img)) images).
Proof.
  induction images as [|img images IH]; [done|].
  rewrite filter_cons, fmap_cons, union_list_cons. unfold compose at 1.
  destruct (ocr cmd img) as [text|e] eqn:E; cbn [was_read].
  - rewrite decide_True by done. rewrite fmap_cons, union_list_cons.
    unfold compose at 2. by rewrite E, IH.
  - rewrite decide_False by (by intros ?). cbn [page_contribution].
    by rewrite (left_id_L ∅ (∪)).
Qed.

End skipped_pages.

(** C7.  A missing PDF makes [extract_names] raise [PdfExtractionError],
    and so does a missing rasteriser.  When the pages are rasterised and
    OCR of each page either gives text or fails with [TesseractError],
    [extract_names] returns the set accumulated from the pages that were
    read, and, warnings being enabled, the log holds a record with the
    number of each page that failed. *)
Theorem ocr_failure_is_skipped `{U : Unicode} env p tc d w :
  (is_file env p = false →
   extract_names env p tc d w = (w, Raise (PdfExtractionError (PdfNotFound p)))) ∧
  (is_file env p = true → convert_from_path env p d = Raise PDFInfoNotInstalledError →
   ∃ w', extract_names env p tc d w = (w', Raise (PdfExtractionError PopplerNotInstalled))) ∧
  (∀ images,
     is_file env p = true → convert_from_path env p d = Ok images →
     Forall (fun img => readable_or_skipped (ocr (effective_cmd tc) img)) images →
     let read := filter (fun img => was_read (ocr (effective_cmd tc) img)) images in
     ∃ w', extract_names env p tc d w =
             (w', Ok (⋃ (page_contribution ∘ ocr (effective_cmd tc) <$> read))) ∧
           (warn_enabled w → ∀ k img status msg,
              images !! k = Some img →
              ocr (effective_cmd tc) img = Raise (TesseractError status msg) →
              LogOcrFailed (S k) (TesseractError status msg) ∈ emitted w')).
Proof.
  split; [apply extract_names_missing|]. split.
  - intros Hf Hc.
    destruct (extract_names_convert_error env p tc d w _ Hf Hc) as (w' & H & _).
    by exists w'.
  - intros images Hf Hc Hall read.
    destruct (extract_names_run env p tc d w images Hf Hc Hall) as (w' & H & _ & _ & Hlog).
    exists w'. split; [|done]. subst read. by rewrite <- contributions_of_read_pages.
Qed.

(** C7 on the sample scan, whose second page cannot be read. *)
Lemma ocr_failure_is_skipped_witness :
  ∃ w', extract_names (U:=latin1) (sample_env scan roster) (InDir PDF_DIR (lit "sua.pdf"))
          None 300%Z fresh_world =
          (w', Ok ({[ lit "ANA MARIA LOPEZ" ]} ∪ ({[ lit "LUIS RUIZ SOTO" ]} ∪ ∅))) ∧
        LogOcrFailed 2 (TesseractError 1 (lit "Error opening data file")) ∈ emitted w'.
Proof.
  destruct (proj2 (proj2 (ocr_failure_is_skipped (U:=latin1) (sample_env scan roster)
                            (InDir PDF_DIR (lit "sua.pdf")) None 300%Z fresh_world)) scan)
    as (w' & Hrun & Hlog).
  - reflexivity.
  - reflexivity.
  - repeat constructor.
  - exists w'. split.
    + rewrite Hrun. vm_compute. reflexivity.
    + apply (Hlog ltac:(vm_compute; lia) 1%nat unreadable_page); reflexivity.
Defined.

(** The exit status of [main], case by case.  It is 1 for a bad file
    extension, a missing PDF, a rasteriser that is missing or fails, a
    missing spreadsheet and a missing name column; it is 0 when every step
    succeeds; and when OCR of a page, the spreadsheet reader, the creation
    of the output directory or the writer raises an exception [e] (other
    than [TesseractError] for OCR), it is 1 if [e] is a
    [PdfExtractionError], a [FileNotFoundError] or a [KeyError], and 2 for
    every other class. *)
Theorem exit_status `{U : Unicode} env args w :
  let pdf_path := InDir PDF_DIR (pdf args) in
  let excel_path := InDir EXCEL_DIR (excel args) in
  let output_path := InDir OUTPUT_DIR (stem (excel args) ++ lit "_REVISADO.xlsx") in
  let cmd := effective_cmd (tesseract_cmd args) in
  let code := (main env args w).2 in
  (good_extensions args = false → code = 1%Z) ∧
  (good_extensions args = true →
   (is_file env pdf_path = false → code = 1%Z) ∧
   (∀ e, is_file env pdf_path = true →
         convert_from_path env pdf_path (dpi args) = Raise e → code = 1%Z) ∧
   (∀ pre img post e,
      is_file env pdf_path = true →
      convert_from_path env pdf_path (dpi args) = Ok (pre ++ img :: post) →
      Forall (fun img => readable_or_skipped (ocr cmd img)) pre →
      ocr cmd img = Raise e → ¬ readable_or_skipped (Raise e) →
      code = if expected e then 1%Z else 2%Z) ∧
   (∀ images,
      is_file env pdf_path = true →
      convert_from_path env pdf_path (dpi args) = Ok images →
      Forall (fun img => readable_or_skipped (ocr cmd img)) images →
      (is_file env excel_path = false → code = 1%Z) ∧
      (∀ e, is_file env excel_path = true → read_excel env excel_path = Raise e →
            code = if expected e then 1%Z else 2%Z) ∧
      (∀ df, is_file env excel_path = true → read_excel env excel_path = Ok df →
             NAME_COLUMN ∉ df_columns df → code = 1%Z) ∧
      (∀ df e, is_file env excel_path = true → read_excel env excel_path = Ok df →
               NAME_COLUMN ∈ df_columns df → mkdir_parents env output_path = Some e →
               code = if expected e then 1%Z else 2%Z) ∧
      (∀ df e, is_file env excel_path = true → read_excel env excel_path = Ok df →
               NAME_COLUMN ∈ df_columns df → mkdir_parents env output_path = None →
               (∀ out, to_excel env output_path out = Some e) →
               code = if expected e then 1%Z else 2%Z) ∧
      (∀ df, is_file env excel_path = true → read_excel env excel_path = Ok df →
             NAME_COLUMN ∈ df_columns df → mkdir_parents env output_path = None →
             (∀ out, to_excel env output_path out = None) →
             code = 0%Z))).
Proof.
  intros pdf_path excel_path output_path cmd code.
  split; [apply main_bad_extension|]. intros Hext.
  split; [|split; [|split]].
  - intros Hf. subst code.
    erewrite main_exit; [|done|apply pipeline_extract_raise, extract_names_missing, Hf].
    done.
  - intros e Hf Hc. subst code.
    destruct (extract_names_convert_error env pdf_path (tesseract_cmd args) (dpi args)
                (configured args w) e Hf Hc) as (w1 & Hrun & _).
    erewrite main_exit; [|done|apply pipeline_extract_raise, Hrun]. done.
  - intros pre img post e Hf Hc Hall Hocr He. subst code.
    destruct (extract_names_ocr_raise env pdf_path (tesseract_cmd args) (dpi args)
                (configured args w) pre img post e Hf Hc Hall Hocr He) as (w1 & Hrun & _).
    erewrite main_exit; [|done|apply pipeline_extract_raise, Hrun]. done.
  - intros images Hf Hc Hall.
    destruct (extract_names_run env pdf_path (tesseract_cmd args) (dpi args)
                (configured args w) images Hf Hc Hall) as (w1 & Hrun & _).
    apply pipeline_extract_ok in Hrun. fold excel_path output_path in Hrun.
    set (names := ⋃ _) in Hrun.
    split; [|split; [|split; [|split; [|split]]]].
    + intros Hx. subst code. erewrite main_exit; [|done|].
      2:{ rewrite Hrun. by apply validate_excel_missing. }
      done.
    + intros e Hx Hr. subst code.
      destruct (validate_read_error env excel_path output_path names w1 e Hx Hr)
        as (w2 & Hv & _).
      erewrite main_exit; [|done|by rewrite Hrun, Hv]. done.
    + intros df Hx Hr Hcol. subst code. erewrite main_exit; [|done|].
      2:{ rewrite Hrun. by eapply validate_missing_column. }
      done.
    + intros df e Hx Hr Hcol Hm. subst code. erewrite main_exit; [|done|].
      2:{ rewrite Hrun. by eapply validate_mkdir_error. }
      done.
    + intros df e Hx Hr Hcol Hm Ht. subst code.
      destruct (validate_write_error env excel_path output_path names w1 df e Hx Hr Hcol Hm (Ht _))
        as (w2 & Hv & _).
      erewrite main_exit; [|done|by rewrite Hrun, Hv]. done.
    + intros df Hx Hr Hcol Hm Ht. subst code.
      destruct (validate_run env excel_path output_path names w1 df Hx Hr Hcol Hm (Ht _))
        as (w2 & Hv & _).
      erewrite main_exit; [|done|by rewrite Hrun, Hv]. done.
Qed.

(** The cases of [exit_status] on five sample runs. *)
Lemma exit_status_witness :
  (main (U:=latin1) (sample_env scan roster) sample_args fresh_world).2 = 0%Z ∧
  (main (U:=latin1) (sample_env scan unnamed_roster) sample_args fresh_world).2 = 1%Z ∧
  (main (U:=latin1) env_without_pdf sample_args fresh_world).2 = 1%Z ∧
  (main (U:=latin1) env_without_poppler sample_args fresh_world).2 = 1%Z ∧
  (main (U:=latin1) env_out_of_memory sample_args fresh_world).2 = 2%Z.
Proof.
  split; [|split; [|split; [|split]]].
  - pose proof (exit_status (U:=latin1) (sample_env scan roster) sample_args fresh_world) as H.
    cbv zeta in H. destruct H as [_ H]. destruct (H eq_refl) as (_ & _ & _ & H4).
    destruct (H4 scan eq_refl eq_refl ltac:(repeat constructor)) as (_ & _ & _ & _ & _ & H6).
    apply (H6 roster);
      [reflexivity|reflexivity|apply list_elem_of_here|reflexivity|reflexivity].
  - pose proof (exit_status (U:=latin1) (sample_env scan unnamed_roster) sample_args
                  fresh_world) as H.
    cbv zeta in H. destruct H as [_ H]. destruct (H eq_refl) as (_ & _ & _ & H4).
    destruct (H4 scan eq_refl eq_refl ltac:(repeat constructor)) as (_ & _ & H3 & _).
    apply (H3 unnamed_roster); [reflexivity|reflexivity|].
    vm_compute. intros E. repeat (apply elem_of_cons in E as [E|E]; [discriminate E|]).
    by apply elem_of_nil in E.
  - pose proof (exit_status (U:=latin1) env_without_pdf sample_args fresh_world) as H.
    cbv zeta in H. destruct H as [_ H]. destruct (H eq_refl) as (H1 & _).
    apply H1. reflexivity.
  - pose proof (exit_status (U:=latin1) env_without_poppler sample_args fresh_world) as H.
    cbv zeta in H. destruct H as [_ H]. destruct (H eq_refl) as (_ & H2 & _).
    apply (H2 PDFInfoNotInstalledError); reflexivity.
  - pose proof (exit_status (U:=latin1) env_out_of_memory sample_args fresh_world) as H.
    cbv zeta in H. destruct H as [_ H]. destruct (H eq_refl) as (_ & _ & _ & H4).
    destruct (H4 scan eq_refl eq_refl ltac:(repeat constructor)) as (_ & H2 & _).
    apply (H2 (OtherException "MemoryError")); reflexivity.
Defined.

(** C8.  The claim gives a missing external tool the exit status of the
    expected errors.  [main] does so for the rasteriser and misses the OCR
    executable: on a PDF of one page, with no [tesseract] executable,
    [image_to_string] raises [TesseractNotFoundError], which [extract_names]
    neither skips nor wraps into [PdfExtractionError]; the run ends with
    status 2 and its last log record is that of an unexpected error.  That
    is the status a [MemoryError] of the spreadsheet reader gets, while a
    missing rasteriser ends with status 1. *)
Lemma missing_ocr_tool_exit_status :
  (main (U:=latin1) (sample_env [no_tesseract_page] roster) sample_args fresh_world).2 = 2%Z ∧
  last (emitted
          (main (U:=latin1) (sample_env [no_tesseract_page] roster) sample_args fresh_world).1) =
    Some (LogUnexpected TesseractNotFoundError) ∧
  (main (U:=latin1) env_without_poppler sample_args fresh_world).2 = 1%Z ∧
  (main (U:=latin1) env_out_of_memory sample_args fresh_world).2 = 2%Z.
Proof. repeat split; vm_compute; reflexivity. Qed.

(** ** What the driver writes *)

Section driver.
Context {U : Unicode}.

Lemma log_written r w : written (log r w).1 = written w.
Proof. destruct (log_run r w) as (w' & E & _ & Hw & _). by rewrite E. Qed.

Lemma configured_written args w : written (configured args w) = written w.
Proof. unfold configured. by destruct (debug args). Qed.

Lemma main_written env args w w1 r :
  good_extensions args = true →
  pipeline env args (configured args w) = (w1, r) →
  written (main env args w).1 = written w1.
Proof.
  unfold good_extensions, main, configured, pipeline. intros H Hp.
  destruct ((if debug args then set_root_level DEBUG else mret ()) w) as [w0 ?].
  apply andb_true_iff in H as [-> ->]. cbn [negb]. cbn [fst] in Hp. rewrite Hp.
  destruct r as [[]|e]; [apply log_written|].
  destruct (expected e); apply log_written.
Qed.

Lemma main_zero_inv env args w :
  (main env args w).2 = 0%Z →
  good_extensions args = true ∧
  ∃ w1, pipeline env args (configured args w) = (w1, Ok ()).
Proof.
  unfold good_extensions, main, configured, pipeline.
  destruct ((if debug args then set_root_level DEBUG else mret ()) w) as [w0 ?].
  destruct (endswith (lower (pdf args)) (lit ".pdf")); cbn [negb]; [|done].
  destruct (endswith (lower (excel args)) (lit ".xlsx")); cbn [negb]; [|done].
  cbn [fst].
  match goal with |- context [let (_, _) := ?m in _] => destruct m as [w1 [[]|e]] end.
  - intros _. split; [done|]. by exists w1.
  - by destruct (expected e).
Qed.

End driver.

(** C9.  [main] never reads [--pages]: two runs whose arguments differ
    only in that option leave the same world and the same exit status, and
    when every step succeeds the frame written is computed from the set of
    names of all the pages of the PDF. *)
Theorem pages_option_ignored `{U : Unicode} env args p1 p2 w :
  main env (with_pages p1 args) w = main env (with_pages p2 args) w ∧
  (∀ images df,
     let cmd := effective_cmd (tesseract_cmd args) in
     let output_path := InDir OUTPUT_DIR (stem (excel args) ++ lit "_REVISADO.xlsx") in
     good_extensions args = true →
     is_file env (InDir PDF_DIR (pdf args)) = true →
     convert_from_path env (InDir PDF_DIR (pdf args)) (dpi args) = Ok images →
     Forall (fun img => readable_or_skipped (ocr cmd img)) images →
     is_file env (InDir EXCEL_DIR (excel args)) = true →
     read_excel env (InDir EXCEL_DIR (excel args)) = Ok df →
     NAME_COLUMN ∈ df_columns df →
     mkdir_parents env output_path = None →
     (∀ out, to_excel env output_path out = None) →
     written (main env (with_pages p1 args) w).1 =
       written w ++
       [(output_path, annotate (⋃ (page_contribution ∘ ocr cmd <$> images)) df)]).
Proof.
  split; [reflexivity|].
  intros images df cmd output_path Hext Hf Hc Hall Hx Hr Hcol Hm Ht.
  change (main env (with_pages p1 args) w) with (main env args w).
  destruct (extract_names_run env _ (tesseract_cmd args) (dpi args)
              (configured args w) images Hf Hc Hall) as (w1 & Hrun & Hw1 & _).
  apply pipeline_extract_ok in Hrun. fold output_path cmd in Hrun.
  destruct (validate_run env _ output_path (⋃ (page_contribution ∘ ocr cmd <$> images))
              w1 df Hx Hr Hcol Hm (Ht _)) as (w2 & Hv & Hw2).
  rewrite Hv in Hrun. rewrite (main_written env args w w2 _ Hext Hrun).
  by rewrite Hw2, Hw1, configured_written.
Qed.

(** C9 on the sample run, with and without [--pages 1-1]. *)
Lemma pages_option_ignored_witness :
  written (main (U:=latin1) (sample_env scan roster)
             (with_pages (Some (lit "1-1")) sample_args) fresh_world).1 =
  [(InDir OUTPUT_DIR (lit "lista_REVISADO.xlsx"),
    roster ++ [(FLAG_COLUMN, [CBool true; CBool false; CBool false])])] ∧
  main (U:=latin1) (sample_env scan roster) (with_pages (Some (lit "1-1")) sample_args)
    fresh_world =
  main (U:=latin1) (sample_env scan roster) (with_pages None sample_args) fresh_world.
Proof.
  destruct (pages_option_ignored (U:=latin1) (sample_env scan roster) sample_args
              (Some (lit "1-1")) None fresh_world) as [Hsame Hall].
  split; [|exact Hsame].
  rewrite (Hall scan roster);
    [| reflexivity | reflexivity | reflexivity | repeat constructor | reflexivity
     | reflexivity | apply list_elem_of_here | reflexivity | reflexivity ].
  vm_compute. reflexivity.
Defined.

(** C10.  A missing name cell reads [nan], whose normal form is the single
    token [NAN]; every name cell, of whatever kind, gets the flag of the
    normal form of its string form; no set returned by [extract_names]
    contains [NAN]; and in every run of [main] that ends with status 0 the
    frame written flags false every row whose name cell is missing. *)
Theorem missing_cell_flag_false `{U : Unicode} :
  (normalize_name (str_of_cell CNaN) = lit "NAN" ∧ split_ws (lit "NAN") = [lit "NAN"]) ∧
  (∀ names df i v,
     df_cell NAME_COLUMN i df = Some v →
     df_cell FLAG_COLUMN i (annotate names df) =
     Some (CBool (bool_decide (normalize_name (str_of_cell v) ∈ names)))) ∧
  (∀ env p tc d w w' names,
     extract_names env p tc d w = (w', Ok names) → lit "NAN" ∉ names) ∧
  (∀ env args w,
     (main env args w).2 = 0%Z →
     ∃ df out,
       read_excel env (InDir EXCEL_DIR (excel args)) = Ok df ∧
       written (main env args w).1 =
         written w ++ [(InDir OUTPUT_DIR (stem (excel args) ++ lit "_REVISADO.xlsx"), out)] ∧
       ∀ i, df_cell NAME_COLUMN i df = Some CNaN →
            df_cell FLAG_COLUMN i out = Some (CBool false)).
Proof.
  assert (∀ names df i v,
     df_cell NAME_COLUMN i df = Some v →
     df_cell FLAG_COLUMN i (annotate names df) =
     Some (CBool (bool_decide (normalize_name (str_of_cell v) ∈ names)))) as Hflag.
  { intros names df i v Hv. unfold df_cell in *. rewrite annotate_flags.
    destruct (df_get NAME_COLUMN df) as [col|]; [|done]. simpl in *.
    by rewrite list_lookup_fmap, Hv. }
  assert (∀ env p tc d w w' names,
     extract_names env p tc d w = (w', Ok names) → lit "NAN" ∉ names) as Hnan.
  { intros env p tc d w w' names Hrun Hin.
    apply (extract_names_two_tokens _ _ _ _ _ _ _ _ Hrun) in Hin.
    vm_compute in Hin. lia. }
  split; [split; vm_compute; reflexivity|]. split; [exact Hflag|]. split; [exact Hnan|].
  intros env args w Hzero.
  destruct (main_zero_inv env args w Hzero) as (Hext & w2 & Hp).
  pose proof (main_written env args w w2 _ Hext Hp) as Hw.
  unfold pipeline in Hp. rewrite bind_run in Hp.
  destruct (extract_names env (InDir PDF_DIR (pdf args)) (tesseract_cmd args) (dpi args)
              (configured args w)) as [w1 [names|e]] eqn:Hex; [|done].
  pose proof (extract_names_written _ _ _ _ _ _ _ Hex) as Hw1.
  apply validate_inv in Hp as (df & Hr & Hcol & Hw2).
  exists df, (annotate names df). split; [done|]. split.
  { by rewrite Hw, Hw2, Hw1, configured_written. }
  intros i Hi. rewrite (Hflag names df i CNaN Hi). do 2 f_equal.
  apply bool_decide_eq_false.
  replace (normalize_name (str_of_cell CNaN)) with (lit "NAN") by (vm_compute; reflexivity).
  by eapply Hnan.
Qed.

(** C10 on the sample run, whose second row has no name. *)
Lemma missing_cell_flag_false_witness :
  ∃ df out,
    read_excel (sample_env scan roster) (InDir EXCEL_DIR (excel sample_args)) = Ok df ∧
    written (main (U:=latin1) (sample_env scan roster) sample_args fresh_world).1 =
      written fresh_world ++
      [(InDir OUTPUT_DIR (stem (excel sample_args) ++ lit "_REVISADO.xlsx"), out)] ∧
    ∀ i, df_cell NAME_COLUMN i df = Some CNaN →
         df_cell FLAG_COLUMN i out = Some (CBool false).
Proof.
  apply (proj2 (proj2 (proj2 (missing_cell_flag_false (U:=latin1))))).
  vm_compute. reflexivity.
Defined.

(** * Further properties of the code *)

(** ** The normal form, further *)

Lemma split_ws_app_sep a c b :
  isspace c = true → split_ws (a ++ c :: b) = split_ws a ++ split_ws b.
Proof.
  intros Hc. induction a as [|x a IH].
  { simpl. by rewrite Hc. }
  destruct a as [|d a].
  { simpl. destruct (isspace x); [done|]. by rewrite Hc. }
  change ((x :: d :: a) ++ c :: b) with (x :: d :: (a ++ c :: b)).
  rewrite !split_ws_cons2. change (d :: a ++ c :: b) with ((d :: a) ++ c :: b).
  rewrite IH. destruct (isspace x); [done|].
  destruct (isspace d) eqn:Hd; [done|].
  destruct (split_ws_cons_nonspace d a Hd) as (w & ws & ->). done.
Qed.

Lemma unidecode_app `{U : Unicode} a b : unidecode (a ++ b) = unidecode a ++ unidecode b.
Proof. unfold unidecode. by rewrite fmap_app, join_app. Qed.

Lemma sub_non_letters_app a b :
  sub_non_letters (a ++ b) = sub_non_letters a ++ sub_non_letters b.
Proof. unfold sub_non_letters. by rewrite fmap_app. Qed.

Lemma split_ws_normal_form `{U : Unicode} s :
  split_ws (normalize_name s) = upper <$> split_ws (sub_non_letters (unidecode s)).
Proof.
  rewrite normalize_name_words. apply split_ws_join.
  eapply Forall_impl; [apply normal_form_words|]. by intros w [? _].
Qed.

Section case_maps.
Variable f : N → N.
Hypothesis f_space : ∀ c, isspace (f c) = isspace c.
Hypothesis f_letter : ∀ c, is_ascii_letter (f c) = is_ascii_letter c.
Hypothesis f_upper : ∀ c, upper_char (f c) = upper_char c.
Hypothesis f_SPACE : f SPACE = SPACE.

Lemma sub_non_letters_fmap (t : str) : sub_non_letters (f <$> t) = f <$> sub_non_letters t.
Proof.
  unfold sub_non_letters. rewrite <- !list_fmap_compose. apply list_fmap_ext.
  intros _ c _. simpl. rewrite f_space, f_letter.
  by destruct (is_ascii_letter c || isspace c).
Qed.

Lemma split_ws_fmap (t : str) :
  split_ws (f <$> t) = (fun w : str => f <$> w) <$> split_ws t.
Proof.
  induction t as [|c t IH]; [done|].
  destruct t as [|d t].
  { simpl. rewrite f_space. by destruct (isspace c). }
  rewrite !fmap_cons, split_ws_cons2. rewrite <- !fmap_cons, IH, split_ws_cons2.
  rewrite !f_space. destruct (isspace c); [done|]. destruct (isspace d); [done|].
  by destruct (split_ws (d :: t)).
Qed.

Lemma upper_fmap (t : str) : upper (f <$> t) = upper t.
Proof.
  unfold upper. rewrite <- list_fmap_compose. apply list_fmap_ext.
  intros _ c _. apply f_upper.
Qed.

Lemma normalize_name_fmap `{U : Unicode} s :
  Forall (fun c => c < 128) s → Forall (fun c => c < 128) (f <$> s) →
  normalize_name (f <$> s) = normalize_name s.
Proof.
  intros Hs Hfs. rewrite !normalize_name_words, !unidecode_ascii by done.
  rewrite sub_non_letters_fmap, split_ws_fmap, <- list_fmap_compose. f_equal.
  apply list_fmap_ext. intros _ w _. apply upper_fmap.
Qed.

End case_maps.

Lemma join_split_normal_form `{U : Unicode} s :
  join_sp (split_ws (normalize_name s)) = normalize_name s.
Proof. by rewrite split_ws_normal_form, <- normalize_name_words. Qed.

(** X1.  The result of [normalize_name] is made of the capital letters A to
    Z and of spaces only, and it is its own tokens joined by one space: it has
    no space in front or at the end and no two spaces in a row. *)
Theorem normal_form_shape `{U : Unicode} (s : str) :
  Forall (fun c => is_ascii_upper c = true ∨ c = SPACE) (normalize_name s) ∧
  join_sp (split_ws (normalize_name s)) = normalize_name s.
Proof.
  split.
  - rewrite normalize_name_words.
    apply (join_sp_Forall (fun c => is_ascii_upper c = true ∨ c = SPACE)); [by right|].
    eapply Forall_impl; [apply normal_form_words|]. intros w [_ Hw].
    eapply Forall_impl; [exact Hw|]. by left.
  - apply join_split_normal_form.
Qed.

(** X2.  On ASCII input [normalize_name] ignores case: a text, its [lower]
    and its [upper] have the same normal form. *)
Theorem normalize_name_ignores_case `{U : Unicode} (s : str) :
  Forall (fun c => c < 128) s →
  normalize_name (lower s) = normalize_name s ∧
  normalize_name (upper s) = normalize_name s.
Proof.
  intros Hs. split.
  - apply normalize_name_fmap; try done.
    + intros c. unfold lower_char. destruct (is_ascii_upper c) eqn:E; [|done].
      assert (isspace c = false) as -> by chars. assert (97 ≤ c + 32 ≤ 122) by chars. chars.
    + intros c. unfold lower_char. destruct (is_ascii_upper c) eqn:E; [|done].
      assert (is_ascii_letter c = true) as -> by (unfold is_ascii_letter; by rewrite E).
      assert (97 ≤ c + 32 ≤ 122) by chars. chars.
    + intros c. unfold lower_char. destruct (is_ascii_upper c) eqn:E; [|done].
      unfold upper_char. assert (is_ascii_lower (c + 32) = true) as -> by chars.
      assert (is_ascii_lower c = false) as -> by chars. chars.
    + apply Forall_fmap. eapply Forall_impl; [exact Hs|]. intros c Hc. simpl.
      unfold lower_char. destruct (is_ascii_upper c) eqn:E; chars.
  - apply normalize_name_fmap; try done.
    + apply upper_char_space.
    + intros c. unfold upper_char. destruct (is_ascii_lower c) eqn:E; [|done].
      assert (is_ascii_letter c = true) as -> by (unfold is_ascii_letter; by rewrite E, orb_true_r).
      assert (65 ≤ c - 32 ≤ 90) by chars. chars.
    + apply upper_char_idemp.
    + apply Forall_fmap. eapply Forall_impl; [exact Hs|]. intros c Hc. simpl.
      unfold upper_char. destruct (is_ascii_lower c) eqn:E; chars.
Qed.

(** X2 on [Ana-Maria LOPEZ]. *)
Lemma normalize_name_ignores_case_witness :
  normalize_name (U:=latin1) (lower (lit "Ana-Maria LOPEZ")) =
    normalize_name (U:=latin1) (lit "Ana-Maria LOPEZ") ∧
  normalize_name (U:=latin1) (upper (lit "Ana-Maria LOPEZ")) =
    normalize_name (U:=latin1) (lit "Ana-Maria LOPEZ").
Proof.
  apply (normalize_name_ignores_case (U:=latin1)).
  repeat constructor.
Defined.

(** X3.  An ASCII character that is not a letter separates words as a space
    does: the tokens of the normal form of [a ++ c :: b] are those of [a]
    followed by those of [b], and that normal form is the one of
    [a ++ SPACE :: b]. *)
Theorem normalize_name_separator `{U : Unicode} (a b : str) (c : N) :
  c < 128 → is_ascii_letter c = false →
  split_ws (normalize_name (a ++ c :: b)) =
    split_ws (normalize_name a) ++ split_ws (normalize_name b) ∧
  normalize_name (a ++ c :: b) = normalize_name (a ++ SPACE :: b).
Proof.
  intros Hc Hl.
  assert (∀ c', c' < 128 → is_ascii_letter c' = false →
    split_ws (normalize_name (a ++ c' :: b)) =
    split_ws (normalize_name a) ++ split_ws (normalize_name b)) as Hsplit.
  { intros c' Hc' Hl'. rewrite !split_ws_normal_form.
    change (a ++ c' :: b) with (a ++ [c'] ++ b).
    rewrite !unidecode_app, !sub_non_letters_app.
    assert (unidecode [c'] = [c']) as -> by (apply unidecode_ascii; by constructor).
    unfold sub_non_letters at 2. simpl. rewrite Hl'. simpl orb.
    rewrite split_ws_app_sep, fmap_app; [done|]. by destruct (isspace c') eqn:E. }
  split; [by apply Hsplit|].
  rewrite <- (join_split_normal_form (a ++ c :: b)).
  rewrite <- (join_split_normal_form (a ++ SPACE :: b)).
  by rewrite !Hsplit.
Qed.

(** X3 on [ana-maria]. *)
Lemma normalize_name_separator_witness :
  split_ws (normalize_name (U:=latin1) (lit "ana" ++ 45 :: lit "maria")) =
    split_ws (normalize_name (U:=latin1) (lit "ana")) ++
    split_ws (normalize_name (U:=latin1) (lit "maria")) ∧
  normalize_name (U:=latin1) (lit "ana" ++ 45 :: lit "maria") =
    normalize_name (U:=latin1) (lit "ana" ++ SPACE :: lit "maria").
Proof. apply (normalize_name_separator (U:=latin1)); [lia|reflexivity]. Defined.

(** ** The set of names, further *)

Section name_set.
Context {U : Unicode}.

Lemma contribution_elem cmd images n :
  n ∈ ⋃ (page_contribution ∘ ocr cmd <$> images) ↔
  two_tokens n ∧
  ∃ k img text line,
    images !! k = Some img ∧ ocr cmd img = Ok text ∧
    line ∈ splitlines text ∧ line_kept line = true ∧ normalize_name line = n.
Proof.
  rewrite elem_of_union_list. split.
  - intros (X & HX & Hn). apply list_elem_of_fmap in HX as (img & -> & Himg).
    simpl in Hn. destruct (ocr cmd img) as [text|e] eqn:E;
      [|by apply not_elem_of_empty in Hn].
    simpl in Hn. apply elem_of_filter in Hn as [Ht Hn]. split; [done|].
    unfold page_names in Hn. apply elem_of_list_to_set in Hn.
    apply list_elem_of_fmap in Hn as (line & -> & Hl).
    apply list_elem_of_filter in Hl as [Hk Hl].
    apply list_elem_of_lookup_1 in Himg as [k Hk'].
    exists k, img, text, line. repeat split; try done.
    by destruct (line_kept line).
  - intros (Ht & k & img & text & line & Hk & Hocr & Hl & Hkept & <-).
    exists (page_contribution (Ok text)). split.
    + apply list_elem_of_fmap. exists img. split; [simpl; by rewrite Hocr|].
      by eapply list_elem_of_lookup_2.
    + by apply page_contribution_elem.
Qed.

Lemma contribution_mono cmd images images' :
  (∀ img, img ∈ images → img ∈ images') →
  ⋃ (page_contribution ∘ ocr cmd <$> images) ⊆
  ⋃ (page_contribution ∘ ocr cmd <$> images').
Proof.
  intros Hsub n. rewrite !elem_of_union_list.
  intros (X & HX & Hn). exists X. split; [|done].
  apply list_elem_of_fmap in HX as (img & -> & Himg).
  apply list_elem_of_fmap. exists img. split; [done|]. by apply Hsub.
Qed.

Lemma ocr_pages_raise_inv cmd images : ∀ i names w w' e,
  ocr_pages cmd i images names w = (w', Raise e) →
  ∃ img, img ∈ images ∧ ocr cmd img = Raise e ∧ ¬ readable_or_skipped (Raise e).
Proof.
  induction images as [|img images IH]; intros i names w w' e Hrun; [done|].
  cbn [ocr_pages] in Hrun.
  change (img cmd (Some (lit "spa"))) with (ocr cmd img) in Hrun.
  destruct (ocr cmd img) as [text|e0] eqn:E.
  - rewrite bind_run in Hrun.
    destruct (log_run (LogPageNames i (size (page_names text))) w) as (w1 & Hlog & _).
    rewrite Hlog in Hrun. apply IH in Hrun as (img' & Hin & Hocr & He).
    exists img'. split; [by apply list_elem_of_further|done].
  - destruct e0;
      try (injection Hrun as <- <-; exists img;
           split; [apply list_elem_of_here|split; [exact E|by intros []]]).
    rewrite bind_run in Hrun.
    destruct (log_run (LogOcrFailed i (TesseractError status msg)) w) as (w1 & Hlog & _).
    rewrite Hlog in Hrun. apply IH in Hrun as (img' & Hin & Hocr & He).
    exists img'. split; [by apply list_elem_of_further|done].
Qed.

End name_set.

(** X4.  When [extract_names] returns a set, the PDF was rasterised, and a
    string is in the set exactly when it has two tokens and is the normal
    form of a kept line of a page that OCR read; every name of the set is its
    own normal form. *)
Theorem name_set_characterised `{U : Unicode} env p tc d w w' names :
  extract_names env p tc d w = (w', Ok names) →
  ∃ images,
    convert_from_path env p d = Ok images ∧
    (∀ n, n ∈ names ↔
          two_tokens n ∧
          ∃ k img text line,
            images !! k = Some img ∧ ocr (effective_cmd tc) img = Ok text ∧
            line ∈ splitlines text ∧ line_kept line = true ∧ normalize_name line = n) ∧
    (∀ n, n ∈ names → normalize_name n = n).
Proof.
  intros (images & _ & Hc & ->)%extract_names_inv. exists images. split; [done|].
  split; [apply contribution_elem|].
  intros n (_ & _ & _ & _ & line & _ & _ & _ & _ & <-)%contribution_elem.
  rewrite (normalize_name_words line). apply normalize_words_fixed, normal_form_words.
Qed.

(** X4 on the sample scan. *)
Lemma name_set_characterised_witness :
  ∃ images,
    convert_from_path (sample_env scan roster) (InDir PDF_DIR (lit "sua.pdf")) 300%Z = Ok images ∧
    (∀ n, n ∈ ({[ lit "ANA MARIA LOPEZ" ]} ∪ ({[ lit "LUIS RUIZ SOTO" ]} ∪ ∅) : gset str) ↔
          two_tokens n ∧
          ∃ k img text line,
            images !! k = Some img ∧ ocr (effective_cmd None) img = Ok text ∧
            line ∈ splitlines text ∧ line_kept (U:=latin1) line = true ∧
            normalize_name (U:=latin1) line = n) ∧
    (∀ n, n ∈ ({[ lit "ANA MARIA LOPEZ" ]} ∪ ({[ lit "LUIS RUIZ SOTO" ]} ∪ ∅) : gset str) →
          normalize_name (U:=latin1) n = n).
Proof.
  apply (name_set_characterised (U:=latin1) (sample_env scan roster)
           (InDir PDF_DIR (lit "sua.pdf")) None 300%Z fresh_world
           (extract_names (U:=latin1) (sample_env scan roster)
              (InDir PDF_DIR (lit "sua.pdf")) None 300%Z fresh_world).1).
  vm_compute. reflexivity.
Defined.

(** X5.  The set [extract_names] returns depends on the pages as a set: if
    every page image of one document is a page of another, the names of the
    first are among the names of the second; and two documents with the same
    page images, in whatever order and number, give the same names. *)
Theorem name_set_grows_with_pages `{U : Unicode}
    env env' p p' tc d d' w1 w1' w2 w2' images images' names names' :
  convert_from_path env p d = Ok images →
  convert_from_path env' p' d' = Ok images' →
  extract_names env p tc d w1 = (w1', Ok names) →
  extract_names env' p' tc d' w2 = (w2', Ok names') →
  ((∀ img, img ∈ images → img ∈ images') → names ⊆ names') ∧
  ((∀ img, img ∈ images ↔ img ∈ images') → names = names').
Proof.
  intros Hc Hc' (imgs & _ & Hc1 & ->)%extract_names_inv
    (imgs' & _ & Hc2 & ->)%extract_names_inv.
  rewrite Hc in Hc1. rewrite Hc' in Hc2. injection Hc1 as <-. injection Hc2 as <-.
  split.
  - apply contribution_mono.
  - intros Hsame. apply (anti_symm (⊆)); apply contribution_mono; intros img; apply Hsame.
Qed.

(** X5 on the sample scan and on its pages in reverse order followed by
    the scan itself. *)
Lemma name_set_grows_with_pages_witness :
  (extract_names (U:=latin1) (sample_env scan roster) (InDir PDF_DIR (lit "sua.pdf"))
     None 300%Z fresh_world).2 =
  (extract_names (U:=latin1) (sample_env (reverse scan ++ scan) roster)
     (InDir PDF_DIR (lit "sua.pdf")) None 300%Z fresh_world).2.
Proof.
  destruct (extract_names (U:=latin1) (sample_env scan roster)
              (InDir PDF_DIR (lit "sua.pdf")) None 300%Z fresh_world)
    as [w1 [names|e]] eqn:E1; [|vm_compute in E1; discriminate E1].
  destruct (extract_names (U:=latin1) (sample_env (reverse scan ++ scan) roster)
              (InDir PDF_DIR (lit "sua.pdf")) None 300%Z fresh_world)
    as [w2 [names'|e]] eqn:E2; [|vm_compute in E2; discriminate E2].
  simpl. f_equal.
  apply (proj2 (name_set_grows_with_pages (U:=latin1)
                  (sample_env scan roster) (sample_env (reverse scan ++ scan) roster)
                  (InDir PDF_DIR (lit "sua.pdf")) (InDir PDF_DIR (lit "sua.pdf"))
                  None 300%Z 300%Z fresh_world w1 fresh_world w2
                  scan (reverse scan ++ scan) names names' eq_refl eq_refl E1 E2)).
  intros img. rewrite elem_of_app, elem_of_reverse. tauto.
Defined.

(** X6.  When [extract_names] raises, nothing has been written, and the
    exception is [PdfExtractionError] for a missing file, or
    [PdfExtractionError] for a failure of the rasteriser (with the poppler
    message exactly for [PDFInfoNotInstalledError]), or else the exception
    that OCR raised on one of the pages, which is not a [TesseractError]. *)
Theorem extract_names_raises `{U : Unicode} env p tc d w w' e :
  extract_names env p tc d w = (w', Raise e) →
  written w' = written w ∧
  ((is_file env p = false ∧ e = PdfExtractionError (PdfNotFound p)) ∨
   (∃ e0, convert_from_path env p d = Raise e0 ∧
          e = PdfExtractionError match e0 with
                                 | PDFInfoNotInstalledError => PopplerNotInstalled
                                 | _ => ConversionFailed
                                 end) ∨
   (∃ images img,
      convert_from_path env p d = Ok images ∧ img ∈ images ∧
      ocr (effective_cmd tc) img = Raise e ∧ ¬ readable_or_skipped (Raise e))).
Proof.
  intros Hrun. split; [by eapply extract_names_written|].
  unfold extract_names in Hrun. destruct (is_file env p) eqn:Hf; cbn [negb] in Hrun.
  2:{ left. by injection Hrun as _ <-. }
  right. rewrite bind_run in Hrun. unfold try_except in Hrun. rewrite bind_run in Hrun.
  destruct (log_run (LogConverting p d) w) as (w1 & Hlog & _). rewrite Hlog in Hrun.
  unfold lift in Hrun. destruct (convert_from_path env p d) as [images|e0].
  - right. rewrite bind_run in Hrun.
    destruct (ocr_pages (effective_cmd tc) 1 images ∅ w1) as [w2 [names|e1]] eqn:E.
    + rewrite bind_run in Hrun.
      destruct (log_run (LogTotalNames (size names)) w2) as (w3 & Hlog3 & _).
      by rewrite Hlog3 in Hrun.
    + injection Hrun as _ <-. apply ocr_pages_raise_inv in E as (img & Hin & Hocr & He).
      by exists images, img.
  - left. exists e0. split; [done|]. destruct e0; by injection Hrun as _ <-.
Qed.

(** X6 on a PDF that cannot be rasterised. *)
Lemma extract_names_raises_witness :
  written (extract_names (U:=latin1) env_broken_pdf (InDir PDF_DIR (lit "sua.pdf"))
             None 300%Z fresh_world).1 = written fresh_world ∧
  (extract_names (U:=latin1) env_broken_pdf (InDir PDF_DIR (lit "sua.pdf"))
     None 300%Z fresh_world).2 = Raise (PdfExtractionError ConversionFailed).
Proof.
  destruct (extract_names (U:=latin1) env_broken_pdf (InDir PDF_DIR (lit "sua.pdf"))
              None 300%Z fresh_world) as [w' [names|e]] eqn:E;
    [vm_compute in E; discriminate E|].
  destruct (extract_names_raises (U:=latin1) _ _ _ _ _ _ _ E) as [Hw _].
  split; [exact Hw|]. vm_compute in E. injection E as _ <-. reflexivity.
Defined.

(** ** Results and files do not depend on the log *)

Lemma oblivious_ret {A} (a : A) : oblivious (mret a) (Ok a) [].
Proof. intros w. simpl. by rewrite app_nil_r. Qed.

Lemma oblivious_raise {A} (e : exn) : oblivious (raise e : M A) (Raise e) [].
Proof. intros w. simpl. by rewrite app_nil_r. Qed.

Lemma oblivious_lift {A} (r : result A) : oblivious (lift r) r [].
Proof. intros w. simpl. by rewrite app_nil_r. Qed.

Lemma oblivious_log r : oblivious (log r) (Ok ()) [].
Proof.
  intros w. destruct (log_run r w) as (w' & E & _ & Hw & _). rewrite E. simpl.
  by rewrite Hw, app_nil_r.
Qed.

Lemma oblivious_bind_ok {A B} (m : M A) (f : A → M B) a fs r fs' :
  oblivious m (Ok a) fs → oblivious (f a) r fs' → oblivious (m ≫= f) r (fs ++ fs').
Proof.
  intros Hm Hf w. rewrite bind_run. destruct (Hm w) as [Hr Hw].
  destruct (m w) as [w1 r1]. simpl in *. subst r1.
  destruct (Hf w1) as [Hr' Hw']. by rewrite Hr', Hw', Hw, app_assoc.
Qed.

Lemma oblivious_bind_raise {A B} (m : M A) (f : A → M B) e fs :
  oblivious m (Raise e) fs → oblivious (m ≫= f) (Raise e) fs.
Proof.
  intros Hm w. rewrite bind_run. destruct (Hm w) as [Hr Hw].
  destruct (m w) as [w1 r1]. simpl in *. by subst r1.
Qed.

Lemma oblivious_try_ok {A} (m : M A) (h : exn → M A) a fs :
  oblivious m (Ok a) fs → oblivious (try_except m h) (Ok a) fs.
Proof.
  intros Hm w. unfold try_except. destruct (Hm w) as [Hr Hw].
  destruct (m w) as [w1 r1]. simpl in *. by subst r1.
Qed.

Lemma oblivious_try_raise {A} (m : M A) (h : exn → M A) e fs r fs' :
  oblivious m (Raise e) fs → oblivious (h e) r fs' →
  oblivious (try_except m h) r (fs ++ fs').
Proof.
  intros Hm Hh w. unfold try_except. destruct (Hm w) as [Hr Hw].
  destruct (m w) as [w1 r1]. simpl in *. subst r1.
  destruct (Hh w1) as [Hr' Hw']. by rewrite Hr', Hw', Hw, app_assoc.
Qed.

Lemma oblivious_write env p df :
  oblivious (write_excel env p df)
    (match to_excel env p df with Some e => Raise e | None => Ok () end)
    (match to_excel env p df with Some _ => [] | None => [(p, df)] end).
Proof.
  intros w. unfold write_excel. destruct (to_excel env p df); simpl; [|done].
  by rewrite app_nil_r.
Qed.

Lemma oblivious_make_parents env p :
  oblivious (make_parents env p)
    (match mkdir_parents env p with Some e => Raise e | None => Ok () end) [].
Proof.
  intros w. rewrite make_parents_run. destruct (mkdir_parents env p); simpl;
    by rewrite app_nil_r.
Qed.

Section oblivious_runs.
Context {U : Unicode}.

Lemma ocr_pages_oblivious cmd images : ∀ i names,
  ∃ r, oblivious (ocr_pages cmd i images names) r [].
Proof.
  induction images as [|img images IH]; intros i names.
  { eexists. apply oblivious_ret. }
  cbn [ocr_pages]. destruct (img cmd (Some (lit "spa"))) as [text|e].
  - destruct (IH (S i) (names ∪ filter two_tokens (page_names text))) as [r Hr].
    exists r. apply (oblivious_bind_ok _ _ () [] r []); [apply oblivious_log|done].
  - destruct e; try (eexists; apply oblivious_raise).
    destruct (IH (S i) names) as [r Hr].
    exists r. apply (oblivious_bind_ok _ _ () [] r []); [apply oblivious_log|done].
Qed.

Lemma extract_names_oblivious env p tc d :
  ∃ r, oblivious (extract_names env p tc d) r [].
Proof.
  unfold extract_names. destruct (is_file env p); cbn [negb];
    [|eexists; apply oblivious_raise].
  destruct (convert_from_path env p d) as [images|e] eqn:Hc.
  - assert (oblivious
              (try_except
                 (log (LogConverting p d);; lift (Ok images))
                 (fun exc => match exc with
                             | PDFInfoNotInstalledError =>
                                 raise (PdfExtractionError PopplerNotInstalled)
                             | _ => raise (PdfExtractionError ConversionFailed)
                             end)) (Ok images) []) as Hconv.
    { apply oblivious_try_ok.
      apply (oblivious_bind_ok _ _ () [] _ []); [apply oblivious_log|].
      apply oblivious_lift. }
    destruct (ocr_pages_oblivious (effective_cmd tc) images 1%nat ∅) as [[names|e] Hr].
    + exists (Ok names). apply (oblivious_bind_ok _ _ images [] _ []); [done|].
      apply (oblivious_bind_ok _ _ names [] _ []); [done|].
      apply (oblivious_bind_ok _ _ () [] _ []); [apply oblivious_log|apply oblivious_ret].
    + exists (Raise e). apply (oblivious_bind_ok _ _ images [] _ []); [done|].
      by apply oblivious_bind_raise.
  - destruct e;
      (eexists; apply oblivious_bind_raise;
       eapply (oblivious_try_raise _ _ _ [] _ []);
       [apply (oblivious_bind_ok _ _ () [] _ []);
          [apply oblivious_log|apply oblivious_lift]
       |apply oblivious_raise]).
Qed.

Lemma validate_oblivious env ep op names :
  ∃ r fs, oblivious (validate env ep op names) r fs.
Proof.
  unfold validate. destruct (is_file env ep); cbn [negb];
    [|eexists _, _; apply oblivious_raise].
  destruct (read_excel env ep) as [df|e] eqn:Hr.
  - assert (oblivious
              (try_except (lift (Ok df))
                 (fun exc => log (LogReadError exc);; raise exc)) (Ok df) []) as Hread.
    { apply oblivious_try_ok. apply oblivious_lift. }
    destruct (bool_decide (NAME_COLUMN ∈ df_columns df)) eqn:Hcol.
    2:{ eexists _, _. eapply (oblivious_bind_ok _ _ df [] _ []); [done|].
        rewrite Hcol. cbn [negb]. apply oblivious_raise. }
    destruct (mkdir_parents env op) as [e|] eqn:Hm.
    { eexists _, _. eapply (oblivious_bind_ok _ _ df [] _ []); [done|].
      rewrite Hcol. cbn [negb]. apply oblivious_bind_raise.
      pose proof (oblivious_make_parents env op) as H. by rewrite Hm in H. }
    destruct (to_excel env op (annotate names df)) as [e|] eqn:Ht.
    + eexists _, _. eapply (oblivious_bind_ok _ _ df [] _ _); [done|].
      rewrite Hcol. cbn [negb].
      eapply (oblivious_bind_ok _ _ () [] _ _).
      { pose proof (oblivious_make_parents env op) as H. by rewrite Hm in H. }
      apply oblivious_bind_raise.
      eapply (oblivious_try_raise _ _ e [] _ []).
      * pose proof (oblivious_write env op (annotate names df)) as H. by rewrite Ht in H.
      * eapply (oblivious_bind_ok _ _ () [] _ []); [apply oblivious_log|].
        apply oblivious_raise.
    + eexists _, _. eapply (oblivious_bind_ok _ _ df [] _ _); [done|].
      rewrite Hcol. cbn [negb].
      eapply (oblivious_bind_ok _ _ () [] _ _).
      { pose proof (oblivious_make_parents env op) as H. by rewrite Hm in H. }
      eapply (oblivious_bind_ok _ _ () _ _ []).
      * apply oblivious_try_ok.
        pose proof (oblivious_write env op (annotate names df)) as H. rewrite Ht in H.
        exact H.
      * apply oblivious_log.
  - eexists _, _. apply oblivious_bind_raise.
    eapply (oblivious_try_raise _ _ e [] _ []).
    + apply oblivious_lift.
    + eapply (oblivious_bind_ok _ _ () [] _ []); [apply oblivious_log|].
      apply oblivious_raise.
Qed.

Lemma pipeline_oblivious env args : ∃ r fs, oblivious (pipeline env args) r fs.
Proof.
  unfold pipeline.
  destruct (extract_names_oblivious env (InDir PDF_DIR (pdf args)) (tesseract_cmd args)
              (dpi args)) as [[names|e] Hex].
  - destruct (validate_oblivious env (InDir EXCEL_DIR (excel args))
                (InDir OUTPUT_DIR (stem (excel args) ++ lit "_REVISADO.xlsx")) names)
      as (r & fs & Hv).
    exists r, ([] ++ fs). by eapply oblivious_bind_ok.
  - exists (Raise e), []. by apply oblivious_bind_raise.
Qed.

Lemma main_bad_extension_written env args w :
  good_extensions args = false → written (main env args w).1 = written w.
Proof.
  unfold good_extensions, main. intros H.
  pose proof (configured_written args w) as Hcw. unfold configured in Hcw.
  destruct ((if debug args then set_root_level DEBUG else mret ()) w) as [w0 ?].
  cbn [fst] in Hcw.
  destruct (endswith (lower (pdf args)) (lit ".pdf")); cbn [negb].
  - cbn [andb] in H. rewrite H. cbn [negb fst]. by rewrite log_written.
  - cbn [fst]. by rewrite log_written.
Qed.

Lemma log_error_run r w :
  record_level r = ERROR →
  log r w = ({| root_level := root_level w; emitted := emitted w ++ [r];
                written := written w |}, Ok ()).
Proof.
  intros Hr. unfold log. rewrite Hr, decide_True; [done|].
  destruct (root_level w); simpl; lia.
Qed.

Lemma validate_raise_written env ep op names w w' e :
  validate env ep op names w = (w', Raise e) → written w' = written w.
Proof.
  unfold validate. destruct (is_file env ep); cbn [negb]; [|by intros [= <- _]].
  rewrite bind_run. unfold try_except, lift.
  destruct (read_excel env ep) as [df|e0].
  2:{ rewrite bind_run. destruct (log_run (LogReadError e0) w) as (w1 & -> & _ & Hw & _).
      by intros [= <- _]. }
  case_bool_decide as Hc; cbn [negb]; [|by intros [= <- _]].
  rewrite bind_run, make_parents_run.
  destruct (mkdir_parents env op); [by intros [= <- _]|]. rewrite bind_run.
  unfold write_excel. destruct (to_excel env op (annotate names df)) as [e1|].
  { rewrite bind_run. destruct (log_run (LogWriteError op e1) w) as (w1 & -> & _ & Hw & _).
    by intros [= <- _]. }
  match goal with |- context [log ?r ?w0] =>
    destruct (log_run r w0) as (w1 & -> & _) end.
  done.
Qed.

End oblivious_runs.

(** X7.  [--debug] changes the log only: whatever the worlds the two runs
    start from, the exit status of [main] and the files it writes are the
    same with the option and without it. *)
Theorem debug_changes_only_the_log `{U : Unicode} env args b w w' :
  (main env (with_debug b args) w').2 = (main env args w).2 ∧
  ∃ files, written (main env args w).1 = written w ++ files ∧
           written (main env (with_debug b args) w').1 = written w' ++ files.
Proof.
  destruct (good_extensions args) eqn:Hext.
  - destruct (pipeline_oblivious env args) as (r & fs & Hobl).
    assert (∀ a w0, good_extensions a = true → pipeline env a = pipeline env args →
              (main env a w0).2 = exit_of r ∧
              written (main env a w0).1 = written w0 ++ fs) as Hrun.
    { intros a w0 Ha Hp. destruct (Hobl (configured a w0)) as [Hr Hw].
      rewrite <- Hp in Hr, Hw.
      destruct (pipeline env a (configured a w0)) as [w1 r1] eqn:E. simpl in *. subst r1.
      split; [by eapply main_exit|].
      by rewrite (main_written env a w0 w1 _ Ha E), Hw, configured_written. }
    destruct (Hrun args w Hext eq_refl) as [-> Hw1].
    destruct (Hrun (with_debug b args) w' Hext eq_refl) as [-> Hw2].
    split; [done|]. by exists fs.
  - rewrite (main_bad_extension env args w Hext).
    rewrite (main_bad_extension env (with_debug b args) w' Hext).
    split; [done|]. exists [].
    rewrite (main_bad_extension_written env args w Hext).
    rewrite (main_bad_extension_written env (with_debug b args) w' Hext).
    by rewrite !app_nil_r.
Qed.

(** X8.  [main] writes a file only when it succeeds: with a status other
    than 0 the files written are those there were; with status 0 exactly one
    file is added, the annotated sheet, in the output directory, under the
    stem of the Excel name followed by [_REVISADO.xlsx]. *)
Theorem output_only_on_success `{U : Unicode} env args w :
  ((main env args w).2 ≠ 0%Z → written (main env args w).1 = written w) ∧
  ((main env args w).2 = 0%Z →
   ∃ names df,
     read_excel env (InDir EXCEL_DIR (excel args)) = Ok df ∧
     NAME_COLUMN ∈ df_columns df ∧
     written (main env args w).1 =
       written w ++
       [(InDir OUTPUT_DIR (stem (excel args) ++ lit "_REVISADO.xlsx"),
         annotate names df)]).
Proof.
  split.
  - intros Hcode. destruct (good_extensions args) eqn:Hext;
      [|by apply main_bad_extension_written].
    destruct (pipeline env args (configured args w)) as [w1 r] eqn:Hp.
    rewrite (main_written env args w w1 r Hext Hp).
    rewrite (main_exit env args w w1 r Hext Hp) in Hcode.
    destruct r as [[]|e]; [done|].
    unfold pipeline in Hp. rewrite bind_run in Hp.
    destruct (extract_names env (InDir PDF_DIR (pdf args)) (tesseract_cmd args)
                (dpi args) (configured args w)) as [w0 [names|e0]] eqn:Hex.
    + apply validate_raise_written in Hp. apply extract_names_written in Hex.
      by rewrite Hp, Hex, configured_written.
    + injection Hp as <- _. apply extract_names_written in Hex.
      by rewrite Hex, configured_written.
  - intros Hzero. destruct (main_zero_inv env args w Hzero) as (Hext & w2 & Hp).
    rewrite (main_written env args w w2 _ Hext Hp).
    unfold pipeline in Hp. rewrite bind_run in Hp.
    destruct (extract_names env (InDir PDF_DIR (pdf args)) (tesseract_cmd args)
                (dpi args) (configured args w)) as [w1 [names|e]] eqn:Hex; [|done].
    apply extract_names_written in Hex.
    apply validate_inv in Hp as (df & Hr & Hcol & Hw2).
    exists names, df. split; [done|]. split; [done|].
    by rewrite Hw2, Hex, configured_written.
Qed.

(** X8 on an output directory that cannot be written. *)
Lemma output_only_on_success_witness :
  written (main (U:=latin1) env_read_only sample_args fresh_world).1 = written fresh_world.
Proof.
  apply (proj1 (output_only_on_success (U:=latin1) env_read_only sample_args fresh_world)).
  vm_compute. discriminate.
Defined.

(** X9.  Failures of [validate] on a sheet that exists: an exception of the
    reader is logged as an error and raised again; an exception of the
    creation of the output directory is raised with no record; an exception
    of the writer is logged as an error, with the output path, and raised
    again.  In the three cases nothing is written. *)
Theorem validate_reports_failures `{U : Unicode} env ep op names w :
  is_file env ep = true →
  (∀ e, read_excel env ep = Raise e →
        validate env ep op names w =
          ({| root_level := root_level w; emitted := emitted w ++ [LogReadError e];
              written := written w |}, Raise e)) ∧
  (∀ df e, read_excel env ep = Ok df → NAME_COLUMN ∈ df_columns df →
           mkdir_parents env op = Some e →
           validate env ep op names w = (w, Raise e)) ∧
  (∀ df e, read_excel env ep = Ok df → NAME_COLUMN ∈ df_columns df →
           mkdir_parents env op = None → to_excel env op (annotate names df) = Some e →
           validate env ep op names w =
             ({| root_level := root_level w; emitted := emitted w ++ [LogWriteError op e];
                 written := written w |}, Raise e)).
Proof.
  intros Hf. split; [|split].
  - intros e Hr. unfold validate. rewrite Hf. cbn [negb].
    rewrite bind_run. unfold try_except, lift. rewrite Hr, bind_run.
    by rewrite log_error_run.
  - intros df e Hr Hc Hm. by eapply validate_mkdir_error.
  - intros df e Hr Hc Hm Ht. unfold validate. rewrite Hf. cbn [negb].
    rewrite bind_run. unfold try_except, lift. rewrite Hr.
    rewrite bool_decide_true by done. cbn [negb].
    rewrite bind_run, make_parents_run, Hm, bind_run.
    unfold write_excel. rewrite Ht, bind_run. by rewrite log_error_run.
Qed.

(** X9 on an output directory that cannot be written. *)
Lemma validate_reports_failures_witness :
  validate (U:=latin1) env_read_only (InDir EXCEL_DIR (lit "lista.xlsx"))
    (InDir OUTPUT_DIR (lit "lista_REVISADO.xlsx")) ∅ fresh_world =
  ({| root_level := INFO;
      emitted := [LogWriteError (InDir OUTPUT_DIR (lit "lista_REVISADO.xlsx"))
                    (OtherException "PermissionError")];
      written := [] |},
   Raise (OtherException "PermissionError")).
Proof.
  apply (proj2 (proj2 (validate_reports_failures (U:=latin1) env_read_only
                         (InDir EXCEL_DIR (lit "lista.xlsx"))
                         (InDir OUTPUT_DIR (lit "lista_REVISADO.xlsx")) ∅ fresh_world
                         eq_refl)) roster);
    [reflexivity|apply list_elem_of_here|reflexivity|reflexivity].
Defined.

(** X10.  Every run of [main] that ends with a status other than 0 ends its
    log with an error record: with status 1, the record of a bad extension or
    of an exception of one of the three expected classes; with status 2, the
    record of an exception of another class. *)
Theorem main_reports_every_failure `{U : Unicode} env args w :
  (main env args w).2 ≠ 0%Z →
  ∃ r, last (emitted (main env args w).1) = Some r ∧ record_level r = ERROR ∧
       ((main env args w).2 = 1%Z →
        r = LogBadPdfExtension ∨ r = LogBadExcelExtension ∨
        ∃ e, r = LogError e ∧ expected e = true) ∧
       ((main env args w).2 = 2%Z → ∃ e, r = LogUnexpected e ∧ expected e = false).
Proof.
  unfold main.
  destruct ((if debug args then set_root_level DEBUG else mret ()) w) as [w0 ?].
  destruct (endswith (lower (pdf args)) (lit ".pdf")); cbn [negb].
  2:{ intros _. exists LogBadPdfExtension. rewrite log_error_run by done. cbn [fst snd emitted].
      rewrite last_snoc. repeat split; try done. by left. }
  destruct (endswith (lower (excel args)) (lit ".xlsx")); cbn [negb].
  2:{ intros _. exists LogBadExcelExtension. rewrite log_error_run by done.
      cbn [fst snd emitted]. rewrite last_snoc. repeat split; try done. right. by left. }
  match goal with |- context [let (_, _) := ?m in _] => destruct m as [w1 [[]|e]] end.
  { done. }
  destruct (expected e) eqn:He; intros _.
  - exists (LogError e). rewrite log_error_run by done. cbn [fst snd emitted].
    rewrite last_snoc. repeat split; try done. right. right. by exists e.
  - exists (LogUnexpected e). rewrite log_error_run by done. cbn [fst snd emitted].
    rewrite last_snoc. repeat split; try done. intros _. by exists e.
Qed.

(** X10 on an output directory that cannot be written. *)
Lemma main_reports_every_failure_witness :
  ∃ r, last (emitted (main (U:=latin1) env_read_only sample_args fresh_world).1) = Some r ∧
       record_level r = ERROR ∧
       ((main (U:=latin1) env_read_only sample_args fresh_world).2 = 1%Z →
        r = LogBadPdfExtension ∨ r = LogBadExcelExtension ∨
        ∃ e, r = LogError e ∧ expected e = true) ∧
       ((main (U:=latin1) env_read_only sample_args fresh_world).2 = 2%Z →
        ∃ e, r = LogUnexpected e ∧ expected e = false).
Proof.
  apply (main_reports_every_failure (U:=latin1) env_read_only sample_args fresh_world).
  vm_compute. discriminate.
Defined.

(** ** Frames, further *)

Lemma filter_df_set (P : str * list cell → Prop) `{!∀ kv, Decision (P kv)} k v df :
  (∀ v', ¬ P (k, v')) → filter P (df_set k v df) = filter P df.
Proof.
  intros Hk. induction df as [|[k' v'] df IH]; simpl.
  - rewrite filter_cons, decide_False by done. done.
  - destruct (decide (k' = k)) as [->|Hne].
    + rewrite !filter_cons, !decide_False by done. done.
    + rewrite !filter_cons, IH. done.
Qed.

Lemma filter_df_drop (P : str * list cell → Prop) `{!∀ kv, Decision (P kv)} k df :
  (∀ v', ¬ P (k, v')) → filter P (df_drop k df) = filter P df.
Proof.
  intros Hk. unfold df_drop. induction df as [|[k' v'] df IH]; [done|].
  rewrite !filter_cons. simpl. destruct (decide (k' ≠ k)) as [Hne|Heq].
  - rewrite filter_cons, IH. done.
  - assert (k' = k) as -> by (by destruct (decide (k' = k))).
    by rewrite IH, decide_False.
Qed.

Lemma df_get_columns k df v : df_get k df = Some v → k ∈ df_columns df.
Proof.
  unfold df_columns. induction df as [|[k' v'] df IH]; simpl; [done|].
  destruct (decide (k' = k)) as [->|Hne].
  - intros _. apply list_elem_of_here.
  - intros H. apply list_elem_of_further. by apply IH.
Qed.

Lemma df_columns_drop k df : k ∉ df_columns (df_drop k df).
Proof.
  unfold df_columns, df_drop. intros H. apply list_elem_of_fmap in H as ([k' v'] & Hk & H).
  apply list_elem_of_filter in H as [Hne _]. simpl in *. by subst.
Qed.

Lemma df_columns_set_inv k v df k' :
  k' ∈ df_columns (df_set k v df) → k' = k ∨ k' ∈ df_columns df.
Proof.
  unfold df_columns. induction df as [|[k2 v2] df IH]; simpl.
  - intros [->|H]%elem_of_cons; [by left|by apply elem_of_nil in H].
  - destruct (decide (k2 = k)) as [->|Hne]; simpl.
    + intros [->|H]%elem_of_cons; [by left|]. right. by apply list_elem_of_further.
    + intros [->|H]%elem_of_cons; [right; apply list_elem_of_here|].
      destruct (IH H) as [->|H']; [by left|]. right. by apply list_elem_of_further.
Qed.

Lemma df_set_set k v v' df : df_set k v (df_set k v' df) = df_set k v df.
Proof.
  induction df as [|[k2 v2] df IH]; simpl.
  - by rewrite decide_True.
  - destruct (decide (k2 = k)) as [->|Hne]; simpl.
    + by rewrite decide_True.
    + by rewrite decide_False, IH.
Qed.

Lemma df_columns_set_cases k v df :
  df_columns (df_set k v df) =
  if bool_decide (k ∈ df_columns df) then df_columns df else (df_columns df ++ [k]).
Proof.
  case_bool_decide as H.
  - by apply df_columns_set.
  - rewrite df_set_fresh by done. unfold df_columns. by rewrite fmap_app.
Qed.

(** X11.  [annotate], the frame computation of [validate], keeps every
    column other than [Existe en SUA] and [_NombreNormalizado], with its
    cells and in order, and leaves the name column as it was; the frame it
    returns has the column [Existe en SUA] and no column
    [_NombreNormalizado]. *)
Theorem annotate_keeps_other_columns `{U : Unicode} (names : gset str) (df : DataFrame) :
  other_columns (annotate names df) = other_columns df ∧
  df_get NAME_COLUMN (annotate names df) = df_get NAME_COLUMN df ∧
  (NORMALIZED_COLUMN ∉ df_columns (annotate names df)) ∧
  FLAG_COLUMN ∈ df_columns (annotate names df).
Proof.
  destruct names_distinct as (H1 & H2 & H3). split; [|split; [|split]].
  - unfold other_columns, annotate.
    rewrite filter_df_drop by (intros v' [_ H]; by apply H).
    rewrite filter_df_set by (intros v' [H _]; by apply H).
    rewrite filter_df_set by (intros v' [_ H]; by apply H). done.
  - unfold annotate. rewrite df_get_drop_ne by done. by rewrite !df_get_set_ne by done.
  - unfold annotate. apply df_columns_drop.
  - eapply df_get_columns. apply annotate_flags.
Qed.

(** X12.  Annotating twice is annotating once: on a sheet without a column
    [_NombreNormalizado], the frame [annotate] returns is left unchanged by
    [annotate] for the same set of names. *)
Theorem annotate_idempotent `{U : Unicode} (names : gset str) (df : DataFrame) :
  NORMALIZED_COLUMN ∉ df_columns df →
  annotate names (annotate names df) = annotate names df.
Proof.
  destruct names_distinct as (H1 & H2 & H3). intros Hn.
  rewrite (annotate_set names df Hn).
  set (flags := flag_of names <$> default [] (df_get NAME_COLUMN df)).
  rewrite annotate_set.
  - rewrite df_get_set_ne by done. fold flags. apply df_set_set.
  - intros [E|H]%df_columns_set_inv; [by apply H3|by apply Hn].
Qed.

(** X12 on the sample roster. *)
Lemma annotate_idempotent_witness :
  annotate (U:=latin1) {[ lit "ANA MARIA LOPEZ" ]}
    (annotate (U:=latin1) {[ lit "ANA MARIA LOPEZ" ]} roster) =
  annotate (U:=latin1) {[ lit "ANA MARIA LOPEZ" ]} roster.
Proof.
  apply (annotate_idempotent (U:=latin1)).
  vm_compute. intros H. repeat (apply elem_of_cons in H as [H|H]; [discriminate H|]).
  by apply elem_of_nil in H.
Defined.

(** X13.  Flags grow with the names: a row flagged true for a set of names
    is flagged true for every larger set. *)
Theorem flags_grow_with_names `{U : Unicode} (names names' : gset str) df i :
  names ⊆ names' →
  df_cell FLAG_COLUMN i (annotate names df) = Some (CBool true) →
  df_cell FLAG_COLUMN i (annotate names' df) = Some (CBool true).
Proof.
  intros Hsub. unfold df_cell. rewrite !annotate_flags. simpl.
  rewrite !list_lookup_fmap. destruct (default [] (df_get NAME_COLUMN df) !! i) as [v|];
    [|done].
  simpl. unfold flag_of. intros [= H]. do 2 f_equal.
  apply bool_decide_eq_true in H. apply bool_decide_eq_true. by apply Hsub.
Qed.

(** X13 on the first row of the sample roster. *)
Lemma flags_grow_with_names_witness :
  df_cell FLAG_COLUMN 0
    (annotate (U:=latin1) ({[ lit "ANA MARIA LOPEZ" ]} ∪ {[ lit "LUIS RUIZ SOTO" ]}) roster) =
  Some (CBool true).
Proof.
  apply (flags_grow_with_names (U:=latin1) {[ lit "ANA MARIA LOPEZ" ]}).
  - apply union_subseteq_l.
  - vm_compute. reflexivity.
Defined.

(** ** The name of the output file *)

Lemma split_on_nonempty sep t : split_on sep t ≠ [].
Proof.
  destruct t as [|c t]; simpl; [done|].
  destruct (c =? sep); [done|]. by destruct (split_on sep t).
Qed.

Lemma split_on_no_sep sep t : sep ∉ t → split_on sep t = [t].
Proof.
  induction t as [|c t IH]; [done|].
  intros [Hne Hin]%not_elem_of_cons. simpl.
  destruct (N.eqb_spec c sep) as [->|_]; [done|]. by rewrite IH.
Qed.

Lemma split_on_app sep a b :
  split_on sep (a ++ sep :: b) = split_on sep a ++ split_on sep b.
Proof.
  induction a as [|c a IH]; simpl.
  - by rewrite N.eqb_refl.
  - destruct (c =? sep); [by rewrite IH|]. rewrite IH.
    pose proof (split_on_nonempty sep a). by destruct (split_on sep a).
Qed.

Lemma rfind_from_None i c t : c ∉ t → rfind_from i c t = None.
Proof.
  revert i. induction t as [|x t IH]; intros i; [done|].
  intros [Hne Hin]%not_elem_of_cons. simpl. rewrite IH by done.
  destruct (N.eqb_spec x c) as [->|_]; done.
Qed.

Lemma rfind_from_last i c a b :
  c ∉ b → rfind_from i c (a ++ c :: b) = Some (i + length a)%nat.
Proof.
  intros Hb. revert i. induction a as [|x a IH]; intros i; simpl.
  - rewrite rfind_from_None by done. by rewrite N.eqb_refl, Nat.add_0_r.
  - rewrite IH. f_equal. lia.
Qed.

(** X14.  The stem of an Excel file name [base.ext] is [base], when [base]
    has a character other than the dot, [ext] is not empty and has no dot,
    and neither has a slash; directories in front of the name do not
    count. *)
Theorem stem_of_excel_name (dir base ext : str) :
  (∃ c, c ∈ base ∧ c ≠ 46) → 47 ∉ base → 47 ∉ ext → 46 ∉ ext → ext ≠ [] →
  stem (base ++ 46 :: ext) = base ∧
  stem (dir ++ 47 :: base ++ 46 :: ext) = base.
Proof.
  intros Hc Hb He Hdot Hext.
  assert (base ≠ []) as Hbase.
  { destruct Hc as (c & Hin & _). intros ->. by apply elem_of_nil in Hin. }
  assert (47 ∉ base ++ 46 :: ext) as Hname.
  { intros [H|H]%elem_of_app; [done|].
    apply elem_of_cons in H as [H|H]; [discriminate H|done]. }
  assert (∀ l, default [] (last (l ++ [base ++ 46 :: ext])) = base ++ 46 :: ext →
               (let name := base ++ 46 :: ext in
                match rfind_from 0 46 name with
                | Some i =>
                    if bool_decide (0 < i)%nat && bool_decide (i < length name - 1)%nat
                    then take i name else name
                | None => name
                end) = base) as Hstem.
  { intros _ _. cbv zeta. rewrite rfind_from_last by done. simpl Nat.add.
    rewrite bool_decide_true by (destruct base; [done|simpl; lia]).
    rewrite bool_decide_true.
    2:{ rewrite length_app. simpl. destruct ext; [done|simpl; lia]. }
    simpl. by rewrite take_app_length. }
  split.
  - unfold stem. rewrite split_on_no_sep by done. simpl last. simpl default.
    apply (Hstem []). done.
  - unfold stem. rewrite split_on_app, (split_on_no_sep 47 (base ++ 46 :: ext)) by done.
    rewrite last_snoc. simpl default. apply (Hstem []). done.
Qed.

(** X14 on [lista.v2.XLSX], alone and under [2025/enero]. *)
Lemma stem_of_excel_name_witness :
  stem (lit "lista.v2.XLSX") = lit "lista.v2" ∧
  stem (lit "2025/enero/lista.v2.XLSX") = lit "lista.v2".
Proof.
  apply (stem_of_excel_name (lit "2025/enero") (lit "lista.v2") (lit "XLSX")).
  - exists 108. split; [apply list_elem_of_here|discriminate].
  - vm_compute. intros H. repeat (apply elem_of_cons in H as [H|H]; [discriminate H|]).
    by apply elem_of_nil in H.
  - vm_compute. intros H. repeat (apply elem_of_cons in H as [H|H]; [discriminate H|]).
    by apply elem_of_nil in H.
  - vm_compute. intros H. repeat (apply elem_of_cons in H as [H|H]; [discriminate H|]).
    by apply elem_of_nil in H.
  - discriminate.
Defined.

(** ** The earlier script, further *)

Lemma lstrip_head t :
  lstrip t = [] ∨ ∃ c u, lstrip t = c :: u ∧ isspace c = false.
Proof.
  induction t as [|c t IH]; [by left|]. simpl.
  destruct (isspace c) eqn:Hc; [done|]. right. by exists c, t.
Qed.

Lemma rstrip_idemp t : rstrip (rstrip t) = rstrip t.
Proof.
  induction t as [|c t IH]; [done|]. simpl.
  destruct (rstrip t) as [|x r] eqn:E.
  - destruct (isspace c) eqn:Hc; [done|]. simpl. by rewrite Hc.
  - change (rstrip (c :: x :: r)) with
      (match rstrip (x :: r) with
       | [] => if isspace c then [] else [c]
       | y :: r' => c :: y :: r'
       end).
    by rewrite IH.
Qed.

Lemma strip_idemp t : strip (strip t) = strip t.
Proof.
  unfold strip. destruct (lstrip_head t) as [->|(c & u & -> & Hc)]; [done|].
  rewrite rstrip_cons_nonspace by done. simpl lstrip. rewrite Hc.
  rewrite <- (rstrip_cons_nonspace c u) by done. apply rstrip_idemp.
Qed.

Lemma elem_of_lstrip x t : x ∈ lstrip t → x ∈ t.
Proof.
  induction t as [|c t IH]; [done|]. simpl.
  destruct (isspace c); [|done]. intros H. by apply list_elem_of_further, IH.
Qed.

Lemma elem_of_rstrip x t : x ∈ rstrip t → x ∈ t.
Proof.
  induction t as [|c t IH]; [done|]. simpl.
  destruct (rstrip t) as [|y r].
  - destruct (isspace c); [by intros ?%elem_of_nil|].
    intros ->%list_elem_of_singleton. apply list_elem_of_here.
  - intros [->|H]%elem_of_cons; [apply list_elem_of_here|].
    by apply list_elem_of_further, IH.
Qed.

Lemma elem_of_strip x t : x ∈ strip t → x ∈ t.
Proof. unfold strip. by intros ?%elem_of_rstrip%elem_of_lstrip. Qed.

Lemma split_on_fields sep t : Forall (fun field => sep ∉ field) (split_on sep t).
Proof.
  induction t as [|c t IH]; simpl.
  - repeat constructor. apply not_elem_of_nil.
  - destruct (N.eqb_spec c sep) as [->|Hne].
    + constructor; [apply not_elem_of_nil|done].
    + destruct (split_on sep t) as [|w ws].
      * repeat constructor. intros [?|?%elem_of_nil]%elem_of_cons; done.
      * inversion IH as [|? ? Hw Hws]; subst. constructor; [|done].
        intros [?|?]%elem_of_cons; done.
Qed.

Lemma ocr_all_inv images : ∀ acc w w' text,
  TesseractAnalysis.ocr_all images acc w = (w', Ok text) →
  w' = w ∧ ∃ texts, Forall2 (fun img t => legacy_ocr img = Ok t) images texts ∧
                    text = acc ++ mjoin texts.
Proof.
  induction images as [|img images IH]; intros acc w w' text Hrun.
  { injection Hrun as <- <-. split; [done|]. exists []. split; [constructor|].
    by rewrite app_nil_r. }
  cbn [TesseractAnalysis.ocr_all] in Hrun. rewrite bind_run in Hrun. unfold lift in Hrun.
  destruct (img TesseractAnalysis.TESSERACT_CMD None) as [t|e] eqn:E; [|done].
  apply IH in Hrun as (-> & texts & Hall & ->). split; [done|].
  exists (t :: texts). split; [by constructor|]. simpl. by rewrite app_assoc.
Qed.

Lemma ocr_all_raise pre img post texts e : ∀ acc w,
  Forall2 (fun img t => legacy_ocr img = Ok t) pre texts →
  legacy_ocr img = Raise e →
  TesseractAnalysis.ocr_all (pre ++ img :: post) acc w = (w, Raise e).
Proof.
  intros acc w H. revert acc. induction H as [|img0 t pre texts H0 _ IH]; intros acc Himg.
  - cbn [app TesseractAnalysis.ocr_all]. rewrite bind_run. unfold lift.
    unfold legacy_ocr in Himg. by rewrite Himg.
  - cbn [app TesseractAnalysis.ocr_all]. rewrite bind_run. unfold lift.
    unfold legacy_ocr in H0. rewrite H0. by apply IH.
Qed.

(** X15.  [extract_names_from_pdf] of [tesseractAnalysis.py] catches
    nothing: an exception of the rasteriser, or of OCR on a page that follows
    pages that were read, is raised as it is and leaves the world unchanged;
    and [main] raises what [extract_names_from_pdf] raises. *)
Theorem legacy_extraction_aborts env p w :
  (∀ e, convert_from_path env p 200 = Raise e →
        TesseractAnalysis.extract_names_from_pdf env p w = (w, Raise e)) ∧
  (∀ pre img post texts e,
     convert_from_path env p 200 = Ok (pre ++ img :: post) →
     Forall2 (fun img t => legacy_ocr img = Ok t) pre texts →
     legacy_ocr img = Raise e →
     TesseractAnalysis.extract_names_from_pdf env p w = (w, Raise e)) ∧
  (∀ e, TesseractAnalysis.extract_names_from_pdf env (Rel (lit "SUA/input.pdf")) w =
          (w, Raise e) →
        TesseractAnalysis.main env w = (w, Raise e)).
Proof.
  split; [|split].
  - intros e Hc. unfold TesseractAnalysis.extract_names_from_pdf.
    rewrite bind_run. unfold lift. by rewrite Hc.
  - intros pre img post texts e Hc Hall Himg.
    unfold TesseractAnalysis.extract_names_from_pdf.
    rewrite bind_run. unfold lift. rewrite Hc, bind_run.
    by rewrite (ocr_all_raise pre img post texts e).
  - intros e Hex. unfold TesseractAnalysis.main. by rewrite bind_run, Hex.
Qed.

(** X15 on the sample scan, whose second page cannot be read. *)
Lemma legacy_extraction_aborts_witness :
  TesseractAnalysis.extract_names_from_pdf (sample_env scan legacy_roster)
    (Rel (lit "SUA/input.pdf")) fresh_world =
    (fresh_world, Raise (TesseractError 1 (lit "Error opening data file"))).
Proof.
  apply (proj1 (proj2 (legacy_extraction_aborts (sample_env scan legacy_roster)
                         (Rel (lit "SUA/input.pdf")) fresh_world))
           [page (lit "ANA MARIA LOPEZ" ++ [10] ++ lit "MARIA")] unreadable_page
           [page (lit "Luis  Ruiz-Soto 123")]
           [lit "ANA MARIA LOPEZ" ++ [10] ++ lit "MARIA"]).
  - reflexivity.
  - repeat constructor.
  - reflexivity.
Defined.

(** X16.  The names [extract_names_from_pdf] returns are stripped lines:
    none is empty, none has white space at either end, none contains a line
    feed; and the call leaves the world as it was. *)
Theorem legacy_names_are_stripped_lines env p w w' names :
  TesseractAnalysis.extract_names_from_pdf env p w = (w', Ok names) →
  w' = w ∧ ∀ n, n ∈ names → n ≠ [] ∧ strip n = n ∧ 10 ∉ n.
Proof.
  unfold TesseractAnalysis.extract_names_from_pdf. rewrite bind_run. unfold lift.
  destruct (convert_from_path env p 200) as [images|e]; [|done].
  rewrite bind_run.
  destruct (TesseractAnalysis.ocr_all images [] w) as [w1 [text|e]] eqn:E; [|done].
  apply ocr_all_inv in E as (-> & _). intros [= <- <-]. split; [done|].
  intros n (line & -> & Hl)%list_elem_of_fmap.
  apply list_elem_of_filter in Hl as [Hne Hl]. split; [done|]. split; [apply strip_idemp|].
  intros H%elem_of_strip.
  pose proof (split_on_fields 10 text) as Hf. rewrite Forall_forall in Hf.
  by apply (Hf line Hl).
Qed.

(** X16 on the sample scan of the earlier script. *)
Lemma legacy_names_are_stripped_lines_witness :
  fresh_world = fresh_world ∧
  ∀ n, n ∈ [lit "ANA MARIA LOPEZ"; lit "MARIA"] → n ≠ [] ∧ strip n = n ∧ 10 ∉ n.
Proof.
  apply (legacy_names_are_stripped_lines (sample_env legacy_scan legacy_roster)
           (Rel (lit "SUA/input.pdf")) fresh_world fresh_world).
  vm_compute. reflexivity.
Defined.

(** X17.  [validate_names] of [tesseractAnalysis.py] on a sheet that has
    the column [Name].  When the writer succeeds, one frame is written: its
    columns are those of the sheet, followed by [Exists in PDF] unless the
    sheet has that label already; every other column is in its place, and a
    name cell that is not a string is flagged false.  When the writer fails,
    its exception is raised and nothing is written. *)
Theorem legacy_validate_frame env (names : list str) ep op w df :
  read_excel env ep = Ok df → TesseractAnalysis.NAME ∈ df_columns df →
  ((∀ out, to_excel env op out = None) →
   ∃ out,
     TesseractAnalysis.validate_names env names ep op w =
       ({| root_level := root_level w; emitted := emitted w;
           written := written w ++ [(op, out)] |}, Ok ()) ∧
     df_columns out =
       (if bool_decide (TesseractAnalysis.FLAG ∈ df_columns df)
        then df_columns df else (df_columns df ++ [TesseractAnalysis.FLAG])) ∧
     (∀ i k v, k ≠ TesseractAnalysis.FLAG → df !! i = Some (k, v) →
               out !! i = Some (k, v)) ∧
     (∀ i v, df_cell TesseractAnalysis.NAME i df = Some v → (∀ s, v ≠ CStr s) →
             df_cell TesseractAnalysis.FLAG i out = Some (CBool false))) ∧
  (∀ e, (∀ out, to_excel env op out = Some e) →
        TesseractAnalysis.validate_names env names ep op w = (w, Raise e)).
Proof.
  intros Hr Hc. split.
  - intros Ht. eexists. split; [by apply validate_names_run|].
    split; [apply df_columns_set_cases|]. split.
    + intros i k v Hk Hi. by apply df_set_other.
    + intros i v Hv Hns. unfold df_cell in *. rewrite df_get_set_eq.
      destruct (df_get TesseractAnalysis.NAME df) as [col|]; [|done]. simpl in *.
      rewrite list_lookup_fmap, Hv. simpl. destruct v; try done. by destruct (Hns s).
  - intros e Ht. unfold TesseractAnalysis.validate_names.
    rewrite bind_run. unfold lift. rewrite Hr, bool_decide_true by done.
    cbn [negb]. unfold write_excel. by rewrite Ht.
Qed.

(** X17 on a sheet with a missing and a numeric name. *)
Lemma legacy_validate_frame_witness :
  ∃ out,
    TesseractAnalysis.validate_names (sample_env legacy_scan mixed_legacy_roster)
      [lit "ANA MARIA LOPEZ"; lit "MARIA"]
      (Rel (lit "EXCEL/input.xlsx")) (Rel (lit "OUTPUT/output.xlsx")) fresh_world =
      ({| root_level := INFO; emitted := [];
          written := [(Rel (lit "OUTPUT/output.xlsx"), out)] |}, Ok ()) ∧
    out = mixed_legacy_roster ++
          [(TesseractAnalysis.FLAG, [CBool true; CBool false; CBool false])].
Proof.
  destruct (proj1 (legacy_validate_frame (sample_env legacy_scan mixed_legacy_roster)
                     [lit "ANA MARIA LOPEZ"; lit "MARIA"]
                     (Rel (lit "EXCEL/input.xlsx")) (Rel (lit "OUTPUT/output.xlsx"))
                     fresh_world mixed_legacy_roster eq_refl
                     ltac:(apply list_elem_of_further, list_elem_of_here))
              (fun _ => eq_refl)) as (out & Hrun & _).
  exists out. split; [exact Hrun|]. vm_compute in Hrun. by injection Hrun as <-.
Defined.

(** ** Rows that cannot match *)

Lemma lit_app s t : lit (s +:+ t) = lit s ++ lit t.
Proof. induction s as [|a s IH]; [done|]. simpl. by rewrite IH. Qed.

Lemma pretty_N_go_chars (P : N → Prop) x : ∀ s,
  (∀ d, d < 10 → P (Ascii.N_of_ascii (pretty_N_char d))) →
  Forall P (lit s) → Forall P (lit (pretty_N_go x s)).
Proof.
  induction (N.lt_wf_0 x) as [x _ IH]. intros s HP Hs.
  assert (x = 0 ∨ 0 < x) as [->|Hx] by lia.
  - by rewrite pretty_N_go_0.
  - rewrite pretty_N_go_step by done. apply IH; [by apply N.div_lt|done|].
    simpl. constructor; [|done]. apply HP. by apply N.mod_lt.
Qed.

Lemma pretty_Z_chars (z : Z) :
  Forall (fun c => c < 128 ∧ is_ascii_letter c = false) (lit (pretty z)).
Proof.
  assert (∀ d, d < 10 →
            Ascii.N_of_ascii (pretty_N_char d) < 128 ∧
            is_ascii_letter (Ascii.N_of_ascii (pretty_N_char d)) = false) as Hd.
  { intros d _. unfold pretty_N_char. repeat case_match; by vm_compute. }
  assert (∀ p, Forall (fun c => c < 128 ∧ is_ascii_letter c = false)
                 (lit (pretty (N.pos p)))) as Hp.
  { intros p. unfold pretty, pretty_N. rewrite decide_False by done.
    apply pretty_N_go_chars; [done|constructor]. }
  destruct z as [|p|p].
  - repeat constructor.
  - apply Hp.
  - change (pretty (Z.neg p)) with ("-" +:+ pretty (N.pos p))%string.
    rewrite lit_app. apply Forall_app. split; [by repeat constructor|apply Hp].
Qed.

Lemma normalize_name_no_letter `{U : Unicode} s :
  Forall (fun c => c < 128 ∧ is_ascii_letter c = false) s → normalize_name s = [].
Proof.
  intros Hs. apply normalize_name_empty. rewrite unidecode_ascii.
  - eapply Forall_impl; [exact Hs|]. by intros c [_ ?].
  - eapply Forall_impl; [exact Hs|]. by intros c [? _].
Qed.

Lemma flag_of_cell `{U : Unicode} names df i v :
  df_cell NAME_COLUMN i df = Some v →
  df_cell FLAG_COLUMN i (annotate names df) = Some (flag_of names v).
Proof.
  intros Hv. unfold df_cell in *. rewrite annotate_flags.
  destruct (df_get NAME_COLUMN df) as [col|]; [|done]. simpl in *.
  by rewrite list_lookup_fmap, Hv.
Qed.

Lemma main_zero_written `{U : Unicode} env args w :
  (main env args w).2 = 0%Z →
  ∃ w0 w1 names df,
    extract_names env (InDir PDF_DIR (pdf args)) (tesseract_cmd args) (dpi args) w0 =
      (w1, Ok names) ∧
    read_excel env (InDir EXCEL_DIR (excel args)) = Ok df ∧
    NAME_COLUMN ∈ df_columns df ∧
    written (main env args w).1 =
      written w ++
      [(InDir OUTPUT_DIR (stem (excel args) ++ lit "_REVISADO.xlsx"), annotate names df)].
Proof.
  intros Hzero. destruct (main_zero_inv env args w Hzero) as (Hext & w2 & Hp).
  pose proof (main_written env args w w2 _ Hext Hp) as Hw.
  unfold pipeline in Hp. rewrite bind_run in Hp.
  destruct (extract_names env (InDir PDF_DIR (pdf args)) (tesseract_cmd args) (dpi args)
              (configured args w)) as [w1 [names|e]] eqn:Hex; [|done].
  pose proof (extract_names_written _ _ _ _ _ _ _ Hex) as Hw1.
  apply validate_inv in Hp as (df & Hr & Hcol & Hw2).
  exists (configured args w), w1, names, df. split; [done|]. split; [done|].
  split; [done|]. by rewrite Hw, Hw2, Hw1, configured_written.
Qed.

(** X18.  In every run of [main] that ends with status 0, a row whose name
    has fewer than two tokens in normal form is flagged false, and so is
    every row whose name cell is an integer. *)
Theorem short_names_never_match `{U : Unicode} env args w :
  (main env args w).2 = 0%Z →
  ∃ df out,
    read_excel env (InDir EXCEL_DIR (excel args)) = Ok df ∧
    written (main env args w).1 =
      written w ++ [(InDir OUTPUT_DIR (stem (excel args) ++ lit "_REVISADO.xlsx"), out)] ∧
    (∀ i v, df_cell NAME_COLUMN i df = Some v →
            ¬ two_tokens (normalize_name (str_of_cell v)) →
            df_cell FLAG_COLUMN i out = Some (CBool false)) ∧
    (∀ i z, df_cell NAME_COLUMN i df = Some (CInt z) →
            df_cell FLAG_COLUMN i out = Some (CBool false)).
Proof.
  intros Hzero.
  destruct (main_zero_written env args w Hzero) as (w0 & w1 & names & df & Hex & Hr & _ & Hw).
  assert (∀ i v, df_cell NAME_COLUMN i df = Some v →
            ¬ two_tokens (normalize_name (str_of_cell v)) →
            df_cell FLAG_COLUMN i (annotate names df) = Some (CBool false)) as Hshort.
  { intros i v Hv Hnot. rewrite (flag_of_cell names df i v Hv). unfold flag_of.
    do 2 f_equal. apply bool_decide_eq_false. intros Hin. apply Hnot.
    by eapply extract_names_two_tokens. }
  exists df, (annotate names df). split; [done|]. split; [done|]. split; [done|].
  intros i z Hv. apply (Hshort i (CInt z) Hv).
  cbn [str_of_cell]. rewrite normalize_name_no_letter by apply pretty_Z_chars.
  unfold two_tokens. simpl. lia.
Qed.

(** X18 on the sample run. *)
Lemma short_names_never_match_witness :
  ∃ df out,
    read_excel (sample_env scan roster) (InDir EXCEL_DIR (excel sample_args)) = Ok df ∧
    written (main (U:=latin1) (sample_env scan roster) sample_args fresh_world).1 =
      written fresh_world ++
      [(InDir OUTPUT_DIR (stem (excel sample_args) ++ lit "_REVISADO.xlsx"), out)] ∧
    (∀ i v, df_cell NAME_COLUMN i df = Some v →
            ¬ two_tokens (normalize_name (U:=latin1) (str_of_cell v)) →
            df_cell FLAG_COLUMN i out = Some (CBool false)) ∧
    (∀ i z, df_cell NAME_COLUMN i df = Some (CInt z) →
            df_cell FLAG_COLUMN i out = Some (CBool false)).
Proof.
  apply (short_names_never_match (U:=latin1) (sample_env scan roster) sample_args fresh_world).
  vm_compute. reflexivity.
Defined.

(** ** File names that are refused *)

Lemma starts_with_prefix p t : starts_with p t = true ↔ ∃ r, t = p ++ r.
Proof.
  split.
  - revert t. induction p as [|a p IH]; intros t; [by exists t|].
    destruct t as [|b t]; [done|]. simpl.
    intros [Hab Hp]%andb_true_iff. apply N.eqb_eq in Hab as ->.
    destruct (IH t Hp) as [r ->]. by exists r.
  - intros [r ->]. apply starts_with_app.
Qed.

Lemma endswith_suffix t s : endswith t s = true ↔ ∃ b, t = b ++ s.
Proof.
  unfold endswith. rewrite starts_with_prefix. split.
  - intros [r Hr]. exists (rev r).
    rewrite <- (rev_involutive t), Hr, rev_app_distr, rev_involutive. done.
  - intros [b ->]. exists (rev b). by rewrite rev_app_distr.
Qed.

Lemma endswith_lower name ext :
  endswith (lower name) ext = true ↔ ∃ base e, name = base ++ e ∧ lower e = ext.
Proof.
  rewrite endswith_suffix. unfold lower. split.
  - intros [b Hb]. apply fmap_app_inv in Hb as (base & e & -> & -> & ->).
    by exists base, e.
  - intros (base & e & -> & <-). exists (lower_char <$> base). by rewrite fmap_app.
Qed.

(** X19.  [main] accepts the two file names exactly when they end in
    [.pdf] and in [.xlsx], up to ASCII case.  When it refuses them, it
    consults neither the file system nor a library: the run is the same in
    every environment, ends with status 1, writes nothing and adds one record
    to the log, about the PDF name if that one is wrong, about the Excel
    name otherwise. *)
Theorem bad_extension_touches_nothing `{U : Unicode} env env' args w :
  (good_extensions args = true ↔
   (∃ base e, pdf args = base ++ e ∧ lower e = lit ".pdf") ∧
   (∃ base e, excel args = base ++ e ∧ lower e = lit ".xlsx")) ∧
  (good_extensions args = false →
   main env args w = main env' args w ∧
   (main env args w).2 = 1%Z ∧
   written (main env args w).1 = written w ∧
   emitted (main env args w).1 =
     emitted w ++ [if endswith (lower (pdf args)) (lit ".pdf")
                   then LogBadExcelExtension else LogBadPdfExtension]).
Proof.
  split.
  { unfold good_extensions. by rewrite andb_true_iff, !endswith_lower. }
  unfold good_extensions, main. intros H.
  destruct ((if debug args then set_root_level DEBUG else mret ()) w) as [w0 r0] eqn:E.
  assert (emitted w0 = emitted w ∧ written w0 = written w) as [He Hw].
  { destruct (debug args); by injection E as <- _. }
  destruct (endswith (lower (pdf args)) (lit ".pdf")); cbn [negb].
  - cbn [andb] in H. rewrite H. cbn [negb fst snd].
    rewrite log_written, log_error_run by done. cbn [fst emitted].
    by rewrite He, Hw.
  - cbn [fst snd]. rewrite log_written, log_error_run by done. cbn [fst emitted].
    by rewrite He, Hw.
Qed.

(** X19 on the Excel name [lista.xls], with and without the PDF. *)
Lemma bad_extension_touches_nothing_witness :
  main (U:=latin1) (sample_env scan roster)
    {| pdf := lit "sua.pdf"; excel := lit "lista.xls"; debug := true;
       tesseract_cmd := None; dpi := 300; pages := None |} fresh_world =
  main (U:=latin1) env_without_pdf
    {| pdf := lit "sua.pdf"; excel := lit "lista.xls"; debug := true;
       tesseract_cmd := None; dpi := 300; pages := None |} fresh_world ∧
  emitted (main (U:=latin1) (sample_env scan roster)
    {| pdf := lit "sua.pdf"; excel := lit "lista.xls"; debug := true;
       tesseract_cmd := None; dpi := 300; pages := None |} fresh_world).1 =
  [LogBadExcelExtension].
Proof.
  destruct (proj2 (bad_extension_touches_nothing (U:=latin1) (sample_env scan roster)
                     env_without_pdf
                     {| pdf := lit "sua.pdf"; excel := lit "lista.xls"; debug := true;
                        tesseract_cmd := None; dpi := 300; pages := None |} fresh_world)
              eq_refl) as (Hsame & _ & _ & Hlog).
  split; [exact Hsame|exact Hlog].
Defined.

(** ** The log *)

Lemma orderly_ret {A} (a : A) : orderly (mret a).
Proof. intros w. split; [done|]. exists []. by rewrite app_nil_r. Qed.

Lemma orderly_raise {A} (e : exn) : orderly (raise e : M A).
Proof. intros w. split; [done|]. exists []. by rewrite app_nil_r. Qed.

Lemma orderly_lift {A} (r : result A) : orderly (lift r).
Proof. intros w. split; [done|]. exists []. by rewrite app_nil_r. Qed.

Lemma orderly_log r : orderly (log r).
Proof.
  intros w. destruct (log_run r w) as (w' & E & Hl & _ & He). rewrite E. simpl.
  split; [done|]. eexists. split; [exact He|].
  case_decide; by repeat constructor.
Qed.

Lemma orderly_bind {A B} (m : M A) (f : A → M B) :
  orderly m → (∀ a, orderly (f a)) → orderly (m ≫= f).
Proof.
  intros Hm Hf w. rewrite bind_run. destruct (Hm w) as (Hl & recs & He & Hall).
  destruct (m w) as [w1 [a|e]]; simpl in *.
  - destruct (Hf a w1) as (Hl' & recs' & He' & Hall'). split; [congruence|].
    exists (recs ++ recs'). split; [by rewrite He', He, app_assoc|].
    apply Forall_app. split; [done|]. by rewrite <- Hl.
  - split; [done|]. by exists recs.
Qed.

Lemma orderly_try {A} (m : M A) (h : exn → M A) :
  orderly m → (∀ e, orderly (h e)) → orderly (try_except m h).
Proof.
  intros Hm Hh w. unfold try_except. destruct (Hm w) as (Hl & recs & He & Hall).
  destruct (m w) as [w1 [a|e]]; simpl in *.
  - split; [done|]. by exists recs.
  - destruct (Hh e w1) as (Hl' & recs' & He' & Hall'). split; [congruence|].
    exists (recs ++ recs'). split; [by rewrite He', He, app_assoc|].
    apply Forall_app. split; [done|]. by rewrite <- Hl.
Qed.

Lemma orderly_write env p df : orderly (write_excel env p df).
Proof.
  intros w. unfold write_excel. destruct (to_excel env p df); simpl;
    (split; [done|]; exists []; by rewrite app_nil_r).
Qed.

Lemma orderly_make_parents env p : orderly (make_parents env p).
Proof.
  unfold make_parents. destruct (mkdir_parents env p);
    [apply orderly_raise|apply orderly_ret].
Qed.

Section orderly_runs.
Context {U : Unicode}.

Lemma ocr_pages_orderly cmd images : ∀ i names, orderly (ocr_pages cmd i images names).
Proof.
  induction images as [|img images IH]; intros i names; [apply orderly_ret|].
  cbn [ocr_pages]. destruct (img cmd (Some (lit "spa"))) as [text|e].
  - apply orderly_bind; [apply orderly_log|]. intros _. apply IH.
  - destruct e; try apply orderly_raise.
    apply orderly_bind; [apply orderly_log|]. intros _. apply IH.
Qed.

Lemma extract_names_orderly env p tc d : orderly (extract_names env p tc d).
Proof.
  unfold extract_names. destruct (is_file env p); cbn [negb]; [|apply orderly_raise].
  apply orderly_bind.
  - apply orderly_try.
    + apply orderly_bind; [apply orderly_log|]. intros _. apply orderly_lift.
    + intros e. destruct e; apply orderly_raise.
  - intros images. apply orderly_bind; [apply ocr_pages_orderly|].
    intros names. apply orderly_bind; [apply orderly_log|]. intros _. apply orderly_ret.
Qed.

Lemma validate_orderly env ep op names : orderly (validate env ep op names).
Proof.
  unfold validate. destruct (is_file env ep); cbn [negb]; [|apply orderly_raise].
  apply orderly_bind.
  - apply orderly_try; [apply orderly_lift|].
    intros e. apply orderly_bind; [apply orderly_log|]. intros _. apply orderly_raise.
  - intros df. destruct (bool_decide (NAME_COLUMN ∈ df_columns df)); cbn [negb];
      [|apply orderly_raise].
    apply orderly_bind; [apply orderly_make_parents|]. intros _.
    apply orderly_bind; [|intros _; apply orderly_log].
    apply orderly_try; [apply orderly_write|].
    intros e. apply orderly_bind; [apply orderly_log|]. intros _. apply orderly_raise.
Qed.

Lemma pipeline_orderly env args : orderly (pipeline env args).
Proof.
  unfold pipeline. apply orderly_bind; [apply extract_names_orderly|].
  intros names. apply validate_orderly.
Qed.

End orderly_runs.

(** X20.  [main] only appends to the log, and leaves the root logger at
    the level in force: [DEBUG] with [--debug], the level it found
    otherwise.  Every record it adds is at or above that level; unless that
    level is [DEBUG], no page count is logged. *)
Theorem log_only_grows `{U : Unicode} env args w :
  root_level (main env args w).1 = level_in_force args w ∧
  ∃ recs, emitted (main env args w).1 = emitted w ++ recs ∧
          Forall (fun r => (level_rank (level_in_force args w) ≤
                            level_rank (record_level r))%nat) recs ∧
          (level_in_force args w ≠ DEBUG → ∀ i n, LogPageNames i n ∉ recs).
Proof.
  set (l := level_in_force args w).
  assert (∀ recs, Forall (fun r => (level_rank l ≤ level_rank (record_level r))%nat) recs →
            l ≠ DEBUG → ∀ i n, LogPageNames i n ∉ recs) as Hdebug.
  { intros recs Hall Hl i n Hin. rewrite Forall_forall in Hall.
    specialize (Hall _ Hin). simpl in Hall. destruct l; [done|simpl in Hall; lia..]. }
  assert (∀ r w0, root_level w0 = l → emitted w0 = emitted w →
            ∀ w1 recs, root_level w1 = l → emitted w1 = emitted w0 ++ recs →
              Forall (fun r => (level_rank l ≤ level_rank (record_level r))%nat) recs →
              root_level (log r w1).1 = l ∧
              ∃ recs', emitted (log r w1).1 = emitted w ++ recs' ∧
                Forall (fun r => (level_rank l ≤ level_rank (record_level r))%nat) recs' ∧
                (l ≠ DEBUG → ∀ i n, LogPageNames i n ∉ recs')) as Hlast.
  { intros r w0 Hl0 He0 w1 recs Hl1 He1 Hall.
    destruct (orderly_log r w1) as (Hl2 & recs2 & He2 & Hall2).
    split; [congruence|]. exists (recs ++ recs2).
    assert (Forall (fun r => (level_rank l ≤ level_rank (record_level r))%nat)
              (recs ++ recs2)) as Hall'.
    { apply Forall_app. split; [done|]. by rewrite <- Hl1. }
    split; [by rewrite He2, He1, He0, app_assoc|]. split; [done|]. by apply Hdebug. }
  unfold main.
  destruct ((if debug args then set_root_level DEBUG else mret ()) w) as [w0 r0] eqn:E.
  assert (root_level w0 = l ∧ emitted w0 = emitted w) as [Hl0 He0].
  { subst l. unfold level_in_force. destruct (debug args); by injection E as <- _. }
  destruct (endswith (lower (pdf args)) (lit ".pdf")); cbn [negb].
  2:{ cbn [fst]. apply (Hlast _ w0 Hl0 He0 w0 []); [done|by rewrite app_nil_r|constructor]. }
  destruct (endswith (lower (excel args)) (lit ".xlsx")); cbn [negb].
  2:{ cbn [fst]. apply (Hlast _ w0 Hl0 He0 w0 []); [done|by rewrite app_nil_r|constructor]. }
  destruct (pipeline_orderly env args w0) as (Hl1 & recs & He1 & Hall).
  unfold pipeline in Hl1, He1.
  match goal with |- context [let (_, _) := ?m in _] => destruct m as [w1 [[]|e]] end;
    cbn [fst] in *.
  - apply (Hlast _ w0 Hl0 He0 w1 recs); [congruence|done|by rewrite <- Hl0].
  - destruct (expected e); cbn [fst];
      (apply (Hlast _ w0 Hl0 He0 w1 recs); [congruence|done|by rewrite <- Hl0]).
Qed.

(** X20 on the sample run, without [--debug]. *)
Lemma log_only_grows_witness :
  ∃ recs, emitted (main (U:=latin1) (sample_env scan roster) sample_args fresh_world).1 =
            emitted fresh_world ++ recs ∧
          ∀ i n, LogPageNames i n ∉ recs.
Proof.
  destruct (log_only_grows (U:=latin1) (sample_env scan roster) sample_args fresh_world)
    as (_ & recs & He & _ & Hd).
  exists recs. split; [exact He|]. apply Hd. discriminate.
Defined.

(** ** Pages of ASCII text *)

Lemma splitlines_from_Forall (P : N → Prop) n : ∀ t cur,
  (length t ≤ n)%nat → Forall P cur → Forall P t →
  Forall (Forall P) (splitlines_from cur t).
Proof.
  induction n as [|n IH]; intros t cur Hlen Hcur Ht.
  { destruct t; [|simpl in Hlen; lia]. simpl. destruct cur; [constructor|].
    repeat constructor. by apply Forall_rev. }
  destruct t as [|c t].
  { simpl. destruct cur; [constructor|]. repeat constructor. by apply Forall_rev. }
  inversion Ht as [|? ? Hc Ht']; subst. simpl in Hlen.
  cbn [splitlines_from]. destruct (is_linebreak c).
  - constructor; [by apply Forall_rev|].
    destruct t as [|d t]; [apply IH; [simpl; lia|constructor|constructor]|].
    inversion Ht' as [|? ? Hd Ht'']; subst. simpl in Hlen.
    destruct ((c =? 13) && (d =? 10)).
    + apply IH; [lia|constructor|done].
    + apply IH; [simpl; lia|constructor|done].
  - apply IH; [lia|by constructor|done].
Qed.

Lemma splitlines_Forall (P : N → Prop) t :
  Forall P t → Forall (Forall P) (splitlines t).
Proof. intros Ht. by apply (splitlines_from_Forall P (length t)). Qed.

Lemma lstrip_spaces t :
  Forall (fun c => isspace c = true) (lstrip t) → Forall (fun c => isspace c = true) t.
Proof.
  induction t as [|c t IH]; [done|]. simpl. destruct (isspace c) eqn:Hc; [|done].
  intros H. constructor; [done|by apply IH].
Qed.

Lemma rstrip_spaces t : rstrip t = [] → Forall (fun c => isspace c = true) t.
Proof.
  induction t as [|c t IH]; [done|]. simpl. destruct (rstrip t) as [|x r]; [|done].
  destruct (isspace c) eqn:Hc; [|done]. intros _. constructor; [done|by apply IH].
Qed.

Lemma strip_nil t : strip t = [] → Forall (fun c => isspace c = true) t.
Proof. unfold strip. by intros ?%rstrip_spaces%lstrip_spaces. Qed.

Lemma ascii_line_kept `{U : Unicode} line :
  Forall (fun c => c < 128) line → normalize_name line ≠ [] → line_kept line = true.
Proof.
  intros Hascii Hne.
  assert (∃ c, c ∈ line ∧ is_ascii_letter c = true) as (c & Hin & Hc).
  { assert (¬ Forall (fun c => is_ascii_letter c = false) line) as Hnot.
    { intros Hall. apply Hne, normalize_name_empty. by rewrite unidecode_ascii. }
    apply not_Forall_Exists in Hnot; [|intros c; apply _].
    apply Exists_exists in Hnot as (c & Hin & Hc). exists c. split; [done|].
    simpl in Hc. by destruct (is_ascii_letter c). }
  unfold line_kept. apply andb_true_iff. split.
  - apply bool_decide_eq_true. intros Hs%strip_nil. rewrite Forall_forall in Hs.
    specialize (Hs c Hin). apply letter_not_space in Hc. congruence.
  - apply existsb_exists. exists c. split; [by apply list_elem_of_In|].
    unfold isalpha. rewrite Forall_forall in Hascii. specialize (Hascii c Hin).
    by apply N.ltb_lt in Hascii as ->.
Qed.

(** X21.  For a page that OCR reads as ASCII text, the names the page
    contributes are exactly the normal forms with two tokens of its lines:
    the test on the lines ([strip] and [isalpha]) excludes none of them. *)
Theorem ascii_page_names `{U : Unicode} (text : str) (n : str) :
  Forall (fun c => c < 128) text →
  n ∈ page_contribution (Ok text) ↔
  two_tokens n ∧ ∃ line, line ∈ splitlines text ∧ normalize_name line = n.
Proof.
  intros Hascii. split.
  - simpl. intros [Ht Hn]%elem_of_filter. split; [done|].
    unfold page_names in Hn. apply elem_of_list_to_set in Hn.
    apply list_elem_of_fmap in Hn as (line & -> & Hl).
    apply list_elem_of_filter in Hl as [_ Hl]. by exists line.
  - intros (Ht & line & Hl & <-). apply page_contribution_elem; [done| |done].
    apply ascii_line_kept.
    + pose proof (splitlines_Forall _ text Hascii) as H. rewrite Forall_forall in H.
      by apply H.
    + intros E. rewrite E in Ht. unfold two_tokens in Ht. simpl in Ht. lia.
Qed.

(** X21 on the third page of the sample scan. *)
Lemma ascii_page_names_witness :
  lit "LUIS RUIZ SOTO" ∈ page_contribution (U:=latin1) (Ok (lit "Luis  Ruiz-Soto 123")) ↔
  two_tokens (lit "LUIS RUIZ SOTO") ∧
  ∃ line, line ∈ splitlines (lit "Luis  Ruiz-Soto 123") ∧
          normalize_name (U:=latin1) line = lit "LUIS RUIZ SOTO".
Proof.
  apply (ascii_page_names (U:=latin1)). vm_compute. repeat constructor.
Defined.

(** ** The earlier script, from the PDF to the sheet *)

Lemma stripped_lines text n :
  n ∈ strip <$> filter (fun line => strip line ≠ []) (split_on 10 text) →
  n ≠ [] ∧ strip n = n.
Proof.
  intros (line & -> & Hl)%list_elem_of_fmap.
  apply list_elem_of_filter in Hl as [Hne Hl]. split; [done|apply strip_idemp].
Qed.

Lemma extract_names_from_pdf_inv env p w w' names :
  TesseractAnalysis.extract_names_from_pdf env p w = (w', Ok names) →
  w' = w ∧ ∃ text, names = strip <$> filter (fun line => strip line ≠ []) (split_on 10 text).
Proof.
  unfold TesseractAnalysis.extract_names_from_pdf. rewrite bind_run. unfold lift.
  destruct (convert_from_path env p 200) as [images|e]; [|done].
  rewrite bind_run.
  destruct (TesseractAnalysis.ocr_all images [] w) as [w1 [text|e]] eqn:E; [|done].
  apply ocr_all_inv in E as (-> & _). intros [= <- <-]. split; [done|]. by exists text.
Qed.

Lemma validate_names_inv env names ep op w w' :
  TesseractAnalysis.validate_names env names ep op w = (w', Ok ()) →
  ∃ df, read_excel env ep = Ok df ∧ TesseractAnalysis.NAME ∈ df_columns df ∧
        w' = {| root_level := root_level w; emitted := emitted w;
                written := written w ++
                  [(op, df_set TesseractAnalysis.FLAG
                          ((fun v => CBool (TesseractAnalysis.in_names names v)) <$>
                             default [] (df_get TesseractAnalysis.NAME df)) df)] |}.
Proof.
  unfold TesseractAnalysis.validate_names. rewrite bind_run. unfold lift.
  destruct (read_excel env ep) as [df|e]; [|done].
  case_bool_decide as Hc; cbn [negb]; [|done].
  unfold write_excel. destruct (to_excel env op _); [done|].
  intros [= <-]. by exists df.
Qed.

(** X22.  A run of [main] of [tesseractAnalysis.py] that returns has
    logged nothing and has written one frame, to [OUTPUT/output.xlsx]; a row
    whose name cell is a string is flagged true exactly when that string is
    one of the extracted names, and never when it is empty or has white space
    at either end. *)
Theorem legacy_run env w w' :
  TesseractAnalysis.main env w = (w', Ok ()) →
  ∃ names df out,
    TesseractAnalysis.extract_names_from_pdf env (Rel (lit "SUA/input.pdf")) w =
      (w, Ok names) ∧
    read_excel env (Rel (lit "EXCEL/input.xlsx")) = Ok df ∧
    w' = {| root_level := root_level w; emitted := emitted w;
            written := written w ++ [(Rel (lit "OUTPUT/output.xlsx"), out)] |} ∧
    (∀ i s, df_cell TesseractAnalysis.NAME i df = Some (CStr s) →
            df_cell TesseractAnalysis.FLAG i out = Some (CBool (bool_decide (s ∈ names)))) ∧
    (∀ i s, df_cell TesseractAnalysis.NAME i df = Some (CStr s) →
            s = [] ∨ strip s ≠ s →
            df_cell TesseractAnalysis.FLAG i out = Some (CBool false)).
Proof.
  unfold TesseractAnalysis.main. rewrite bind_run.
  destruct (TesseractAnalysis.extract_names_from_pdf env (Rel (lit "SUA/input.pdf")) w)
    as [w1 [names|e]] eqn:Hex; [|done].
  destruct (extract_names_from_pdf_inv _ _ _ _ _ Hex) as (-> & text & Hnames).
  intros (df & Hr & Hc & ->)%validate_names_inv.
  assert (∀ i s, df_cell TesseractAnalysis.NAME i df = Some (CStr s) →
            df_cell TesseractAnalysis.FLAG i
              (df_set TesseractAnalysis.FLAG
                 ((fun v => CBool (TesseractAnalysis.in_names names v)) <$>
                    default [] (df_get TesseractAnalysis.NAME df)) df) =
            Some (CBool (bool_decide (s ∈ names)))) as Hflag.
  { intros i s Hv. unfold df_cell in *. rewrite df_get_set_eq.
    destruct (df_get TesseractAnalysis.NAME df) as [col|]; [|done]. simpl in *.
    by rewrite list_lookup_fmap, Hv. }
  eexists names, df, _. split; [done|]. split; [done|]. split; [done|].
  split; [done|]. intros i s Hv Hs. rewrite (Hflag i s Hv). do 2 f_equal.
  apply bool_decide_eq_false. intros Hin. rewrite Hnames in Hin.
  apply stripped_lines in Hin as [Hne Hst]. by destruct Hs.
Qed.

(** X22 on a sheet whose second name has a space in front and whose third
    is empty. *)
Lemma legacy_run_witness :
  ∃ names df out,
    TesseractAnalysis.extract_names_from_pdf (sample_env legacy_scan padded_legacy_roster)
      (Rel (lit "SUA/input.pdf")) fresh_world = (fresh_world, Ok names) ∧
    read_excel (sample_env legacy_scan padded_legacy_roster) (Rel (lit "EXCEL/input.xlsx")) =
      Ok df ∧
    out = padded_legacy_roster ++
          [(TesseractAnalysis.FLAG, [CBool true; CBool false; CBool false])].
Proof.
  destruct (legacy_run (sample_env legacy_scan padded_legacy_roster) fresh_world
              (TesseractAnalysis.main (sample_env legacy_scan padded_legacy_roster)
                 fresh_world).1 ltac:(vm_compute; reflexivity))
    as (names & df & out & Hex & Hr & Hw & _).
  exists names, df, out. split; [exact Hex|]. split; [exact Hr|].
  vm_compute in Hw. by injection Hw as <-.
Defined.

(** ** The message for a sheet without the name column *)

Lemma repr_char_plain `{U : Unicode} c : plain_char c → repr_char 39 c = [c].
Proof.
  intros (H1 & H2 & H3 & H4). unfold repr_char.
  assert ((c =? 39) = false) as -> by (by apply N.eqb_neq).
  assert ((c =? 92) = false) as -> by (by apply N.eqb_neq).
  assert ((c =? 9) = false) as -> by (apply N.eqb_neq; lia).
  assert ((c =? 10) = false) as -> by (apply N.eqb_neq; lia).
  assert ((c =? 13) = false) as -> by (apply N.eqb_neq; lia).
  assert ((c <? 32) = false) as -> by (apply N.ltb_ge; lia).
  assert ((c =? 127) = false) as -> by (apply N.eqb_neq; lia).
  assert ((c <? 127) = true) as -> by (apply N.ltb_lt; lia).
  done.
Qed.

Lemma repr_str_plain `{U : Unicode} s : Forall plain_char s → repr_str s = 39 :: s ++ [39].
Proof.
  intros Hs. unfold repr_str.
  assert (39 ∉ s) as H39.
  { intros Hin. rewrite Forall_forall in Hs. by destruct (Hs _ Hin) as (_ & _ & ? & _). }
  rewrite (bool_decide_false (39 ∈ s)) by done. cbn [andb]. do 2 f_equal.
  clear H39. induction Hs as [|c s Hc Hs IH]; [done|].
  rewrite fmap_cons. change (mjoin (repr_char 39 c :: (repr_char 39 <$> s)))
    with (repr_char 39 c ++ mjoin (repr_char 39 <$> s)).
  by rewrite repr_char_plain, IH.
Qed.

(** X23.  For a sheet without the name column whose labels are made of
    printable ASCII characters other than the single quote and the
    backslash, the message of the [KeyError] is the fixed text followed, in
    square brackets, by the labels in single quotes, separated by a comma
    and a space. *)
Theorem plain_labels_message `{U : Unicode} env ep op names w df :
  is_file env ep = true → read_excel env ep = Ok df →
  NAME_COLUMN ∉ df_columns df → Forall (Forall plain_char) (df_columns df) →
  validate env ep op names w =
    (w, Raise (KeyError
         (lit "La columna 'Nombre Completo' no existe en el Excel. Columnas disponibles: [" ++
          join_comma ((fun label => 39 :: label ++ [39]) <$> df_columns df) ++ lit "]"))).
Proof.
  intros Hf Hr Hc Hplain. rewrite (validate_missing_column env ep op names w df Hf Hr Hc).
  assert (repr_str <$> df_columns df =
          (fun label => 39 :: label ++ [39]) <$> df_columns df) as Hq.
  { apply list_fmap_ext. intros i label Hl. apply repr_str_plain.
    rewrite Forall_forall in Hplain. apply Hplain. by eapply list_elem_of_lookup_2. }
  unfold missing_column_message, repr_list. rewrite Hq. reflexivity.
Qed.

(** X23 on a sheet with the columns [Nombre] and [Puesto]. *)
Lemma plain_labels_message_witness :
  validate (U:=latin1) (sample_env scan unnamed_roster) (InDir EXCEL_DIR (lit "lista.xlsx"))
    (InDir OUTPUT_DIR (lit "lista_REVISADO.xlsx")) ∅ fresh_world =
    (fresh_world,
     Raise (KeyError (lit "La columna 'Nombre Completo' no existe en el Excel. Columnas disponibles: ['Nombre', 'Puesto']"))).
Proof.
  apply (plain_labels_message (U:=latin1) (sample_env scan unnamed_roster)
           (InDir EXCEL_DIR (lit "lista.xlsx"))
           (InDir OUTPUT_DIR (lit "lista_REVISADO.xlsx")) ∅ fresh_world unnamed_roster).
  - reflexivity.
  - reflexivity.
  - vm_compute. intros H. repeat (apply elem_of_cons in H as [H|H]; [discriminate H|]).
    by apply elem_of_nil in H.
  - vm_compute. repeat constructor; discriminate.
Defined.
